(** * Furigana highlighting: a shallow embedding of [logic/kana_highlight.py]

    The development follows the Python module function by function.  A Python
    [str] is a sequence of Unicode code points, so the text is a list of code
    points ([N]); slices, [in], [find], [replace], [split] and [strip] are
    written out on that representation.  The regular expressions of the
    module are values of a small regex syntax run by a backtracking matcher
    that follows the search order of Python's [re] (alternatives left to
    right, greedy and lazy repetition, groups, back-references).  Exceptions
    and the messages handed to [show_error_message] are threaded through an
    error/writer monad. *)

From Stdlib Require Import String Ascii.
From Stdlib Require Import List NArith Bool Arith Lia Permutation Sorted.
Import ListNotations.

Set Implicit Arguments.

(* ================================================================== *)
(** ** Python strings *)

Definition char := N.
Definition str := list char.

Fixpoint utf8_go (bs : list N) (need : nat) (acc : N) : str :=
  match bs with
  | [] => []
  | b :: bs' =>
      match need with
      | O => if (b <? 128)%N then b :: utf8_go bs' 0 0
             else if (b <? 224)%N then utf8_go bs' 1 (b - 192)%N
             else if (b <? 240)%N then utf8_go bs' 2 (b - 224)%N
             else utf8_go bs' 3 (b - 240)%N
      | S O => (acc * 64 + (b - 128))%N :: utf8_go bs' 0 0
      | S n => utf8_go bs' n (acc * 64 + (b - 128))%N
      end
  end.

(** [u] gives the code-point sequence of a literal written in UTF-8, so that
    the tables below can be read against the Python source. *)
Definition u (s : string) : str :=
  utf8_go (map N_of_ascii (list_ascii_of_string s)) 0 0.

Module PyStr.

Fixpoint eqb (a b : str) : bool :=
  match a, b with
  | [], [] => true
  | c :: a', d :: b' => (c =? d)%N && eqb a' b'
  | _, _ => false
  end.

(** [s.startswith(p)] *)
Fixpoint startswith (p s : str) : bool :=
  match p, s with
  | [], _ => true
  | c :: p', d :: s' => (c =? d)%N && startswith p' s'
  | _ :: _, [] => false
  end.

(** [s.endswith(p)] *)
Definition endswith (p s : str) : bool := startswith (rev p) (rev s).

(** [s.find(sub)], with [None] for [-1]; [i] is the index of the head of [s]. *)
Fixpoint find_from (sub s : str) (i : nat) : option nat :=
  if startswith sub s then Some i
  else match s with
       | [] => None
       | _ :: s' => find_from sub s' (S i)
       end.

Definition find (sub s : str) : option nat := find_from sub s 0.

(** [sub in s] *)
Definition contains (sub s : str) : bool :=
  match find sub s with Some _ => true | None => false end.

(** [c in l] for a list, set or dict-key collection of strings *)
Definition mem (x : str) (l : list str) : bool := existsb (eqb x) l.

(** [d.get(k)] on a dict written as an association list *)
Fixpoint get {V : Type} (d : list (str * V)) (k : str) : option V :=
  match d with
  | [] => None
  | (k', v) :: d' => if eqb k k' then Some v else get d' k
  end.

(** [s.replace(old, new)] and [s.replace(old, new, count)] for a non-empty
    [old]; [skip] counts the characters of a match still to be dropped. *)
Fixpoint replace_go (old new s : str) (skip : nat) (count : option nat) : str :=
  match s with
  | [] => []
  | c :: s' =>
      match skip with
      | S k => replace_go old new s' k count
      | O =>
          match count with
          | Some O => c :: replace_go old new s' 0 count
          | _ =>
              if startswith old s
              then new ++ replace_go old new s' (length old - 1) (option_map pred count)
              else c :: replace_go old new s' 0 count
          end
      end
  end.

Definition replace (old new s : str) : str := replace_go old new s 0 None.
Definition replace_n (old new : str) (count : nat) (s : str) : str :=
  replace_go old new s 0 (Some count).

(** [s.split(sep)] for a one-character separator *)
Fixpoint split (sep : char) (s : str) : list str :=
  match s with
  | [] => [[]]
  | c :: s' =>
      if (c =? sep)%N then [] :: split sep s'
      else match split sep s' with
           | w :: ws => (c :: w) :: ws
           | [] => [[c]]
           end
  end.

(** The characters [str.strip()] removes: those with [isspace()] true. *)
Definition isspace (c : char) : bool :=
  ((9 <=? c) && (c <=? 13) || (28 <=? c) && (c <=? 32) || (c =? 133) || (c =? 160)
   || (c =? 5760) || (8192 <=? c) && (c <=? 8202) || (c =? 8232) || (c =? 8233)
   || (c =? 8239) || (c =? 8287) || (c =? 12288))%N.

Fixpoint lstrip (s : str) : str :=
  match s with
  | c :: s' => if isspace c then lstrip s' else s
  | [] => []
  end.

Definition strip (s : str) : str := rev (lstrip (rev (lstrip s))).

(** Slices: [s[:-1]], [s[1:]], [s[1:-1]]. *)
Definition but_last (s : str) : str := removelast s.
Definition but_first (s : str) : str := tl s.
Definition but_ends (s : str) : str := removelast (tl s).

(** [s[-1]] and [s[0]]; [None] stands for the [IndexError] on an empty string. *)
Definition last_char (s : str) : option char :=
  match rev s with c :: _ => Some c | [] => None end.
Definition first_char (s : str) : option char :=
  match s with c :: _ => Some c | [] => None end.

End PyStr.

(* ================================================================== *)
(** ** Regular expressions: the fragment of Python's [re] the module uses *)

Module Re.

Inductive regex : Type :=
| Lit (s : str)                         (* a literal string *)
| Cls (p : char -> bool)                (* one character of a class *)
| Rep (p : char -> bool) (lo : nat) (hi : option nat) (greedy : bool)
                                        (* a quantified class: [*] [+] [?] [*?] [+?] *)
| Bol                                   (* [^] *)
| Eol                                   (* [$]: at the end, or before a final line feed *)
| Cat (r1 r2 : regex)
| Alt (r1 r2 : regex)                   (* [r1|r2], [r1] tried first *)
| Grp (n : nat) (r : regex)             (* capturing group number [n] *)
| Ref (n : nat).                        (* back-reference [\n] *)

Record mstate : Type := MState {
  pos : nat;                            (* index of the next character *)
  rest : str;                           (* the text from [pos] on *)
  caps : list (nat * str)               (* groups closed so far, latest first *)
}.

Fixpoint cap (n : nat) (cs : list (nat * str)) : option str :=
  match cs with
  | [] => None
  | (m, w) :: cs' => if n =? m then Some w else cap n cs'
  end.

(** [strip_prefix l s]: the rest of [s] after the literal [l], if [s] starts with it. *)
Fixpoint strip_prefix (l s : str) : option str :=
  match l, s with
  | [], _ => Some s
  | c :: l', d :: s' => if (c =? d)%N then strip_prefix l' s' else None
  | _ :: _, [] => None
  end.

Definition below (hi : option nat) (cnt : nat) : bool :=
  match hi with None => true | Some h => cnt <? h end.

(** Repetition of a class: [cnt] characters are taken already.  The greedy
    form first takes one more and gives back on failure; the lazy form
    first tries to go on with what it has. *)
Fixpoint rep_go {A : Type} (p : char -> bool) (lo : nat) (hi : option nat)
    (greedy : bool) (cnt : nat) (ps : nat) (rs : str)
    (k : nat -> str -> option A) {struct rs} : option A :=
  match rs with
  | c :: rs' =>
      if p c && below hi cnt then
        if greedy then
          match rep_go p lo hi greedy (S cnt) (S ps) rs' k with
          | Some a => Some a
          | None => if lo <=? cnt then k ps rs else None
          end
        else
          match (if lo <=? cnt then k ps rs else None) with
          | Some a => Some a
          | None => rep_go p lo hi greedy (S cnt) (S ps) rs' k
          end
      else if lo <=? cnt then k ps rs else None
  | [] => if lo <=? cnt then k ps rs else None
  end.

Definition is_line_feed (c : char) : bool := (c =? 10)%N.

(** The matcher, in continuation-passing style: [k] is what remains to be
    matched, and a [None] from it makes the matcher try its next choice. *)
Fixpoint rmatch {A : Type} (r : regex) (s : mstate) (k : mstate -> option A)
    {struct r} : option A :=
  match r with
  | Lit l =>
      match strip_prefix l (rest s) with
      | Some rs' => k (MState (pos s + length l) rs' (caps s))
      | None => None
      end
  | Cls p =>
      match rest s with
      | c :: rs' => if p c then k (MState (S (pos s)) rs' (caps s)) else None
      | [] => None
      end
  | Rep p lo hi greedy =>
      rep_go p lo hi greedy 0 (pos s) (rest s)
             (fun ps rs => k (MState ps rs (caps s)))
  | Bol => if pos s =? 0 then k s else None
  | Eol =>
      match rest s with
      | [] => k s
      | [c] => if is_line_feed c then k s else None
      | _ => None
      end
  | Cat r1 r2 => rmatch r1 s (fun s1 => rmatch r2 s1 k)
  | Alt r1 r2 =>
      match rmatch r1 s k with
      | Some a => Some a
      | None => rmatch r2 s k
      end
  | Grp n r1 =>
      rmatch r1 s (fun s1 =>
        k (MState (pos s1) (rest s1)
                  ((n, firstn (pos s1 - pos s) (rest s)) :: caps s1)))
  | Ref n =>
      match cap n (caps s) with
      | Some l =>
          match strip_prefix l (rest s) with
          | Some rs' => k (MState (pos s + length l) rs' (caps s))
          | None => None
          end
      | None => None
      end
  end.

(** A match object: [group(0)] and the numbered groups. *)
Record rematch : Type := ReMatch {
  m_start : nat;
  m_end : nat;
  group0 : str;
  m_caps : list (nat * str)
}.

(** [match.group(n)] for [n >= 1]; every group of the patterns below takes
    part in every match, so the default is never seen. *)
Definition group (m : rematch) (n : nat) : str :=
  match cap n (m_caps m) with Some w => w | None => [] end.

(** [pattern.match(s)]: a match starting at index 0. *)
Definition match_ (r : regex) (s : str) : option rematch :=
  match rmatch r (MState 0 s []) (fun s' => Some s') with
  | Some s' => Some (ReMatch 0 (pos s') (firstn (pos s') s) (caps s'))
  | None => None
  end.

(** The leftmost match at or after [p].  With [must_advance] an empty match
    at [p] itself is refused, which is how [sub] and [findall] go on after
    an empty match. *)
Fixpoint search (r : regex) (must_advance : bool) (p : nat) (rs : str)
    : option (nat * mstate) :=
  match rmatch r (MState p rs [])
               (fun s' => if must_advance && (pos s' =? p) then None else Some s') with
  | Some s' => Some (p, s')
  | None =>
      match rs with
      | [] => None
      | _ :: rs' => search r false (S p) rs'
      end
  end.

Inductive segment : Type :=
| Text (t : str)
| Match (m : rematch).

(** The text cut into unmatched stretches and successive non-overlapping
    matches, as [finditer] walks it. *)
Fixpoint segments (fuel : nat) (r : regex) (must_advance : bool) (p : nat) (rs : str)
    : list segment :=
  match fuel with
  | O => [Text rs]
  | S fuel' =>
      match search r must_advance p rs with
      | None => [Text rs]
      | Some (st, s') =>
          Text (firstn (st - p) rs)
          :: Match (ReMatch st (pos s') (firstn (pos s' - st) (skipn (st - p) rs)) (caps s'))
          :: segments fuel' r (pos s' =? st) (pos s') (rest s')
      end
  end.

(** Every match either consumes a character or is followed by one that
    does, so twice the length of the text (and one more) is fuel enough. *)
Definition finditer (r : regex) (s : str) : list segment :=
  segments (S (2 * S (length s))) r false 0 s.

(** [pattern.sub(repl, s)] with a replacement function *)
Definition sub (r : regex) (repl : rematch -> str) (s : str) : str :=
  concat (map (fun sg => match sg with Text t => t | Match m => repl m end)
              (finditer r s)).

(** [pattern.findall(s)] for a pattern with exactly one group *)
Definition findall1 (r : regex) (s : str) : list str :=
  flat_map (fun sg => match sg with Text _ => [] | Match m => [group m 1] end)
           (finditer r s).

Definition cat (rs : list regex) : regex := fold_right Cat (Lit []) rs.

(** ['|'.join(...)] of sub-patterns *)
Fixpoint alt (rs : list regex) : regex :=
  match rs with
  | [] => Lit []
  | [r] => r
  | r :: rs' => Alt r (alt rs')
  end.

(** [.]: any character but a line feed *)
Definition dot : char -> bool := fun c => negb (is_line_feed c).

End Re.

(* ================================================================== *)
(** ** Exceptions and the message sink *)

Inductive exn : Type :=
| IndexError
| ZeroDivisionError
| TypeError
| RecursionError
| ReError                    (* [re.error], raised by [re.compile] *)
| OtherError.                (* any other exception of the library or of a
                                replacer called on a match of its own *)

Inductive outcome (A : Type) : Type :=
| Ok (a : A)
| Raise (e : exn).
Arguments Raise {A} e.

(** A computation yields a value or raises, and lists the messages it gave
    to [show_error_message], oldest first. *)
Definition M (A : Type) : Type := (outcome A * list str)%type.

Definition ret {A : Type} (a : A) : M A := (Ok a, []).
Definition raise {A : Type} (e : exn) : M A := (Raise e, []).
Definition show_error_message (msg : str) : M unit := (Ok tt, [msg]).
Definition bind {A B : Type} (c : M A) (k : A -> M B) : M B :=
  match c with
  | (Ok a, out) => let (r, out') := k a in (r, out ++ out')
  | (Raise e, out) => (Raise e, out)
  end.

Notation "x <- c ;; k" := (bind c (fun x => k))
  (at level 61, c at next level, right associativity).
Notation "c ;;; k" := (bind c (fun _ => k))
  (at level 61, right associativity).

(* ================================================================== *)
(** ** What the module takes from its surroundings *)

(** [kana_conv] (imported by the module) and three facts of the Python
    run time: which characters [\d] matches, the order in which a [set] of
    strings is iterated when the tables are joined into patterns at import
    time, and what the [re] library makes of a pattern text that is built
    around a reading with regex operators in it.  Python fixes none of the
    three in the source text.

    The patterns the module writes out are matched by [Re].  The three
    patterns it builds around a reading are matched by [Re] too when the
    reading holds no operator, the pattern being then the one the text
    spells out.  For any other reading the pattern text is handed to the
    library as it is: [re_refuses p] says that [re.compile] raises
    [re.error] on the text [p]; [sub_onyomi_replacer p s] and
    [sub_kunyomi_replacer p s] are the outcomes of
    [re.sub(p, onyomi_replacer, s)] and [re.sub(p, kunyomi_replacer, s)] for
    a text [p] the library accepts: a string, or what the substitution or
    the replacer raises. *)
Record Host : Type := {
  to_hiragana : str -> str;
  to_katakana : str -> str;
  isdecimal : char -> bool;
  set_iter : list str -> list str;
  re_refuses : str -> bool;
  sub_onyomi_replacer : str -> str -> outcome str;
  sub_kunyomi_replacer : str -> str -> outcome str
}.

(** A set is iterated without repetition and holds exactly the elements of
    its literal. *)
Definition set_iter_ok (h : Host) : Prop :=
  forall l, NoDup (set_iter h l) /\ (forall x, In x (set_iter h l) <-> In x l).

(* ================================================================== *)
(** ** Tables *)

Definition HIRAGANA_CONVERSION_DICT : list (str * list str) :=
  Eval vm_compute in
  map (fun kv => (u (fst kv), map u (snd kv)))
    [ ("か", ["が"]); ("き", ["ぎ"]); ("く", ["ぐ"]); ("け", ["げ"]); ("こ", ["ご"]);
      ("さ", ["ざ"]); ("し", ["じ"]); ("す", ["ず"]); ("せ", ["ぜ"]); ("そ", ["ぞ"]);
      ("た", ["だ"]); ("ち", ["ぢ"]); ("つ", ["づ"]); ("て", ["で"]); ("と", ["ど"]);
      ("は", ["ば"; "ぱ"]); ("ひ", ["び"; "ぴ"]); ("ふ", ["ぶ"; "ぷ"]);
      ("へ", ["べ"; "ぺ"]); ("ほ", ["ぼ"; "ぽ"]) ]%string.

Definition SMALL_TSU_POSSIBLE_HIRAGANA : list str :=
  Eval vm_compute in map u ["つ"; "ち"; "く"; "き"; "う"; "り"; "ん"]%string.

Definition ALL_MORA : list str :=
  Eval vm_compute in
  map u
    [ (* First the two kana mora, so that they are matched first *)
      "くぃ"; "きゃ"; "きゅ"; "きぇ"; "きょ"; "ぐぃ"; "ご";
      "ぎゃ"; "ぎゅ"; "ぎぇ"; "ぎょ"; "すぃ"; "しゃ"; "しゅ"; "しぇ"; "しょ";
      "ずぃ"; "じゃ"; "じゅ"; "じぇ"; "じょ"; "てぃ"; "とぅ";
      "ちゃ"; "ちゅ"; "ちぇ"; "ちょ"; "でぃ"; "どぅ"; "ぢゃ"; "でゅ";
      "ぢゅ"; "ぢぇ"; "ぢょ"; "つぁ"; "つぃ"; "つぇ"; "つぉ"; "づぁ"; "づぃ"; "づぇ"; "づぉ";
      "ひぃ"; "ほぅ"; "ひゃ"; "ひゅ"; "ひぇ"; "ひょ"; "びぃ"; "ぼ";
      "びゃ"; "びゅ"; "びぇ"; "びょ"; "ぴぃ"; "ぴゃ"; "ぴゅ"; "ぴぇ"; "ぴょ";
      "ふぁ"; "ふぃ"; "ふぇ"; "ふぉ"; "ゔぁ"; "ゔぃ"; "ゔ"; "ゔぇ"; "ゔぉ"; "ぬぃ"; "の";
      "にゃ"; "にゅ"; "にぇ"; "にょ"; "むぃ"; "みゃ"; "みゅ"; "みぇ"; "みょ";
      "るぃ"; "りゃ"; "りゅ"; "りぇ"; "りょ";
      "いぇ";
      (* Then single kana mora *)
      "か"; "く"; "け"; "こ"; "き"; "が"; "ぐ"; "げ"; "ご";
      "ぎ"; "さ"; "す"; "せ"; "そ"; "し";
      "ざ"; "ず"; "づ"; "ぜ"; "ぞ"; "じ"; "ぢ"; "た"; "とぅ";
      "て"; "と"; "ち"; "だ"; "で"; "ど"; "ぢ";
      "つ"; "づ"; "は";
      "へ"; "ほ"; "ひ"; "ば"; "ぶ"; "べ"; "ぼ"; "ぼ";
      "び"; "ぱ"; "ぷ"; "べ"; "ぽ"; "ぴ";
      "ふ"; "ゔぃ"; "ゔ"; "な"; "ぬ"; "ね"; "の";
      "に"; "ま"; "む"; "め"; "も"; "み";
      "ら"; "る"; "れ"; "ろ"; "り"; "あ"; "い"; "う"; "え"; "お"; "や";
      "ゆ"; "よ"; "わ"; "ゐ"; "ゑ"; "を" ]%string.

Definition VERB_NOUN_OKURIGANA : list (str * str) :=
  Eval vm_compute in
  map (fun kv => (u (fst kv), u (snd kv)))
    [ ("る", "り"); ("む", "み"); ("ぬ", "に"); ("ぐ", "ぎ"); ("ぶ", "び");
      ("める", "め") ]%string.

Definition READING_FIRST_KANA_TO_POSSIBLE_INFLECTED_FIRST_KANA : list (str * list str) :=
  Eval vm_compute in
  map (fun kv => (u (fst kv), map u (snd kv)))
    [ ("う", ["っ"; "い"; "わ"; "お"; "え"]);
      ("く", ["き"; "か"; "け"; "こ"]);
      ("ぐ", ["ぎ"; "が"; "げ"; "ご"]);
      ("す", ["し"; "さ"; "せ"; "そ"]);
      ("つ", ["っ"; "ち"; "た"; "て"; "と"]);
      ("ぬ", ["に"; "な"; "ね"; "の"]);
      ("ぶ", ["び"; "ば"; "べ"; "ぼ"]);
      ("む", ["み"; "ま"; "め"; "も"]);
      ("る", ["り"; "ら"; "れ"; "ろ"]);
      ("める", ["め"]) ]%string.

Definition OTHER_FIRST_KANA : list (str * str) :=
  Eval vm_compute in
  map (fun kv => (u (fst kv), u (snd kv)))
    [ ("べ", "る"); ("か", "す"); ("げ", "る"); ("た", "る") ]%string.

Definition NOT_FIRST_KANA : list str :=
  Eval vm_compute in
  map u ["を"; "ぽ"; "ぷ"; "ぴ"; "ぱ"; "へ"; "ぺ"; "あ"; "お"; "や"; "ゆ"; "よ"; "ろ";
         "ふ"; "ゐ"]%string.

(** The set literal as written, repetitions included. *)
Definition VERB_ALL_OKURIGANA : list str :=
  Eval vm_compute in
  map u
    [ "ます"; "ました"; "ません"; "ませんでした";
      "った"; "いた"; "んだ"; "た"; "ない"; "なかった";
      "て";
      "ましたら"; "ませんでしたら"; "たら"; "なかったら";
      "ましょう"; "ませんか"; "よう"; "まい";
      "れる"; "れない"; "れた"; "れなかった"; "れます"; "れません";
      "る"; "ない"; "なかった"; "ません";
      "ろ"; "ろう"; "るな"; "なさい"; "な";
      "させる"; "させない"; "させた"; "させなかった"; "させます"; "させません";
      "せる"; "せない"; "せた"; "せなかった"; "せます"; "せません";
      "られる"; "られない"; "られた"; "られます"; "られなかった"; "られません";
      "れる"; "れない"; "れた"; "れなかった"; "れます"; "れません";
      "えば"; "れば"; "えなければ"; "えたら"; "えなかったら";
      "ている"; "ていない"; "ていた"; "ていなかった"; "ています"; "ていません";
      "てる"; "てない"; "てた"; "てなかった"; "てます"; "てません";
      "きる" ]%string.

Definition IRREGULAR_VERB_INFLECTIONS : list (str * list str) :=
  Eval vm_compute in
  map (fun kv => (u (fst kv), map u (snd kv)))
    [ ("来", ["たす"; "たる"; "たり"; "なければ"; "なくて"; "き"]) ]%string.

Definition ADJECTIVE_INFLECTIONS : list str :=
  Eval vm_compute in
  map u
    [ "い"; "く"; "かった"; "くない"; "くなかった"; "くて"; "ければ"; "けれど";
      "かろう"; "かろうか"; "かれ"; "かれば"; "かれど" ]%string.

Definition LOG : bool := false.

(** [log] calls itself when [LOG] is set and does nothing otherwise. *)
Definition log (msg : str) : M unit :=
  if LOG then raise RecursionError else ret tt.

(* ================================================================== *)
(** ** Data of the module *)

Inductive Edge : Type := LEFT | RIGHT | MIDDLE | WHOLE.

Inductive ReadingType : Type := T_onyomi | T_kunyomi | T_none.

(** The [TypedDict]s.  A key read with [.get] may be absent, which Python
    gives as [None]: such fields are options. *)
Module WordData.
Record t : Type := mk {
  kanji_pos : option nat;
  kanji_count : option nat;
  word : str;
  furigana : str;
  okurigana : str;
  edge : option Edge
}.
End WordData.

Module HighlightArgs.
Record t : Type := mk {
  text : str;
  onyomi : str;
  kunyomi : str;
  kanji_to_highlight : str
}.
End HighlightArgs.

Module MainResult.
Record t : Type := mk {
  text : str;
  type : ReadingType
}.
End MainResult.

Definition is_edge (e : Edge) (o : option Edge) : bool :=
  match o, e with
  | Some LEFT, LEFT | Some RIGHT, RIGHT | Some MIDDLE, MIDDLE | Some WHOLE, WHOLE => true
  | _, _ => false
  end.

Definition is_type (a b : ReadingType) : bool :=
  match a, b with
  | T_onyomi, T_onyomi | T_kunyomi, T_kunyomi | T_none, T_none => true
  | _, _ => false
  end.

(** The first element of a list for which [f] gives a result: a [for] loop
    that returns from inside its body. *)
Fixpoint first_some {A B : Type} (f : A -> option B) (l : list A) : option B :=
  match l with
  | [] => None
  | a :: l' => match f a with Some b => Some b | None => first_some f l' end
  end.

(** [for i in l: s = body(i, s)], stopping at the first exception. *)
Fixpoint for_each {A S : Type} (l : list A) (body : A -> S -> M S) (s : S) : M S :=
  match l with
  | [] => ret s
  | a :: l' => s' <- body a s ;; for_each l' body s'
  end.

(** [l.sort(key=len, reverse=True)]: stable, longest first. *)
Fixpoint insert_by_len (x : str) (l : list str) : list str :=
  match l with
  | [] => [x]
  | y :: l' => if length x <? length y then y :: insert_by_len x l' else x :: l
  end.

Definition sort_by_len_reverse (l : list str) : list str :=
  fold_right insert_by_len [] l.

Definition in_range (lo hi c : char) : bool := ((lo <=? c) && (c <=? hi))%N.

(** [[ぁ-ん]] *)
Definition hiragana_class (c : char) : bool := in_range 0x3041%N 0x3093%N c.

Definition comma : char := 0x3001%N.       (* 、 *)
Definition period : char := 46%N.          (* . *)
Definition small_tsu : str := [0x3063%N]. (* っ *)
Definition repeater : str := [0x3005%N].  (* 々 *)
Definition b_open : str := Eval vm_compute in u "<b>".
Definition b_close : str := Eval vm_compute in u "</b>".
Definition sound_prefix : str := Eval vm_compute in u "sound:".

Record juku_state : Type := JukuState {
  remainder : nat;
  new_furigana : str;
  cur_mora_index : nat
}.

Inductive kunyomi_step : Type :=
| KMalformed                 (* the entry has more than one period *)
| KMatch (matched : str)
| KNone.

(** The characters that mean something else than themselves in a pattern
    text: the period, the caret, the dollar sign, the star, the plus sign,
    the question mark, the braces, the square brackets, the backslash, the
    bar and the parentheses. *)
Definition regex_operator (c : char) : bool :=
  existsb (N.eqb c) [46; 94; 36; 42; 43; 63; 123; 125; 91; 93; 92; 124; 40; 41]%N.

Definition no_regex_operator (s : str) : bool :=
  forallb (fun c => negb (regex_operator c)) s.

(** A compiled pattern: one that [Re] matches, or a pattern text that the
    library of the host has accepted. *)
Inductive pattern : Type :=
| Known (r : Re.regex)
| Other (pattern_text : str).

Section Highlight.

Variable host : Host.

(** [[\d々一-龯㐀-䶿]] *)
Definition kanji_class (c : char) : bool :=
  isdecimal host c || (c =? 0x3005)%N || in_range 0x4e00%N 0x9faf%N c
  || in_range 0x3400%N 0x4dbf%N c.

(** [KANJI_RE]: one or more characters of the kanji class, as group 1 *)
Definition KANJI_REC : Re.regex := Re.Grp 1 (Re.Rep kanji_class 1 None true).

(** [FURIGANA_RE]: an optional blank, group 1 of one or more characters
    other than blank and [>] (lazy), then group 2 (lazy, one or more of any
    character) between square brackets *)
Definition FURIGANA_REC : Re.regex :=
  Re.cat [ Re.Rep (fun c => (c =? 32)%N) 0 (Some 1) true;
           Re.Grp 1 (Re.Rep (fun c => negb ((c =? 32)%N || (c =? 62)%N)) 1 None false);
           Re.Lit [91%N];
           Re.Grp 2 (Re.Rep Re.dot 1 None false);
           Re.Lit [93%N] ].

(** [KANJI_AND_FURIGANA_AND_OKURIGANA_RE]: group 1 a kanji run, group 2 the
    bracketed gloss (lazy), group 3 the hiragana that follow (greedy) *)
Definition KANJI_AND_FURIGANA_AND_OKURIGANA_REC : Re.regex :=
  Re.cat [ Re.Grp 1 (Re.Rep kanji_class 1 None true);
           Re.Lit [91%N];
           Re.Grp 2 (Re.Rep Re.dot 1 None false);
           Re.Lit [93%N];
           Re.Grp 3 (Re.Rep hiragana_class 0 None true) ].

(** The pattern of [VERB_INFLECTIONS_REC] and [ADJECTIVE_INFLECTIONS_REC]:
    group 1 is the alternation of the endings joined by [|], with a [^]
    written before the first of them and so part of that alternative only;
    group 2 is a lazy run of any characters; then [$]. *)
Definition inflections_rec (alternatives : list str) : Re.regex :=
  Re.cat [ Re.Grp 1 (match alternatives with
                     | [] => Re.Bol
                     | a :: l => Re.alt (Re.Cat Re.Bol (Re.Lit a) :: map Re.Lit l)
                     end);
           Re.Grp 2 (Re.Rep Re.dot 0 None false);
           Re.Eol ].

Definition VERB_INFLECTIONS_REC : Re.regex :=
  inflections_rec (set_iter host VERB_ALL_OKURIGANA).

Definition ADJECTIVE_INFLECTIONS_REC : Re.regex :=
  inflections_rec (set_iter host ADJECTIVE_INFLECTIONS).

(** For each kanji of the table: [^], group 1 the alternation of its
    endings, group 2 a greedy run of any characters, [$]. *)
Definition IRREGULAR_VERB_INFLECTIONS_REC : list (str * Re.regex) :=
  map (fun kv =>
         (fst kv,
          Re.cat [ Re.Bol;
                   Re.Grp 1 (Re.alt (map Re.Lit (set_iter host (snd kv))));
                   Re.Grp 2 (Re.Rep Re.dot 0 None true);
                   Re.Eol ]))
      IRREGULAR_VERB_INFLECTIONS.

(** [ALL_MORA_REC]: one group, the alternation of [ALL_MORA] in list order *)
Definition ALL_MORA_REC : Re.regex := Re.Grp 1 (Re.alt (map Re.Lit ALL_MORA)).

(** The three patterns below are built around a reading, which the source
    puts into the pattern text as it is.  For a reading without operators
    the text spells out the pattern given here, with the reading as a
    literal. *)

(** Greedy run (group 1), the reading (group 2), lazy run (group 3), [$];
    no [^]. *)
Definition pattern_from_right (text : str) : Re.regex :=
  Re.cat [ Re.Grp 1 (Re.Rep Re.dot 0 None true);
           Re.Grp 2 (Re.Lit text);
           Re.Grp 3 (Re.Rep Re.dot 0 None false);
           Re.Eol ].

(** [^], lazy run (group 1), the reading (group 2), greedy run (group 3), [$] *)
Definition pattern_from_left (text : str) : Re.regex :=
  Re.cat [ Re.Bol;
           Re.Grp 1 (Re.Rep Re.dot 0 None false);
           Re.Grp 2 (Re.Lit text);
           Re.Grp 3 (Re.Rep Re.dot 0 None true);
           Re.Eol ].

(** [^], lazy run (group 1), the reading (group 2), lazy run (group 3), [$] *)
Definition pattern_from_middle (text : str) : Re.regex :=
  Re.cat [ Re.Bol;
           Re.Grp 1 (Re.Rep Re.dot 0 None false);
           Re.Grp 2 (Re.Lit text);
           Re.Grp 3 (Re.Rep Re.dot 0 None false);
           Re.Eol ].

(** [re.compile] on a pattern text built around [reading]: the pattern
    [known] when the reading holds no operator; for any other reading
    [re.error] when the library refuses the text, and else the text, which
    the library has accepted. *)
Definition re_compile (pattern_text reading : str) (known : Re.regex) : M pattern :=
  if no_regex_operator reading then ret (Known known)
  else if re_refuses host pattern_text then raise ReError
  else ret (Other pattern_text).

Definition re_match_from_right (text : str) : M pattern :=
  re_compile (u "(.*)(" ++ text ++ u ")(.*?)$") text (pattern_from_right text).

Definition re_match_from_left (text : str) : M pattern :=
  re_compile (u "^(.*?)(" ++ text ++ u ")(.*)$") text (pattern_from_left text).

Definition re_match_from_middle (text : str) : M pattern :=
  re_compile (u "^(.*?)(" ++ text ++ u ")(.*?)$") text (pattern_from_middle text).

(** [re.sub(reg, repl, s)] with one of the two replacers below: [repl] is
    the replacer and [other] what the library returns for it with a pattern
    text of its own. *)
Definition re_sub (reg : pattern) (repl : Re.rematch -> str)
    (other : str -> str -> outcome str) (s : str) : M str :=
  match reg with
  | Known r => ret (Re.sub r repl s)
  | Other pattern_text => (other pattern_text s, [])
  end.

(** [OKURIGANA_MIX_CLEANING_RE] (verbose syntax: blanks and comments of the
    pattern are not part of it) *)
Definition OKURIGANA_MIX_CLEANING_RE : Re.regex :=
  Re.cat [ Re.Grp 1 (Re.Rep kanji_class 1 None true);
           Re.Grp 2 (Re.Rep hiragana_class 1 None true);
           Re.Grp 3 (Re.Rep kanji_class 0 None true);
           Re.Grp 4 (Re.Rep hiragana_class 0 None true);
           Re.Lit [91%N];
           Re.Grp 5 (Re.Rep Re.dot 1 None false);
           Re.Ref 2;
           Re.Grp 6 (Re.Rep Re.dot 0 None false);
           Re.Ref 4;
           Re.Lit [93%N] ].

Definition okurigana_mix_cleaning_replacer (m : Re.rematch) : str :=
  let kanji1 := Re.group m 1 in
  let furigana1 := Re.group m 5 in
  let hiragana1 := Re.group m 2 in
  let kanji2 := Re.group m 3 in
  let furigana2 := Re.group m 6 in
  let hiragana2 := Re.group m 4 in
  let result := kanji1 ++ [91%N] ++ furigana1 ++ [93%N] ++ hiragana1 in
  match furigana2 with
  | [] => result
  | _ :: _ => result ++ kanji2 ++ [91%N] ++ furigana2 ++ [93%N] ++ hiragana2
  end.

Definition onyomi_replacer (m : Re.rematch) : str :=
  Re.group m 1 ++ b_open ++ to_katakana host (Re.group m 2) ++ b_close ++ Re.group m 3.

Definition kunyomi_replacer (m : Re.rematch) : str :=
  Re.group m 1 ++ b_open ++ Re.group m 2 ++ b_close ++ Re.group m 3.

Definition kana_filter (text : str) : str :=
  let bracket_replace (m : Re.rematch) : str :=
    if PyStr.startswith sound_prefix (Re.group m 1)
    then Re.group0 m
    else Re.group m 1 in
  Re.sub KANJI_REC (fun _ => [])
    (Re.sub FURIGANA_REC bracket_replace
       (PyStr.replace (u "&nbsp;") [32%N] text)).

Definition get_target_furigana_section (furigana : str) (edge : option Edge)
    : M (option str) :=
  match edge with
  | Some WHOLE => ret (Some furigana)
  | Some LEFT => ret (Some (PyStr.but_last furigana))
  | Some RIGHT => ret (Some (PyStr.but_first furigana))
  | Some MIDDLE => ret (Some (PyStr.but_ends furigana))
  | None =>
      show_error_message
        (u "Error in kana_highlight[]: process_readings() called with no edge specified") ;;;
      ret None
  end.

Definition replace_onyomi_match (furigana onyomi_that_matched : str)
    (edge : option Edge) : M str :=
  reg <-
    (if is_edge RIGHT edge then re_match_from_right onyomi_that_matched
     else if is_edge LEFT edge then re_match_from_left onyomi_that_matched
     else re_match_from_middle onyomi_that_matched) ;;
  re_sub reg onyomi_replacer (sub_onyomi_replacer host) furigana.

Definition replace_kunyomi_match (furigana kunyomi_that_matched : str)
    (edge : option Edge) : M MainResult.t :=
  reg <-
    (if is_edge RIGHT edge then re_match_from_right kunyomi_that_matched
     else if is_edge LEFT edge then re_match_from_left kunyomi_that_matched
     else re_match_from_middle kunyomi_that_matched) ;;
  text <- re_sub reg kunyomi_replacer (sub_kunyomi_replacer host) furigana ;;
  ret (MainResult.mk text T_kunyomi).

(** [reading[0]] and [reading[-1]] raise on an empty reading. *)
Definition index_first (s : str) : M char :=
  match PyStr.first_char s with Some c => ret c | None => raise IndexError end.
Definition index_last (s : str) : M char :=
  match PyStr.last_char s with Some c => ret c | None => raise IndexError end.

(** The loop over [HIRAGANA_CONVERSION_DICT[reading[0]]]: the first changed
    reading found in the section. *)
Definition changed_kana_match (reading : str) (first : char) (kanas : list str)
    (target_furigana_section : str) : option str :=
  first_some
    (fun kana =>
       let converted := PyStr.replace_n [first] kana 1 reading in
       if PyStr.contains converted target_furigana_section then Some converted
       else None)
    kanas.

(** The loop over [SMALL_TSU_POSSIBLE_HIRAGANA]. *)
Definition small_tsu_match (reading : str) (last : char)
    (target_furigana_section : str) : option str :=
  first_some
    (fun tsu_kana =>
       if PyStr.eqb [last] tsu_kana then
         let converted := PyStr.but_last reading ++ small_tsu in
         if PyStr.contains converted target_furigana_section then Some converted
         else None
       else None)
    SMALL_TSU_POSSIBLE_HIRAGANA.

(** The first two statements of the loop body of [check_onyomi_readings]:
    the parenthesised parts of the entry (lazy, up to the next closing
    parenthesis) are removed, the result is stripped and then converted to
    hiragana. *)
Definition clean_onyomi_reading (entry : str) : str :=
  let onyomi_reading :=
    PyStr.strip
      (Re.sub (Re.cat [Re.Lit [40%N]; Re.Rep Re.dot 0 None false; Re.Lit [41%N]])
              (fun _ => []) entry) in
  to_hiragana host onyomi_reading.

(** The body of the loop of [check_onyomi_readings] for one entry of the
    list: the form of the reading found in the section, if any. *)
Definition onyomi_reading_match (entry target_furigana_section : str)
    : M (option str) :=
  let onyomi_reading := clean_onyomi_reading entry in
  if PyStr.contains onyomi_reading target_furigana_section
  then ret (Some onyomi_reading)
  else
    changed <-
      (if negb (length onyomi_reading =? 1) then
         first <- index_first onyomi_reading ;;
         match PyStr.get HIRAGANA_CONVERSION_DICT [first] with
         | Some kanas =>
             ret (changed_kana_match onyomi_reading first kanas target_furigana_section)
         | None => ret None
         end
       else ret None) ;;
    match changed with
    | Some converted_onyomi => ret (Some converted_onyomi)
    | None =>
        last <- index_last onyomi_reading ;;
        ret (small_tsu_match onyomi_reading last target_furigana_section)
    end.

Fixpoint onyomi_loop (onyomi_readings : list str) (target_furigana_section : str)
    : M (option str) :=
  match onyomi_readings with
  | [] => ret None
  | entry :: readings' =>
      found <- onyomi_reading_match entry target_furigana_section ;;
      match found with
      | Some matched => ret (Some matched)
      | None => onyomi_loop readings' target_furigana_section
      end
  end.

Definition check_onyomi_readings (onyomi furigana target_furigana_section : str)
    (edge : option Edge) (return_on_or_kun_match_only : bool) : M MainResult.t :=
  let onyomi_readings := sort_by_len_reverse (PyStr.split comma onyomi) in
  found <- onyomi_loop onyomi_readings target_furigana_section ;;
  match found with
  | Some matched =>
      if return_on_or_kun_match_only then ret (MainResult.mk [] T_onyomi)
      else
        text <- replace_onyomi_match furigana matched edge ;;
        ret (MainResult.mk text T_onyomi)
  | None => ret (MainResult.mk [] T_none)
  end.

(** The end of the verb branch of [check_okurigana_for_kunyomi_inflection]:
    the table of the irregular verb, when the kanji has one, is matched
    against the target first, then the table of all verb endings. *)
Definition verb_inflections_stage (kanji_to_highlight start
    okurigana_inflection_target okurigana : str) : str * str :=
  match match PyStr.get IRREGULAR_VERB_INFLECTIONS_REC kanji_to_highlight with
        | Some rec => Re.match_ rec okurigana_inflection_target
        | None => None
        end with
  | Some m => (start ++ Re.group m 1, Re.group m 2)
  | None =>
      match Re.match_ VERB_INFLECTIONS_REC okurigana_inflection_target with
      | Some m => (start ++ Re.group m 1, Re.group m 2)
      | None => ([], okurigana)
      end
  end.

(** The end of its adjective branch. *)
Definition adjective_inflections_stage (start okurigana_inflection_target
    okurigana : str) : str * str :=
  match Re.match_ ADJECTIVE_INFLECTIONS_REC okurigana_inflection_target with
  | Some m => (start ++ Re.group m 1, Re.group m 2)
  | None => ([], okurigana)
  end.

Definition check_okurigana_for_kunyomi_inflection (kunyomi_okurigana : str)
    (word_data : WordData.t) (highlight_args : HighlightArgs.t) : str * str :=
  let edge := WordData.edge word_data in
  let okurigana := WordData.okurigana word_data in
  if negb (is_edge RIGHT edge || is_edge WHOLE edge) then ([], okurigana)
  else
    match kunyomi_okurigana, okurigana with
    | [], _ => ([], okurigana)
    | _, [] => ([], okurigana)
    | k0 :: _, o0 :: o_rest =>
        if PyStr.eqb kunyomi_okurigana okurigana then (okurigana, [])
        else if PyStr.mem [o0] NOT_FIRST_KANA then ([], okurigana)
        else
          let kanji_to_highlight := HighlightArgs.kanji_to_highlight highlight_args in
          (* Check what kind of inflections we should be looking for *)
          let inflection_kana_key := [k0] in
          if match PyStr.get VERB_NOUN_OKURIGANA kunyomi_okurigana with
             | Some noun_form => PyStr.eqb okurigana noun_form
             | None => false
             end
          then (okurigana, [])
          else
            let inflection_kana_key :=
              match PyStr.get OTHER_FIRST_KANA inflection_kana_key with
              | Some key => key
              | None => inflection_kana_key
              end in
            match PyStr.get READING_FIRST_KANA_TO_POSSIBLE_INFLECTED_FIRST_KANA
                            inflection_kana_key with
            | Some possible_second_kana =>
                if PyStr.eqb [o0] inflection_kana_key then
                  (* a verb in plain form: just the first kana *)
                  ([o0], o_rest)
                else if (1 <? length okurigana)
                        && match PyStr.get OTHER_FIRST_KANA [o0] with
                           | Some second => PyStr.eqb (firstn 1 o_rest) second
                           | None => false
                           end
                then (firstn 2 okurigana, skipn 2 okurigana)
                else
                  (* check all the verb inflections *)
                  let start_target :=
                    if PyStr.mem [o0] possible_second_kana then ([o0], o_rest)
                    else ([], okurigana) in
                  let start := fst start_target in
                  let okurigana_inflection_target := snd start_target in
                  verb_inflections_stage kanji_to_highlight start
                    okurigana_inflection_target okurigana
            | None =>
                if PyStr.endswith [0x3044%N] kunyomi_okurigana then
                  (* an i-adjective: the okurigana may start with し or き *)
                  let start_target :=
                    if PyStr.mem [o0] [[0x3057%N]; [0x304d%N]] then ([o0], o_rest)
                    else ([], okurigana) in
                  let start := fst start_target in
                  let okurigana_inflection_target := snd start_target in
                  adjective_inflections_stage start okurigana_inflection_target okurigana
                else ([], okurigana)
            end
    end.

(** The body of the loop of [check_kunyomi_readings] for one entry. *)
Definition kunyomi_reading_match (kunyomi_reading target_furigana_section : str)
    : M kunyomi_step :=
  stem <-
    (if existsb (N.eqb period) kunyomi_reading then
       match PyStr.split period kunyomi_reading with
       | [kunyomi_stem; _] => ret (Some kunyomi_stem)
       | _ =>
           log (u "Error in kana_highlight[]: kunyomi contained multiple dots: "
                ++ kunyomi_reading) ;;;
           ret None
       end
     else ret (Some kunyomi_reading)) ;;
  match stem with
  | None => ret KMalformed
  | Some kunyomi_stem =>
      if PyStr.contains kunyomi_stem target_furigana_section
      then ret (KMatch kunyomi_stem)
      else
        first <- index_first kunyomi_stem ;;
        match match PyStr.get HIRAGANA_CONVERSION_DICT [first] with
              | Some kanas =>
                  changed_kana_match kunyomi_stem first kanas target_furigana_section
              | None => None
              end with
        | Some converted_kunyomi => ret (KMatch converted_kunyomi)
        | None =>
            last <- index_last kunyomi_stem ;;
            match small_tsu_match kunyomi_stem last target_furigana_section with
            | Some converted_kunyomi => ret (KMatch converted_kunyomi)
            | None => ret KNone
            end
        end
  end.

Fixpoint kunyomi_loop (kunyomi_readings : list str) (target_furigana_section : str)
    : M kunyomi_step :=
  match kunyomi_readings with
  | [] => ret KNone
  | kunyomi_reading :: readings' =>
      step <- kunyomi_reading_match kunyomi_reading target_furigana_section ;;
      match step with
      | KNone => kunyomi_loop readings' target_furigana_section
      | _ => ret step
      end
  end.

Definition check_kunyomi_readings (kunyomi furigana target_furigana_section : str)
    (edge : option Edge) (return_on_or_kun_match_only : bool) : M MainResult.t :=
  let kunyomi_readings := PyStr.split comma kunyomi in
  step <- kunyomi_loop kunyomi_readings target_furigana_section ;;
  match step with
  | KMalformed => ret (MainResult.mk furigana T_kunyomi)
  | KMatch matched =>
      if return_on_or_kun_match_only then ret (MainResult.mk [] T_kunyomi)
      else replace_kunyomi_match furigana matched edge
  | KNone => ret (MainResult.mk [] T_none)
  end.

(** The body of [for kanji_index in range(kanji_count)]. *)
Definition jukujigun_body (mora_list : list str)
    (mora_per_kanji kanji_count kanji_pos kanji_index : nat) (st : juku_state)
    : M juku_state :=
  let cur_mora_range_max := cur_mora_index st + mora_per_kanji in
  let cur_mora_range_max :=
    if 0 <? remainder st then cur_mora_range_max + 1 else cur_mora_range_max in
  let remainder' := if 0 <? remainder st then remainder st - 1 else remainder st in
  let new_furigana1 :=
    if kanji_index =? kanji_pos then new_furigana st ++ b_open
    else if kanji_index =? kanji_pos + 1 then new_furigana st ++ b_close
    else new_furigana st in
  new_furigana2 <-
    for_each (seq (cur_mora_index st) (cur_mora_range_max - cur_mora_index st))
      (fun mora_index acc =>
         match nth_error mora_list mora_index with
         | Some mora => ret (acc ++ mora)
         | None => raise IndexError
         end)
      new_furigana1 ;;
  let new_furigana3 :=
    if (kanji_index =? kanji_pos) && (kanji_index =? kanji_count - 1)
    then new_furigana2 ++ b_close
    else new_furigana2 in
  ret (JukuState remainder' new_furigana3 cur_mora_range_max).

Definition handle_jukujigun_case (word_data : WordData.t) : M MainResult.t :=
  let furigana := WordData.furigana word_data in
  (* First split the word into mora *)
  let mora_list := Re.findall1 ALL_MORA_REC furigana in
  let mora_count := length mora_list in
  match WordData.kanji_count word_data with
  | None => raise TypeError
  | Some O => raise ZeroDivisionError
  | Some kanji_count =>
      match WordData.kanji_pos word_data with
      | None => raise TypeError
      | Some kanji_pos =>
          let mora_per_kanji := mora_count / kanji_count in
          let remainder := mora_count mod kanji_count in
          st <- for_each (seq 0 kanji_count)
                  (jukujigun_body mora_list mora_per_kanji kanji_count kanji_pos)
                  (JukuState remainder [] 0) ;;
          ret (MainResult.mk (new_furigana st) T_kunyomi)
      end
  end.

(** The [while] loop of [process_readings]: it goes through the kunyomi
    entries until an okurigana to highlight is found, and stops at an
    empty entry as at the end of the list. *)
Fixpoint okurigana_loop (kunyomi_readings : list str) (word_data : WordData.t)
    (highlight_args : HighlightArgs.t) (okurigana_to_highlight rest_kana : str)
    : str * str :=
  match okurigana_to_highlight with
  | _ :: _ => (okurigana_to_highlight, rest_kana)
  | [] =>
      match kunyomi_readings with
      | [] => (okurigana_to_highlight, rest_kana)
      | [] :: _ => (okurigana_to_highlight, rest_kana)
      | next_kunyomi :: readings' =>
          match PyStr.split period next_kunyomi with
          | [_; kunyomi_okurigana] =>
              let r := check_okurigana_for_kunyomi_inflection
                         kunyomi_okurigana word_data highlight_args in
              okurigana_loop readings' word_data highlight_args (fst r) (snd r)
          | _ =>
              okurigana_loop readings' word_data highlight_args
                             okurigana_to_highlight rest_kana
          end
      end
  end.

(** The first component is a [MainResult] or, on the path taken without an
    edge, the whole text of [highlight_args], a plain string. *)
Definition process_readings (highlight_args : HighlightArgs.t)
    (word_data : WordData.t) (return_on_or_kun_match_only : bool)
    : M ((MainResult.t + str) * str * str) :=
  section <- get_target_furigana_section (WordData.furigana word_data)
                                         (WordData.edge word_data) ;;
  match section with
  | None =>
      ret (inr (HighlightArgs.text highlight_args), [], WordData.okurigana word_data)
  | Some target_furigana_section =>
      onyomi_match <-
        check_onyomi_readings (HighlightArgs.onyomi highlight_args)
          (WordData.furigana word_data) target_furigana_section
          (WordData.edge word_data) return_on_or_kun_match_only ;;
      if is_type (MainResult.type onyomi_match) T_onyomi
      then ret (inl onyomi_match, [], WordData.okurigana word_data)
      else
        kunyomi_results <-
          check_kunyomi_readings (HighlightArgs.kunyomi highlight_args)
            (WordData.furigana word_data) target_furigana_section
            (WordData.edge word_data) return_on_or_kun_match_only ;;
        if is_type (MainResult.type kunyomi_results) T_kunyomi
        then
          let okurigana := WordData.okurigana word_data in
          let r := okurigana_loop
                     (PyStr.split comma (HighlightArgs.kunyomi highlight_args))
                     word_data highlight_args [] okurigana in
          ret (inl kunyomi_results, fst r, snd r)
        else
          match WordData.kanji_count word_data, WordData.kanji_pos word_data with
          | Some _, Some _ =>
              result <- handle_jukujigun_case word_data ;;
              ret (inl result, [], WordData.okurigana word_data)
          | _, _ =>
              show_error_message
                (u "Error in kana_highlight[]: process_readings() called with no kanji_count or kanji_pos specified") ;;;
              ret (inl (MainResult.mk (WordData.furigana word_data) T_none), [],
                   WordData.okurigana word_data)
          end
  end.

(** [result["type"]] and [result["text"]] raise [TypeError] on a string. *)
Definition subscript (result : MainResult.t + str) : M MainResult.t :=
  match result with
  | inl r => ret r
  | inr _ => raise TypeError
  end.

Definition handle_whole_kanji_case (highlight_args : HighlightArgs.t)
    (word furigana okurigana : str) : M str :=
  let word_data :=
    WordData.mk (Some 0) (Some 1) word furigana okurigana (Some WHOLE) in
  res <- process_readings highlight_args word_data true ;;
  let '(result, okurigana_to_highlight, rest_kana) := res in
  result <- subscript result ;;
  if is_type (MainResult.type result) T_onyomi
  then
    (* For onyomi matches the furigana should be in katakana *)
    ret (b_open ++ to_katakana host furigana ++ b_close ++ rest_kana)
  else
    (* For kunyomi and jukujigun matches keep in hiragana *)
    ret (b_open ++ furigana ++ okurigana_to_highlight ++ b_close ++ rest_kana).

Definition handle_partial_kanji_case (highlight_args : HighlightArgs.t)
    (word furigana okurigana : str) : M str :=
  let kanji_to_highlight := HighlightArgs.kanji_to_highlight highlight_args in
  match PyStr.find kanji_to_highlight word with
  | None => ret (furigana ++ okurigana)
  | Some kanji_pos =>
      let kanji_in_left_edge := kanji_pos =? 0 in
      (* [len(word) - 1] is an integer subtraction; [word] is not empty here *)
      let kanji_in_right_edge := S kanji_pos =? length word in
      let kanji_in_middle := negb kanji_in_left_edge && negb kanji_in_right_edge in
      let word_data :=
        WordData.mk (Some kanji_pos) (Some (length word)) word furigana okurigana
          (Some (if kanji_in_middle then MIDDLE
                 else if kanji_in_left_edge then LEFT else RIGHT)) in
      res <- process_readings highlight_args word_data false ;;
      let '(main_result, okurigana_to_highlight, rest_kana) := res in
      main_result <- subscript main_result ;;
      let furigana_replacement := MainResult.text main_result in
      match okurigana_to_highlight with
      | _ :: _ =>
          (* Clean any adjacent <b> tags that can be merged *)
          ret (PyStr.replace (b_close ++ b_open) []
                 (furigana_replacement ++ b_open ++ okurigana_to_highlight
                  ++ b_close ++ rest_kana))
      | [] => ret (furigana_replacement ++ rest_kana)
      end
  end.

Definition furigana_replacer (highlight_args : HighlightArgs.t) (m : Re.rematch)
    : M str :=
  let kanji_to_highlight := HighlightArgs.kanji_to_highlight highlight_args in
  let word := Re.group m 1 in
  let furigana := Re.group m 2 in
  let okurigana := Re.group m 3 in
  if PyStr.startswith sound_prefix furigana then ret (furigana ++ okurigana)
  else if PyStr.eqb word kanji_to_highlight
          || PyStr.eqb word (kanji_to_highlight ++ repeater)
  then handle_whole_kanji_case highlight_args word furigana okurigana
  else handle_partial_kanji_case highlight_args word furigana okurigana.

(** [pattern.sub(repl, s)] for a replacement function with effects: the
    matches are replaced from left to right. *)
Fixpoint sub_segments (segs : list Re.segment) (repl : Re.rematch -> M str) : M str :=
  match segs with
  | [] => ret []
  | Re.Text t :: segs' => r <- sub_segments segs' repl ;; ret (t ++ r)
  | Re.Match m :: segs' =>
      x <- repl m ;;
      r <- sub_segments segs' repl ;;
      ret (x ++ r)
  end.

Definition kana_highlight (kanji_to_highlight onyomi kunyomi text : str) : M str :=
  let highlight_args := HighlightArgs.mk text onyomi kunyomi kanji_to_highlight in
  (* Clean any potential mixed okurigana cases, turning them normal *)
  let clean_text := Re.sub OKURIGANA_MIX_CLEANING_RE okurigana_mix_cleaning_replacer text in
  (* Special case 秘蔵[ひぞ]っ子[こ] needs to be converted to 秘蔵[ひぞっ]子[こ] *)
  let clean_text := PyStr.replace (u "秘蔵[ひぞ]っ") (u "秘蔵[ひぞっ]") clean_text in
  sub_segments (Re.finditer KANJI_AND_FURIGANA_AND_OKURIGANA_REC clean_text)
               (furigana_replacer highlight_args).

End Highlight.

(* ================================================================== *)
(** ** A host to run the module on *)

Module kana_conv.

(** Modelled from the spec: the file [kana_conv.py], from which the module
    imports [to_katakana] and [to_hiragana], is not among the sources.  The
    spec has onyomi readings normalised to hiragana before matching and
    matched onyomi rendered in the katakana script; the two scripts are laid
    out in parallel in Unicode, 96 code points apart, and every other
    character is left as it is. *)
Definition to_katakana (s : str) : str :=
  map (fun c => if in_range 0x3041%N 0x3096%N c then (c + 96)%N else c) s.

(** Modelled from the spec: see [to_katakana]. *)
Definition to_hiragana (s : str) : str :=
  map (fun c => if in_range 0x30a1%N 0x30f6%N c then (c - 96)%N else c) s.

End kana_conv.

(** The characters of Unicode category Nd (version 14): runs of ten digits
    starting at the code points listed, and the fifty mathematical digits. *)
Definition unicode_Nd (c : char) : bool :=
  existsb (fun lo => in_range lo (lo + 9)%N c)
    [ 0x30; 0x660; 0x6f0; 0x7c0; 0x966; 0x9e6; 0xa66; 0xae6; 0xb66; 0xbe6; 0xc66;
      0xce6; 0xd66; 0xde6; 0xe50; 0xed0; 0xf20; 0x1040; 0x1090; 0x17e0; 0x1810;
      0x1946; 0x19d0; 0x1a80; 0x1a90; 0x1b50; 0x1bb0; 0x1c40; 0x1c50; 0xa620;
      0xa8d0; 0xa900; 0xa9d0; 0xa9f0; 0xaa50; 0xabf0; 0xff10; 0x104a0; 0x10d30;
      0x11066; 0x110f0; 0x11136; 0x111d0; 0x112f0; 0x11450; 0x114d0; 0x11650;
      0x116c0; 0x11730; 0x118e0; 0x11950; 0x11c50; 0x11d50; 0x11da0; 0x16a60;
      0x16ac0; 0x16b50; 0x1e140; 0x1e2f0; 0x1e950; 0x1fbf0 ]%N
  || in_range 0x1d7ce%N 0x1d7ff%N c.

(** The elements of a set literal in the order written, each once. *)
Fixpoint dedup_from (seen l : list str) : list str :=
  match l with
  | [] => []
  | x :: l' =>
      if PyStr.mem x seen then dedup_from seen l'
      else x :: dedup_from (x :: seen) l'
  end.

Definition as_written (l : list str) : list str := dedup_from [] l.

(** The same elements, longest first. *)
Definition longest_first (l : list str) : list str :=
  sort_by_len_reverse (as_written l).

(** Two hosts that differ only in the order in which they iterate a set.
    What the library does with a reading that holds an operator is left
    open in [Host]; these two are given a library that refuses every such
    pattern text, and nothing that is stated of them below hands them
    one. *)
Definition host_as_written : Host :=
  {| to_hiragana := kana_conv.to_hiragana;
     to_katakana := kana_conv.to_katakana;
     isdecimal := unicode_Nd;
     set_iter := as_written;
     re_refuses := fun _ => true;
     sub_onyomi_replacer := fun _ _ => Raise ReError;
     sub_kunyomi_replacer := fun _ _ => Raise ReError |}.

Definition host_longest_first : Host :=
  {| to_hiragana := kana_conv.to_hiragana;
     to_katakana := kana_conv.to_katakana;
     isdecimal := unicode_Nd;
     set_iter := longest_first;
     re_refuses := fun _ => true;
     sub_onyomi_replacer := fun _ _ => Raise ReError;
     sub_kunyomi_replacer := fun _ _ => Raise ReError |}.

(* ================================================================== *)
(** ** Notions used to state the properties *)

(** The part of the gloss an edge leaves for matching, as the spec words it:
    the whole gloss, or the gloss without its last, its first, or both its
    first and last characters. *)
Definition edge_section (e : Edge) (furigana : str) : str :=
  match e with
  | WHOLE => furigana
  | LEFT => removelast furigana
  | RIGHT => tl furigana
  | MIDDLE => removelast (tl furigana)
  end.

(** The forms of a reading: the reading itself; the reading with its first
    kana changed to one of its voiced or half-voiced alternatives (for a
    one-kana reading only when [single_ok]); the reading with its last kana,
    one of those that can contract, replaced by the small tsu. *)
Inductive reading_form (single_ok : bool) (reading : str) : str -> Prop :=
| form_plain : reading_form single_ok reading reading
| form_changed_kana (c : char) (t : str) (kanas : list str) (kana : str) :
    reading = c :: t ->
    single_ok = true \/ length reading <> 1 ->
    PyStr.get HIRAGANA_CONVERSION_DICT [c] = Some kanas ->
    In kana kanas ->
    reading_form single_ok reading (kana ++ t)
| form_small_tsu (c : char) :
    PyStr.last_char reading = Some c ->
    In [c] SMALL_TSU_POSSIBLE_HIRAGANA ->
    reading_form single_ok reading (removelast reading ++ small_tsu).

(** The stem of a kunyomi entry: the entry itself when it has no period, the
    part before the period when it has exactly one. *)
Definition kunyomi_stem_of (kunyomi_reading stem : str) : Prop :=
  (existsb (N.eqb period) kunyomi_reading = false /\ stem = kunyomi_reading)
  \/ (exists kunyomi_okurigana,
        PyStr.split period kunyomi_reading = [stem; kunyomi_okurigana]).

(** A string free of line feeds, as every gloss and every trailing kana the
    parser hands over is. *)
Definition no_line_feed (s : str) : Prop :=
  Forall (fun c => Re.is_line_feed c = false) s.

(** The first ending of a list, in its order, that a text starts with. *)
Definition first_prefix (alternatives : list str) (target : str) : option str :=
  find (fun ending => PyStr.startswith ending target) alternatives.

(** The order the onyomi entries are sorted into. *)
Definition longer_or_equal (a b : str) : Prop := length b <= length a.

(** The mora of a list from index [x] up to index [y], put together. *)
Definition mora_slice (mora_list : list str) (x y : nat) : str :=
  concat (firstn (y - x) (skipn x mora_list)).

(** Where the share of the kanji at index [i] starts when [mora_count] mora
    are dealt out to [kanji_count] kanji: every kanji gets the quotient, and
    the first kanji one more each as long as the remainder lasts. *)
Definition share_start (mora_count kanji_count i : nat) : nat :=
  i * (mora_count / kanji_count) + min i (mora_count mod kanji_count).

(** The state of the loop of [handle_jukujigun_case] before the iteration
    for the kanji at index [i]. *)
Definition jukujigun_state (mora_list : list str) (kanji_count kanji_pos i : nat)
    : juku_state :=
  let start := share_start (length mora_list) kanji_count in
  JukuState
    (length mora_list mod kanji_count - min i (length mora_list mod kanji_count))
    (if i <=? kanji_pos then mora_slice mora_list 0 (start i)
     else mora_slice mora_list 0 (start kanji_pos) ++ b_open
          ++ mora_slice mora_list (start kanji_pos) (start (S kanji_pos))
          ++ (if (i =? S kanji_pos) && negb (S kanji_pos =? kanji_count) then []
              else b_close ++ mora_slice mora_list (start (S kanji_pos)) (start i)))
    (start i).

(* ------------------------------------------------------------------ *)
(** ** Notions used for the patterns and the units *)

(** The text in which [kana_highlight] looks for the units: its argument
    after the two cleaning steps. *)
Definition clean_text (h : Host) (text : str) : str :=
  PyStr.replace (u "秘蔵[ひぞ]っ") (u "秘蔵[ひぞっ]")
    (Re.sub (OKURIGANA_MIX_CLEANING_RE h) okurigana_mix_cleaning_replacer text).

(** The pattern built around a reading without operators, by edge. *)
Definition edge_pattern (edge : option Edge) (reading : str) : Re.regex :=
  if is_edge RIGHT edge then pattern_from_right reading
  else if is_edge LEFT edge then pattern_from_left reading
  else pattern_from_middle reading.

(** A reading that stands for itself when it is put into a pattern. *)
Definition plain_reading (s : str) : Prop :=
  Forall (fun c => regex_operator c = false) s.

(** What the class of decimal digits is taken to leave out: the hiragana and
    the two square brackets. *)
Definition decimal_is_no_kana (h : Host) : Prop :=
  forall c, isdecimal h c = true ->
            hiragana_class c = false /\ c <> 91%N /\ c <> 93%N.

(** The text of one unit: a word, its gloss in square brackets, and the
    kana that follow. *)
Definition unit_text (word furigana okurigana : str) : str :=
  word ++ [91%N] ++ furigana ++ [93%N] ++ okurigana.

(** A string without the character that opens a marker. *)
Definition no_marker (s : str) : Prop := Forall (fun c => c <> 60%N) s.

(* ================================================================== *)
(** * Properties *)

(* ================================================================== *)
(** ** Facts about strings *)

Module PyStrFacts.
Import PyStr.

Lemma eqb_eq (a b : str) : eqb a b = true <-> a = b.
Proof.
  revert b; induction a as [|c a IH]; intros [|d b]; simpl; split; intro H;
    try reflexivity; try discriminate.
  - apply andb_true_iff in H as [H1 H2]. apply N.eqb_eq in H1.
    apply IH in H2. now subst.
  - injection H as -> ->. rewrite N.eqb_refl. simpl. now apply IH.
Qed.

Lemma eqb_refl (a : str) : eqb a a = true.
Proof. now apply eqb_eq. Qed.

Lemma startswith_app (p s : str) : startswith p (p ++ s) = true.
Proof.
  induction p as [|c p IH]; simpl; [reflexivity|].
  now rewrite N.eqb_refl.
Qed.

Lemma startswith_prefix (p s : str) :
  startswith p s = true <-> exists t, s = p ++ t.
Proof.
  revert s; induction p as [|c p IH]; intros s; simpl.
  - split; [intros _; now exists s | reflexivity].
  - destruct s as [|d s]; [split; [discriminate | intros [t Ht]; discriminate]|].
    rewrite andb_true_iff, N.eqb_eq, IH. split.
    + intros [-> [t ->]]. now exists t.
    + intros [t Ht]. injection Ht as -> ->. split; [reflexivity | now exists t].
Qed.

Lemma find_from_startswith (sub s : str) (i : nat) :
  startswith sub s = true -> find_from sub s i = Some i.
Proof. intros H. destruct s; simpl in *; now rewrite H. Qed.

Lemma find_app (k t : str) : find k (k ++ t) = Some 0.
Proof. apply find_from_startswith, startswith_app. Qed.

Lemma replace_go_done (old new s : str) : replace_go old new s 0 (Some 0) = s.
Proof. induction s as [|c s IH]; simpl; [reflexivity | now rewrite IH]. Qed.

(** [reading.replace(reading[0], kana, 1)] changes the first character and
    nothing else. *)
Lemma replace_first_char (c : char) (t kana : str) :
  replace_n [c] kana 1 (c :: t) = kana ++ t.
Proof.
  unfold replace_n. simpl. rewrite N.eqb_refl. simpl.
  now rewrite replace_go_done.
Qed.

End PyStrFacts.

(* ================================================================== *)
(** ** Facts about the monad *)

Lemma bind_ret_l {A B : Type} (a : A) (k : A -> M B) : bind (ret a) k = k a.
Proof. unfold bind, ret. now destruct (k a). Qed.

Lemma bind_Ok_inv {A B : Type} (c : M A) (k : A -> M B) (b : B) (out : list str) :
  bind c k = (Ok b, out) ->
  exists a o1 o2, c = (Ok a, o1) /\ k a = (Ok b, o2) /\ out = o1 ++ o2.
Proof.
  unfold bind. destruct c as [[a|e] o1]; [|discriminate].
  destruct (k a) as [r o2] eqn:E. intros H. injection H as -> <-.
  now exists a, o1, o2.
Qed.

Lemma log_silent (msg : str) : log msg = ret tt.
Proof. reflexivity. Qed.

Lemma first_some_In {A B : Type} (f : A -> option B) (l : list A) (b : B) :
  first_some f l = Some b -> exists a, In a l /\ f a = Some b.
Proof.
  induction l as [|a l IH]; simpl; [discriminate|].
  destruct (f a) as [b'|] eqn:E.
  - intros H. injection H as ->. exists a. auto.
  - intros H. destruct (IH H) as [a' [Hin Hf]]. exists a'. auto.
Qed.

(* ================================================================== *)
(** ** The reading resolver *)

Lemma contains_nil (s : str) : PyStr.contains [] s = true.
Proof. unfold PyStr.contains, PyStr.find. now destruct s. Qed.

Lemma last_char_cons (c : char) (t : str) : exists d, PyStr.last_char (c :: t) = Some d.
Proof.
  unfold PyStr.last_char. destruct (rev (c :: t)) as [|d r] eqn:E.
  - apply (f_equal (@length char)) in E. rewrite length_rev in E. discriminate.
  - now exists d.
Qed.

Lemma index_first_cons (c : char) (t : str) : index_first (c :: t) = ret c.
Proof. reflexivity. Qed.

Lemma index_last_some (s : str) (d : char) :
  PyStr.last_char s = Some d -> index_last s = ret d.
Proof. unfold index_last. now intros ->. Qed.

Lemma changed_kana_match_spec (reading : str) (first : char) (kanas : list str)
    (target m : str) :
  changed_kana_match reading first kanas target = Some m ->
  exists kana, In kana kanas /\ m = PyStr.replace_n [first] kana 1 reading
               /\ PyStr.contains m target = true.
Proof.
  unfold changed_kana_match. intros H.
  apply first_some_In in H as [kana [Hin Hf]].
  destruct (PyStr.contains _ target) eqn:E; [|discriminate].
  injection Hf as <-. now exists kana.
Qed.

Lemma small_tsu_match_spec (reading : str) (last : char) (target m : str) :
  small_tsu_match reading last target = Some m ->
  In [last] SMALL_TSU_POSSIBLE_HIRAGANA
  /\ m = removelast reading ++ small_tsu
  /\ PyStr.contains m target = true.
Proof.
  unfold small_tsu_match. intros H.
  apply first_some_In in H as [tsu [Hin Hf]].
  destruct (PyStr.eqb [last] tsu) eqn:E; [|discriminate].
  apply PyStrFacts.eqb_eq in E. subst tsu.
  destruct (PyStr.contains _ target) eqn:E2; [|discriminate].
  injection Hf as <-. auto.
Qed.

Section Resolver.

Variable host : Host.

(** The entry loop body never raises: an empty reading is found in any
    section before it is indexed. *)
Lemma onyomi_reading_match_total (entry target : str) :
  exists found, onyomi_reading_match host entry target = ret found.
Proof.
  unfold onyomi_reading_match.
  destruct (PyStr.contains (clean_onyomi_reading host entry) target) eqn:E.
  - eexists; reflexivity.
  - destruct (clean_onyomi_reading host entry) as [|c t] eqn:R.
    + now rewrite contains_nil in E.
    + destruct (last_char_cons c t) as [d Hd].
      rewrite index_first_cons, (@index_last_some _ _ Hd).
      destruct (negb (length (c :: t) =? 1)).
      * rewrite bind_ret_l.
        destruct (PyStr.get HIRAGANA_CONVERSION_DICT [c]) as [kanas|].
        -- rewrite bind_ret_l.
           destruct (changed_kana_match (c :: t) c kanas target).
           ++ eexists; reflexivity.
           ++ rewrite bind_ret_l. eexists; reflexivity.
        -- rewrite !bind_ret_l. eexists; reflexivity.
      * rewrite !bind_ret_l. eexists; reflexivity.
Qed.

Lemma onyomi_reading_match_spec (entry target m : str) (out : list str) :
  onyomi_reading_match host entry target = (Ok (Some m), out) ->
  PyStr.contains m target = true
  /\ reading_form false (clean_onyomi_reading host entry) m.
Proof.
  unfold onyomi_reading_match.
  destruct (PyStr.contains (clean_onyomi_reading host entry) target) eqn:E.
  - intros H. injection H as <- _. split; [assumption | constructor].
  - destruct (clean_onyomi_reading host entry) as [|c t] eqn:R.
    + now rewrite contains_nil in E.
    + destruct (last_char_cons c t) as [d Hd].
      rewrite index_first_cons, (@index_last_some _ _ Hd).
      assert (Tsu : forall o, ret (small_tsu_match (c :: t) d target) = (Ok (Some m), o) ->
                PyStr.contains m target = true /\ reading_form false (c :: t) m).
      { intros o H. injection H as H _. apply small_tsu_match_spec in H as [H1 [H2 H3]].
        split; [assumption|]. subst m. now apply form_small_tsu with (c := d). }
      destruct (negb (length (c :: t) =? 1)) eqn:L.
      * rewrite bind_ret_l.
        destruct (PyStr.get HIRAGANA_CONVERSION_DICT [c]) as [kanas|] eqn:G.
        -- rewrite bind_ret_l.
           destruct (changed_kana_match (c :: t) c kanas target) as [m'|] eqn:C.
           ++ intros H. injection H as <- _.
              apply changed_kana_match_spec in C as [kana [Hin [Hm Hc]]].
              split; [assumption|]. rewrite Hm, PyStrFacts.replace_first_char.
              apply form_changed_kana with (c := c) (kanas := kanas); auto.
              right. apply negb_true_iff, Nat.eqb_neq in L. exact L.
           ++ rewrite bind_ret_l. apply Tsu.
        -- rewrite !bind_ret_l. apply Tsu.
      * rewrite !bind_ret_l. apply Tsu.
Qed.

Lemma onyomi_loop_total (readings : list str) (target : str) :
  exists found, onyomi_loop host readings target = ret found.
Proof.
  induction readings as [|entry readings IH]; simpl.
  - eexists; reflexivity.
  - destruct (onyomi_reading_match_total entry target) as [[m|] ->]; rewrite bind_ret_l.
    + eexists; reflexivity.
    + exact IH.
Qed.

(** What the onyomi loop finds is a form of one of the entries, and it
    occurs in the section. *)
Lemma onyomi_loop_spec (readings : list str) (target m : str) (out : list str) :
  onyomi_loop host readings target = (Ok (Some m), out) ->
  PyStr.contains m target = true
  /\ exists entry, In entry readings
                   /\ reading_form false (clean_onyomi_reading host entry) m.
Proof.
  revert out. induction readings as [|entry readings IH]; simpl; intros out.
  - discriminate.
  - destruct (onyomi_reading_match_total entry target) as [[m'|] E]; rewrite E, bind_ret_l.
    + intros H. injection H as <- _.
      apply onyomi_reading_match_spec in E as [H1 H2]. split; [assumption|].
      exists entry. auto.
    + intros H. apply IH in H as [H1 [e [H2 H3]]]. split; [assumption|].
      exists e. auto.
Qed.

End Resolver.

(** The stem of a well-formed kunyomi entry is never indexed while empty. *)
Lemma kunyomi_reading_match_total (reading target : str) :
  exists step, kunyomi_reading_match reading target = ret step.
Proof.
  unfold kunyomi_reading_match.
  assert (Stem : forall stem,
            exists step,
              (if PyStr.contains stem target then ret (KMatch stem)
               else first <- index_first stem ;;
                    match match PyStr.get HIRAGANA_CONVERSION_DICT [first] with
                          | Some kanas => changed_kana_match stem first kanas target
                          | None => None
                          end with
                    | Some converted_kunyomi => ret (KMatch converted_kunyomi)
                    | None =>
                        last <- index_last stem ;;
                        match small_tsu_match stem last target with
                        | Some converted_kunyomi => ret (KMatch converted_kunyomi)
                        | None => ret KNone
                        end
                    end) = ret step).
  { intros stem. destruct (PyStr.contains stem target) eqn:E; [eexists; reflexivity|].
    destruct stem as [|c t]; [now rewrite contains_nil in E|].
    destruct (last_char_cons c t) as [d Hd].
    rewrite index_first_cons, (@index_last_some _ _ Hd).
    rewrite bind_ret_l.
    destruct (match PyStr.get HIRAGANA_CONVERSION_DICT [c] with
              | Some kanas => changed_kana_match (c :: t) c kanas target
              | None => None end); [eexists; reflexivity|].
    rewrite bind_ret_l.
    destruct (small_tsu_match (c :: t) d target); eexists; reflexivity. }
  destruct (existsb (N.eqb period) reading).
  - destruct (PyStr.split period reading) as [|a [|b [|c l]]];
      rewrite ?log_silent, ?bind_ret_l; try (eexists; reflexivity).
    apply Stem.
  - rewrite bind_ret_l. apply Stem.
Qed.

Lemma kunyomi_reading_match_spec (reading target m : str) (out : list str) :
  kunyomi_reading_match reading target = (Ok (KMatch m), out) ->
  PyStr.contains m target = true
  /\ exists stem, kunyomi_stem_of reading stem /\ reading_form true stem m.
Proof.
  unfold kunyomi_reading_match.
  assert (Stem : forall stem o,
            (if PyStr.contains stem target then ret (KMatch stem)
             else first <- index_first stem ;;
                  match match PyStr.get HIRAGANA_CONVERSION_DICT [first] with
                        | Some kanas => changed_kana_match stem first kanas target
                        | None => None
                        end with
                  | Some converted_kunyomi => ret (KMatch converted_kunyomi)
                  | None =>
                      last <- index_last stem ;;
                      match small_tsu_match stem last target with
                      | Some converted_kunyomi => ret (KMatch converted_kunyomi)
                      | None => ret KNone
                      end
                  end) = (Ok (KMatch m), o) ->
            PyStr.contains m target = true /\ reading_form true stem m).
  { intros stem o. destruct (PyStr.contains stem target) eqn:E.
    - intros H. injection H as <- _. split; [assumption | constructor].
    - destruct stem as [|c t]; [now rewrite contains_nil in E|].
      destruct (last_char_cons c t) as [d Hd].
      rewrite index_first_cons, (@index_last_some _ _ Hd).
      rewrite bind_ret_l.
      destruct (PyStr.get HIRAGANA_CONVERSION_DICT [c]) as [kanas|] eqn:G.
      + destruct (changed_kana_match (c :: t) c kanas target) as [m'|] eqn:C.
        * intros H. injection H as <- _.
          apply changed_kana_match_spec in C as [kana [Hin [Hm Hc]]].
          split; [assumption|]. rewrite Hm, PyStrFacts.replace_first_char.
          apply form_changed_kana with (c := c) (kanas := kanas); auto.
        * rewrite bind_ret_l.
          destruct (small_tsu_match (c :: t) d target) as [m'|] eqn:T; [|discriminate].
          intros H. injection H as <- _.
          apply small_tsu_match_spec in T as [H1 [H2 H3]].
          split; [assumption|]. subst m'. now apply form_small_tsu with (c := d).
      + rewrite bind_ret_l.
        destruct (small_tsu_match (c :: t) d target) as [m'|] eqn:T; [|discriminate].
        intros H. injection H as <- _.
        apply small_tsu_match_spec in T as [H1 [H2 H3]].
        split; [assumption|]. subst m'. now apply form_small_tsu with (c := d). }
  destruct (existsb (N.eqb period) reading) eqn:P.
  - destruct (PyStr.split period reading) as [|a [|b [|c l]]] eqn:S;
      rewrite ?log_silent, ?bind_ret_l; try discriminate.
    intros H. apply Stem in H as [H1 H2]. split; [assumption|].
    exists a. split; [|assumption]. right. now exists b.
  - rewrite bind_ret_l. intros H. apply Stem in H as [H1 H2]. split; [assumption|].
    exists reading. split; [|assumption]. now left.
Qed.

Lemma kunyomi_loop_total (readings : list str) (target : str) :
  exists step, kunyomi_loop readings target = ret step.
Proof.
  induction readings as [|reading readings IH]; simpl.
  - eexists; reflexivity.
  - destruct (kunyomi_reading_match_total reading target) as [[|m|] ->]; rewrite bind_ret_l;
      try (eexists; reflexivity).
    exact IH.
Qed.

Lemma kunyomi_loop_spec (readings : list str) (target m : str) (out : list str) :
  kunyomi_loop readings target = (Ok (KMatch m), out) ->
  PyStr.contains m target = true
  /\ exists reading stem, In reading readings /\ kunyomi_stem_of reading stem
                          /\ reading_form true stem m.
Proof.
  revert out. induction readings as [|reading readings IH]; simpl; intros out.
  - discriminate.
  - destruct (kunyomi_reading_match_total reading target) as [[|m'|] E]; rewrite E, bind_ret_l.
    + discriminate.
    + intros H. injection H as <- _.
      apply kunyomi_reading_match_spec in E as [H1 [stem [H2 H3]]]. split; [assumption|].
      exists reading, stem. auto.
    + intros H. apply IH in H as [H1 [r [stem [H2 [H3 H4]]]]]. split; [assumption|].
      exists r, stem. auto.
Qed.

(** ** Sorting the onyomi entries *)

Lemma insert_by_len_perm (x : str) (l : list str) : Permutation (x :: l) (insert_by_len x l).
Proof.
  induction l as [|y l IH]; simpl; [reflexivity|].
  destruct (length x <? length y); [|reflexivity].
  rewrite perm_swap. now apply perm_skip.
Qed.

Lemma sort_by_len_reverse_perm (l : list str) : Permutation l (sort_by_len_reverse l).
Proof.
  induction l as [|x l IH]; simpl; [reflexivity|].
  rewrite <- insert_by_len_perm. now apply perm_skip.
Qed.

Lemma sort_by_len_reverse_In (x : str) (l : list str) :
  In x (sort_by_len_reverse l) <-> In x l.
Proof.
  split; apply Permutation_in;
    [symmetry|]; apply sort_by_len_reverse_perm.
Qed.

Section Resolver2.

Variable host : Host.

Lemma no_regex_operator_plain (s : str) :
  no_regex_operator s = true <-> plain_reading s.
Proof.
  unfold no_regex_operator, plain_reading. rewrite forallb_forall, Forall_forall.
  split; intros H c Hc; specialize (H c Hc); now destruct (regex_operator c).
Qed.

(** The three patterns are compiled without an error, and without a
    message, whatever the reading; around a reading without operators they
    are the patterns written out. *)
Lemma re_compile_silent (pattern_text reading : str) (known : Re.regex) :
  exists o, re_compile host pattern_text reading known = (o, []).
Proof.
  unfold re_compile. destruct (no_regex_operator reading); [now eexists|].
  destruct (re_refuses host pattern_text); now eexists.
Qed.

Lemma edge_pattern_compiled (edge : option Edge) (k : str) :
  plain_reading k ->
  (if is_edge RIGHT edge then re_match_from_right host k
   else if is_edge LEFT edge then re_match_from_left host k
   else re_match_from_middle host k)
  = ret (Known (edge_pattern edge k)).
Proof.
  intros P. apply no_regex_operator_plain in P.
  unfold edge_pattern, re_match_from_right, re_match_from_left, re_match_from_middle,
    re_compile.
  rewrite P. now destruct (is_edge RIGHT edge), (is_edge LEFT edge).
Qed.

Lemma replace_onyomi_match_plain (furigana k : str) (edge : option Edge) :
  plain_reading k ->
  replace_onyomi_match host furigana k edge
  = ret (Re.sub (edge_pattern edge k) (onyomi_replacer host) furigana).
Proof.
  intros P. unfold replace_onyomi_match.
  now rewrite (edge_pattern_compiled edge P), bind_ret_l.
Qed.

Lemma replace_kunyomi_match_plain (furigana k : str) (edge : option Edge) :
  plain_reading k ->
  replace_kunyomi_match host furigana k edge
  = ret (MainResult.mk (Re.sub (edge_pattern edge k) kunyomi_replacer furigana)
           T_kunyomi).
Proof.
  intros P. unfold replace_kunyomi_match.
  now rewrite (edge_pattern_compiled edge P), bind_ret_l.
Qed.

(** Neither of the two gives anything to [show_error_message], and what
    [replace_kunyomi_match] returns is a kunyomi result. *)
Lemma replace_onyomi_match_silent (furigana k : str) (edge : option Edge) :
  exists o, replace_onyomi_match host furigana k edge = (o, []).
Proof.
  unfold replace_onyomi_match.
  assert (C : exists o,
             (if is_edge RIGHT edge then re_match_from_right host k
              else if is_edge LEFT edge then re_match_from_left host k
              else re_match_from_middle host k) = (o, [])).
  { destruct (is_edge RIGHT edge); [|destruct (is_edge LEFT edge)];
      apply re_compile_silent. }
  destruct C as [[[r|p]|e] ->]; cbn [bind re_sub ret].
  - now eexists.
  - destruct (sub_onyomi_replacer host p furigana); now eexists.
  - now eexists.
Qed.

Lemma replace_kunyomi_match_silent (furigana k : str) (edge : option Edge) :
  (exists text,
      replace_kunyomi_match host furigana k edge = ret (MainResult.mk text T_kunyomi))
  \/ (exists e, replace_kunyomi_match host furigana k edge = raise e).
Proof.
  unfold replace_kunyomi_match.
  assert (C : exists o,
             (if is_edge RIGHT edge then re_match_from_right host k
              else if is_edge LEFT edge then re_match_from_left host k
              else re_match_from_middle host k) = (o, [])).
  { destruct (is_edge RIGHT edge); [|destruct (is_edge LEFT edge)];
      apply re_compile_silent. }
  destruct C as [[[r|p]|e] ->]; cbn [bind re_sub ret app].
  - left. now eexists.
  - destruct (sub_kunyomi_replacer host p furigana); [left|right]; now eexists.
  - right. now eexists.
Qed.

Lemma check_onyomi_readings_spec (onyomi furigana target : str) (edge : option Edge)
    (flag : bool) :
  (exists m entry,
      onyomi_loop host (sort_by_len_reverse (PyStr.split comma onyomi)) target
      = ret (Some m)
      /\ PyStr.contains m target = true
      /\ In entry (PyStr.split comma onyomi)
      /\ reading_form false (clean_onyomi_reading host entry) m
      /\ check_onyomi_readings host onyomi furigana target edge flag
         = if flag then ret (MainResult.mk [] T_onyomi)
           else (text <- replace_onyomi_match host furigana m edge ;;
                 ret (MainResult.mk text T_onyomi)))
  \/ (check_onyomi_readings host onyomi furigana target edge flag
      = ret (MainResult.mk [] T_none)
      /\ onyomi_loop host (sort_by_len_reverse (PyStr.split comma onyomi)) target
         = ret None).
Proof.
  unfold check_onyomi_readings.
  destruct (onyomi_loop_total host (sort_by_len_reverse (PyStr.split comma onyomi)) target)
    as [[m|] E]; rewrite E, bind_ret_l.
  - left. pose proof E as E'.
    apply onyomi_loop_spec in E' as [H1 [entry [H2 H3]]].
    apply (proj1 (sort_by_len_reverse_In _ _)) in H2.
    exists m, entry. now destruct flag.
  - right. now split.
Qed.

Lemma get_target_furigana_section_edge (furigana : str) (e : Edge) :
  get_target_furigana_section furigana (Some e) = ret (Some (edge_section e furigana)).
Proof. now destruct e. Qed.

(** The ways [process_readings] ends when the unit has an edge: an onyomi
    match, a kunyomi match, a kunyomi entry with several periods, or no
    match at all.  Whatever was matched lies in the section of the edge. *)
Lemma process_readings_cases (highlight_args : HighlightArgs.t) (word_data : WordData.t)
    (flag : bool) (e : Edge) (res : (MainResult.t + str) * str * str) (out : list str) :
  WordData.edge word_data = Some e ->
  process_readings host highlight_args word_data flag = (Ok res, out) ->
  let furigana := WordData.furigana word_data in
  let okurigana := WordData.okurigana word_data in
  let section := edge_section e furigana in
  let onyomi_readings :=
    sort_by_len_reverse (PyStr.split comma (HighlightArgs.onyomi highlight_args)) in
  let kunyomi_readings := PyStr.split comma (HighlightArgs.kunyomi highlight_args) in
  let ol := okurigana_loop host kunyomi_readings word_data highlight_args [] okurigana in
  (exists m text,
      onyomi_loop host onyomi_readings section = ret (Some m)
      /\ PyStr.contains m section = true
      /\ (if flag then text = []
          else replace_onyomi_match host furigana m (Some e) = ret text)
      /\ res = (inl (MainResult.mk text T_onyomi), [], okurigana)
      /\ out = [])
  \/ (exists m r,
        onyomi_loop host onyomi_readings section = ret None
        /\ kunyomi_loop kunyomi_readings section = ret (KMatch m)
        /\ PyStr.contains m section = true
        /\ (if flag then r = MainResult.mk [] T_kunyomi
            else replace_kunyomi_match host furigana m (Some e) = ret r)
        /\ MainResult.type r = T_kunyomi
        /\ res = (inl r, fst ol, snd ol)
        /\ out = [])
  \/ (onyomi_loop host onyomi_readings section = ret None
      /\ kunyomi_loop kunyomi_readings section = ret KMalformed
      /\ res = (inl (MainResult.mk furigana T_kunyomi), fst ol, snd ol)
      /\ out = [])
  \/ (onyomi_loop host onyomi_readings section = ret None
      /\ kunyomi_loop kunyomi_readings section = ret KNone
      /\ exists r, res = (inl r, [], okurigana) /\ MainResult.type r <> T_onyomi).
Proof.
  intros He H. cbv zeta. unfold process_readings in H.
  rewrite He, get_target_furigana_section_edge, bind_ret_l in H.
  unfold check_onyomi_readings in H.
  destruct (onyomi_loop_total host
              (sort_by_len_reverse (PyStr.split comma (HighlightArgs.onyomi highlight_args)))
              (edge_section e (WordData.furigana word_data))) as [[m|] E];
    rewrite E, bind_ret_l in H; rewrite E.
  - left. exists m.
    apply onyomi_loop_spec in E as [C _].
    destruct flag; cbv beta iota in H.
    + rewrite bind_ret_l in H. cbn [is_type MainResult.type] in H.
      injection H as <- <-. exists []. auto.
    + destruct (replace_onyomi_match_silent (WordData.furigana word_data) m (Some e))
        as [[text|ex] R]; rewrite R in H; [|discriminate].
      change (Ok text, @nil str) with (ret text) in H.
      rewrite !bind_ret_l in H. cbn [is_type MainResult.type] in H.
      injection H as <- <-. exists text. auto.
  - cbv beta iota in H. rewrite bind_ret_l in H. cbn [is_type MainResult.type] in H.
    right.
    destruct (kunyomi_loop_total
                (PyStr.split comma (HighlightArgs.kunyomi highlight_args))
                (edge_section e (WordData.furigana word_data))) as [step K].
    unfold check_kunyomi_readings in H. rewrite K, bind_ret_l in H. rewrite K.
    destruct step as [|km|].
    + cbv beta iota in H. rewrite bind_ret_l in H. cbn [is_type MainResult.type] in H.
      injection H as <- <-. right. left. auto.
    + apply kunyomi_loop_spec in K as [C _].
      left. exists km.
      destruct flag; cbv beta iota in H.
      * rewrite bind_ret_l in H. cbn [is_type MainResult.type] in H.
        injection H as <- <-. eexists. repeat split; auto.
      * destruct (replace_kunyomi_match_silent (WordData.furigana word_data) km (Some e))
          as [[text R]|[ex R]]; rewrite R in H; [|discriminate].
        rewrite bind_ret_l in H. cbn [is_type MainResult.type] in H.
        injection H as <- <-. eexists. repeat split; auto.
    + cbv beta iota in H. rewrite bind_ret_l in H. cbn [is_type MainResult.type] in H.
      right. right.
      split; [reflexivity|]. split; [reflexivity|].
      destruct (WordData.kanji_count word_data) as [kc|] eqn:KC;
        [destruct (WordData.kanji_pos word_data) as [kp|] eqn:KP|].
      * apply bind_Ok_inv in H as [r [o1 [o2 [J [H _]]]]].
        injection H as <-. exists r. split; [reflexivity|].
        unfold handle_jukujigun_case in J. rewrite KC, KP in J.
        destruct kc as [|kc']; try discriminate.
        apply bind_Ok_inv in J as [st [o3 [o4 [_ [J _]]]]].
        injection J as <-. discriminate.
      * injection H as <- _. eexists. split; [reflexivity|]. discriminate.
      * injection H as <- _. eexists. split; [reflexivity|]. discriminate.
Qed.

End Resolver2.

(* ================================================================== *)
(** ** The section of the gloss open to matching *)

Lemma get_In {V : Type} (d : list (str * V)) (k : str) (v : V) :
  PyStr.get d k = Some v -> In (k, v) d.
Proof.
  induction d as [|[k' v'] d IH]; simpl; [discriminate|].
  destruct (PyStr.eqb k k') eqn:E.
  - intros H. injection H as ->. apply PyStrFacts.eqb_eq in E. subst. now left.
  - intros H. right. now apply IH.
Qed.

(** C1.  For a unit with edge [e] the section handed to the reading resolver
    is the gloss without its last character (left), without its first
    (right), without both (middle), or the whole gloss (whole), and every
    result of [process_readings] comes from matching against that section:
    it is an onyomi or a kunyomi match whose matched string occurs in the
    section, or no reading was matched.  So at the left edge a reading that
    does not occur in the gloss without its last character, such as one that
    occurs only within the last character, is never the matched string of
    either pass. *)
Theorem edge_section_determines_matching
    (host : Host) (highlight_args : HighlightArgs.t) (word_data : WordData.t)
    (flag : bool) (e : Edge) (r : MainResult.t) (hl rest_kana : str) (out : list str) :
  WordData.edge word_data = Some e ->
  process_readings host highlight_args word_data flag = (Ok (inl r, hl, rest_kana), out) ->
  let furigana := WordData.furigana word_data in
  let onyomi_readings :=
    sort_by_len_reverse (PyStr.split comma (HighlightArgs.onyomi highlight_args)) in
  let kunyomi_readings := PyStr.split comma (HighlightArgs.kunyomi highlight_args) in
  get_target_furigana_section furigana (WordData.edge word_data)
  = ret (Some (match e with
               | WHOLE => furigana
               | LEFT => removelast furigana
               | RIGHT => tl furigana
               | MIDDLE => removelast (tl furigana)
               end))
  /\ ((exists m,
          onyomi_loop host onyomi_readings (edge_section e furigana) = ret (Some m)
          /\ PyStr.contains m (edge_section e furigana) = true
          /\ exists text,
               (if flag then text = []
                else replace_onyomi_match host furigana m (Some e) = ret text)
               /\ r = MainResult.mk text T_onyomi)
      \/ (exists m,
            kunyomi_loop kunyomi_readings (edge_section e furigana) = ret (KMatch m)
            /\ PyStr.contains m (edge_section e furigana) = true
            /\ if flag then r = MainResult.mk [] T_kunyomi
               else replace_kunyomi_match host furigana m (Some e) = ret r)
      \/ (onyomi_loop host onyomi_readings (edge_section e furigana) = ret None
          /\ (kunyomi_loop kunyomi_readings (edge_section e furigana) = ret KMalformed
              \/ kunyomi_loop kunyomi_readings (edge_section e furigana) = ret KNone)))
  /\ (e = LEFT ->
      forall reading,
        PyStr.contains reading (removelast furigana) = false ->
        onyomi_loop host onyomi_readings (removelast furigana) <> ret (Some reading)
        /\ kunyomi_loop kunyomi_readings (removelast furigana) <> ret (KMatch reading)).
Proof.
  intros He H. cbv zeta. split; [|split].
  - rewrite He. now destruct e.
  - destruct (@process_readings_cases _ _ _ _ _ _ _ He H)
      as [[m [text [E [C [T [R _]]]]]]|[[m [r' [E [K [C [T [_ [R _]]]]]]]]
          |[[E [K _]]|[E [K _]]]]].
    + left. exists m. injection R as -> _ _. eauto.
    + right. left. exists m. injection R as -> _ _. auto.
    + right. right. auto.
    + right. right. auto.
  - intros _ reading Hno. split; intros E.
    + apply onyomi_loop_spec in E as [C _]. congruence.
    + apply kunyomi_loop_spec in E as [C _]. congruence.
Qed.

(** The unit 視聴者[しちょうしゃ] with 視 at the left edge: しゃ occurs in the
    gloss only within its last character and is not matched. *)
Lemma edge_section_determines_matching_witness :
  let highlight_args :=
    HighlightArgs.mk (u "視聴者[しちょうしゃ]") (u "シ(漢)、ジ(呉)") (u "み.る") (u "視") in
  let word_data :=
    WordData.mk (Some 0) (Some 3) (u "視聴者") (u "しちょうしゃ") [] (Some LEFT) in
  process_readings host_as_written highlight_args word_data false
  = (Ok (inl (MainResult.mk (u "<b>シ</b>ちょうしゃ") T_onyomi), [], []), [])
  /\ PyStr.contains (u "しゃ") (u "しちょうしゃ") = true
  /\ onyomi_loop host_as_written
       (sort_by_len_reverse (PyStr.split comma (u "シ(漢)、ジ(呉)")))
       (removelast (u "しちょうしゃ"))
     <> ret (Some (u "しゃ")).
Proof.
  cbv zeta. split; [vm_compute; reflexivity|]. split; [vm_compute; reflexivity|].
  refine (proj1 (proj2 (proj2
    (@edge_section_determines_matching host_as_written
       (HighlightArgs.mk (u "視聴者[しちょうしゃ]") (u "シ(漢)、ジ(呉)") (u "み.る") (u "視"))
       (WordData.mk (Some 0) (Some 3) (u "視聴者") (u "しちょうしゃ") [] (Some LEFT))
       false LEFT (MainResult.mk (u "<b>シ</b>ちょうしゃ") T_onyomi) [] [] []
       eq_refl _)) eq_refl (u "しゃ") _)).
  - vm_compute; reflexivity.
  - vm_compute; reflexivity.
Defined.

(* ================================================================== *)
(** ** Where a reading may be changed *)

(** C5, as the code has it.  In the onyomi pass the string looked for is the
    cleaned reading, or the reading with its first kana replaced by one kana
    of the sound-change table and only if the reading is not one kana long,
    or the reading with its last kana, one that can contract, replaced by
    the small tsu.  The kunyomi pass looks for the same forms of the stem,
    but changes the first kana of a one-kana stem too.  No other position of
    a reading is changed. *)
Theorem sound_changes_at_first_and_last_kana (host : Host) :
  (forall entry target m out,
      onyomi_reading_match host entry target = (Ok (Some m), out) ->
      reading_form false (clean_onyomi_reading host entry) m)
  /\ (forall kunyomi_reading target m out,
        kunyomi_reading_match kunyomi_reading target = (Ok (KMatch m), out) ->
        exists stem, kunyomi_stem_of kunyomi_reading stem /\ reading_form true stem m)
  /\ (forall c kanas kana,
        PyStr.get HIRAGANA_CONVERSION_DICT [c] = Some kanas -> In kana kanas ->
        length kana = 1).
Proof.
  split; [|split].
  - intros entry target m out H. now apply onyomi_reading_match_spec in H.
  - intros reading target m out H. now apply kunyomi_reading_match_spec in H.
  - intros c kanas kana G I. apply get_In in G.
    assert (A : Forall (fun kv => Forall (fun k : str => length k = 1) (snd kv))
                       HIRAGANA_CONVERSION_DICT).
    { repeat constructor. }
    rewrite Forall_forall in A. specialize (A _ G). simpl in A.
    rewrite Forall_forall in A. now apply A.
Qed.

(** The onyomi コク found as こっ in こっこう, and the stem と of と.める found
    as ど in the section どめ of はどめ. *)
Lemma sound_changes_at_first_and_last_kana_witness :
  reading_form false (clean_onyomi_reading host_as_written (u "コク(呉)")) (u "こっ")
  /\ exists stem, kunyomi_stem_of (u "と.める") stem /\ reading_form true stem (u "ど").
Proof.
  split.
  - apply (proj1 (sound_changes_at_first_and_last_kana host_as_written)
             (u "コク(呉)") (u "こっこ") (u "こっ") []).
    vm_compute; reflexivity.
  - apply (proj1 (proj2 (sound_changes_at_first_and_last_kana host_as_written))
             (u "と.める") (u "どめ") (u "ど") []).
    vm_compute; reflexivity.
Defined.

(** C5 as stated fails in the kunyomi pass: the stem と of と.める is one kana
    long and is still looked for as ど, which is how 歯止め[はどめ] gets its
    highlight. *)
Lemma kunyomi_changes_single_kana_stem :
  PyStr.split period (u "と.める") = [u "と"; u "める"]
  /\ length (u "と") = 1
  /\ kunyomi_reading_match (u "と.める") (u "どめ") = ret (KMatch (u "ど"))
  /\ kana_highlight host_as_written (u "止") (u "シ(呉)")
       (u "と.まる、と.める、とど.める、とど.め、とど.まる、や.める、や.む、よ.す、さ.す")
       (u "歯止め[はどめ]")
     = ret (u "は<b>どめ</b>").
Proof. repeat split; vm_compute; reflexivity. Qed.

(* ================================================================== *)
(** ** Units without the kanji *)

(** The substitution over a list of segments goes through its parts one
    after the other. *)
Lemma sub_segments_app (segs1 segs2 : list Re.segment) (repl : Re.rematch -> M str) :
  sub_segments (segs1 ++ segs2) repl
  = (a <- sub_segments segs1 repl ;;
     b <- sub_segments segs2 repl ;;
     ret (a ++ b)).
Proof.
  induction segs1 as [|[t|m] l IH]; cbn [app sub_segments].
  - destruct (sub_segments segs2 repl) as [[b|e] o]; unfold bind, ret; simpl;
      now rewrite ?app_nil_r.
  - rewrite IH.
    destruct (sub_segments l repl) as [[a|e] o1],
             (sub_segments segs2 repl) as [[b|e'] o2];
      unfold bind, ret; simpl; now rewrite ?app_nil_r, ?app_assoc.
  - rewrite IH.
    destruct (repl m) as [[x|e0] o0],
             (sub_segments l repl) as [[a|e] o1],
             (sub_segments segs2 repl) as [[b|e'] o2];
      unfold bind, ret; simpl; now rewrite ?app_nil_r, ?app_assoc.
Qed.

(** What the replacer returns for a unit without the kanji. *)
Lemma furigana_replacer_without_kanji
    (host : Host) (highlight_args : HighlightArgs.t) (m : Re.rematch) :
  PyStr.startswith sound_prefix (Re.group m 2) = false ->
  PyStr.find (HighlightArgs.kanji_to_highlight highlight_args) (Re.group m 1) = None ->
  furigana_replacer host highlight_args m = ret (Re.group m 2 ++ Re.group m 3).
Proof.
  intros Hs Hf. unfold furigana_replacer. rewrite Hs.
  destruct (PyStr.eqb (Re.group m 1) (HighlightArgs.kanji_to_highlight highlight_args))
    eqn:E1.
  { apply PyStrFacts.eqb_eq in E1. rewrite E1 in Hf.
    rewrite <- (app_nil_r (HighlightArgs.kanji_to_highlight highlight_args)) in Hf at 2.
    rewrite PyStrFacts.find_app in Hf. discriminate. }
  destruct (PyStr.eqb (Re.group m 1)
              (HighlightArgs.kanji_to_highlight highlight_args ++ repeater)) eqn:E2.
  { apply PyStrFacts.eqb_eq in E2. rewrite E2, PyStrFacts.find_app in Hf. discriminate. }
  simpl. unfold handle_partial_kanji_case. now rewrite Hf.
Qed.

(** C10.  Take any unit that [kana_highlight] finds in the text: a match [m]
    of the main pattern in the cleaned text, with the matches and stretches
    of text [before] and [after] it.  When its gloss does not start with
    [sound:] and its word does not contain the kanji to highlight,
    [kana_highlight] puts the gloss and the trailing kana of the unit, and
    nothing else, between what it makes of [before] and what it makes of
    [after]: the word and the brackets are gone and no marker is added.  So
    every string it returns is of that form. *)
Theorem unit_without_kanji_is_gloss_and_kana
    (host : Host) (kanji_to_highlight onyomi kunyomi text : str)
    (before after : list Re.segment) (m : Re.rematch) :
  Re.finditer (KANJI_AND_FURIGANA_AND_OKURIGANA_REC host) (clean_text host text)
  = before ++ Re.Match m :: after ->
  PyStr.startswith sound_prefix (Re.group m 2) = false ->
  PyStr.find kanji_to_highlight (Re.group m 1) = None ->
  let replacer :=
    furigana_replacer host (HighlightArgs.mk text onyomi kunyomi kanji_to_highlight) in
  kana_highlight host kanji_to_highlight onyomi kunyomi text
  = (a <- sub_segments before replacer ;;
     b <- sub_segments after replacer ;;
     ret (a ++ Re.group m 2 ++ Re.group m 3 ++ b))
  /\ forall s out,
       kana_highlight host kanji_to_highlight onyomi kunyomi text = (Ok s, out) ->
       exists a b out1 out2,
         sub_segments before replacer = (Ok a, out1)
         /\ sub_segments after replacer = (Ok b, out2)
         /\ s = a ++ Re.group m 2 ++ Re.group m 3 ++ b
         /\ out = out1 ++ out2.
Proof.
  intros Segs Hs Hf replacer.
  assert (E : kana_highlight host kanji_to_highlight onyomi kunyomi text
              = (a <- sub_segments before replacer ;;
                 b <- sub_segments after replacer ;;
                 ret (a ++ Re.group m 2 ++ Re.group m 3 ++ b))).
  { unfold kana_highlight.
    change (PyStr.replace _ _ (Re.sub _ _ text)) with (clean_text host text).
    fold replacer. rewrite Segs, sub_segments_app. cbn [sub_segments].
    unfold replacer at 2.
    rewrite (@furigana_replacer_without_kanji host
               (HighlightArgs.mk text onyomi kunyomi kanji_to_highlight) m Hs Hf).
    fold replacer.
    destruct (sub_segments before replacer) as [[a|e] o1],
             (sub_segments after replacer) as [[b|e'] o2];
      unfold bind, ret; simpl; now rewrite ?app_nil_r, <- ?app_assoc. }
  split; [exact E|].
  intros s out H. rewrite E in H.
  apply bind_Ok_inv in H as [a [o1 [o2 [A [H ->]]]]].
  apply bind_Ok_inv in H as [b [o3 [o4 [B [H ->]]]]].
  injection H as <- <-. exists a, b, o1, o3. rewrite app_nil_r. auto.
Qed.

(** 町[まち]の 隣[となり] when 隣 is the kanji to highlight: the unit 町[まち]の
    comes out as まちの, before the blank and the highlighted 隣[となり]. *)
Lemma unit_without_kanji_is_gloss_and_kana_witness :
  kana_highlight host_as_written (u "隣") (u "リン(呉)") (u "とな.る、となり")
    (u "町[まち]の 隣[となり]")
  = ret (u "まちの <b>となり</b>").
Proof.
  refine (eq_trans
            (proj1 (@unit_without_kanji_is_gloss_and_kana host_as_written
                      (u "隣") (u "リン(呉)") (u "とな.る、となり")
                      (u "町[まち]の 隣[となり]")
                      [Re.Text []]
                      [Re.Text (u " ");
                       Re.Match (Re.ReMatch 7 13 (u "隣[となり]")
                                   [(3, []); (2, u "となり"); (1, u "隣")]);
                       Re.Text []]
                      (Re.ReMatch 0 6 (u "町[まち]の")
                         [(3, u "の"); (2, u "まち"); (1, u "町")])
                      ltac:(vm_compute; reflexivity)
                      ltac:(vm_compute; reflexivity)
                      ltac:(vm_compute; reflexivity)))
            _).
  vm_compute; reflexivity.
Defined.

(* ================================================================== *)
(** ** Facts about the matcher *)

Module ReFacts.
Import Re.

Lemma strip_prefix_app (l s rs : str) : strip_prefix l s = Some rs -> s = l ++ rs.
Proof.
  revert s; induction l as [|c l IH]; intros [|d s]; simpl; try discriminate.
  - now intros [= ->].
  - now intros [= ->].
  - destruct (c =? d)%N eqn:E; [|discriminate].
    apply N.eqb_eq in E. subst d. intros H. now rewrite (IH _ H).
Qed.

Lemma strip_prefix_startswith (l s : str) :
  strip_prefix l s = if PyStr.startswith l s then Some (skipn (length l) s) else None.
Proof.
  revert s; induction l as [|c l IH]; intros [|d s]; simpl; try reflexivity.
  destruct (c =? d)%N; simpl; [apply IH | reflexivity].
Qed.

(** A repetition hands its continuation a suffix of the text. *)
Lemma rep_go_sound {A : Type} (p : char -> bool) (lo : nat) (hi : option nat)
    (greedy : bool) (rs : str) :
  forall (cnt ps : nat) (k : nat -> str -> option A) (a : A),
    rep_go p lo hi greedy cnt ps rs k = Some a ->
    exists w rs', rs = w ++ rs' /\ k (ps + length w) rs' = Some a.
Proof.
  induction rs as [|c rs IH]; intros cnt ps k a; simpl.
  - destruct (lo <=? cnt); [|discriminate]. intros H.
    exists [], []. simpl. now rewrite Nat.add_0_r.
  - assert (Stop : (if lo <=? cnt then k ps (c :: rs) else None) = Some a ->
                   exists w rs', c :: rs = w ++ rs' /\ k (ps + length w) rs' = Some a).
    { destruct (lo <=? cnt); [|discriminate]. intros H.
      exists [], (c :: rs). simpl. now rewrite Nat.add_0_r. }
    assert (More : rep_go p lo hi greedy (S cnt) (S ps) rs k = Some a ->
                   exists w rs', c :: rs = w ++ rs' /\ k (ps + length w) rs' = Some a).
    { intros H. apply IH in H as [w [rs' [-> H]]].
      exists (c :: w), rs'. simpl. now rewrite Nat.add_succ_r. }
    destruct (p c && below hi cnt); [|exact Stop].
    destruct greedy.
    + destruct (rep_go p lo hi true (S cnt) (S ps) rs k) as [a'|] eqn:E.
      * intros [= <-]. now apply More.
      * exact Stop.
    + destruct (if lo <=? cnt then k ps (c :: rs) else None) as [a'|] eqn:E.
      * intros [= <-]. now apply Stop.
      * exact More.
Qed.

(** So does every pattern: a successful match has consumed a prefix [w] of
    the text that was left. *)
Lemma rmatch_sound {A : Type} (r : regex) :
  forall (s : mstate) (k : mstate -> option A) (a : A),
    rmatch r s k = Some a ->
    exists s' w, rest s = w ++ rest s' /\ pos s' = pos s + length w /\ k s' = Some a.
Proof.
  induction r as [l|p|p lo hi g| | |r1 IH1 r2 IH2|r1 IH1 r2 IH2|n r IH|n];
    intros s k a; simpl.
  - destruct (strip_prefix l (rest s)) as [rs'|] eqn:E; [|discriminate].
    intros H. apply strip_prefix_app in E.
    exists (MState (pos s + length l) rs' (caps s)), l. auto.
  - destruct (rest s) as [|c rs'] eqn:E; [discriminate|].
    destruct (p c); [|discriminate]. intros H.
    exists (MState (S (pos s)) rs' (caps s)), [c]. simpl.
    rewrite Nat.add_1_r. auto.
  - intros H. apply rep_go_sound in H as [w [rs' [E H]]].
    exists (MState (pos s + length w) rs' (caps s)), w. auto.
  - destruct (pos s =? 0); [|discriminate]. intros H.
    exists s, []. simpl. rewrite Nat.add_0_r. auto.
  - intros H. exists s, []. simpl. rewrite Nat.add_0_r.
    split; [reflexivity|]. split; [reflexivity|].
    destruct (rest s) as [|c [|d t]]; try discriminate; [assumption|].
    destruct (is_line_feed c); [assumption | discriminate].
  - intros H. apply IH1 in H as [s1 [w1 [E1 [P1 H]]]].
    apply IH2 in H as [s2 [w2 [E2 [P2 H]]]].
    exists s2, (w1 ++ w2). rewrite E1, E2, P2, P1, length_app, <- app_assoc.
    split; [reflexivity|]. split; [lia | assumption].
  - destruct (rmatch r1 s k) as [a'|] eqn:E.
    + intros [= <-]. now apply IH1.
    + apply IH2.
  - intros H. apply IH in H as [s1 [w [E [P H]]]].
    eexists (MState _ _ _), w. simpl. eauto.
  - destruct (cap n (caps s)) as [l|]; [|discriminate].
    destruct (strip_prefix l (rest s)) as [rs'|] eqn:E; [|discriminate].
    intros H. apply strip_prefix_app in E.
    exists (MState (pos s + length l) rs' (caps s)), l. auto.
Qed.

Lemma firstn_consumed (p : nat) (w rs : str) : firstn (p + length w - p) (w ++ rs) = w.
Proof.
  replace (p + length w - p) with (length w + 0) by lia.
  rewrite firstn_app_2. simpl. apply app_nil_r.
Qed.

(** A group records what its pattern consumed. *)
Lemma grp_sound {A : Type} (n : nat) (r : regex) (s : mstate)
    (k : mstate -> option A) (a : A) :
  rmatch (Grp n r) s k = Some a ->
  exists s1 w, rest s = w ++ rest s1 /\ pos s1 = pos s + length w
               /\ k (MState (pos s1) (rest s1) ((n, w) :: caps s1)) = Some a.
Proof.
  simpl. intros H. apply rmatch_sound in H as [s1 [w [E [P H]]]].
  exists s1, w. rewrite P, E, firstn_consumed in H. rewrite P. auto.
Qed.

Lemma grp_rep_sound {A : Type} (n : nat) (p : char -> bool) (lo : nat) (hi : option nat)
    (g : bool) (s : mstate) (k : mstate -> option A) (a : A) :
  rmatch (Grp n (Rep p lo hi g)) s k = Some a ->
  exists w rs', rest s = w ++ rs'
                /\ k (MState (pos s + length w) rs' ((n, w) :: caps s)) = Some a.
Proof.
  simpl. intros H. apply rep_go_sound in H as [w [rs' [E H]]].
  exists w, rs'. simpl in H. rewrite E, firstn_consumed in H. auto.
Qed.

(** The two groups of an inflection pattern split the text between them,
    up to a final line feed. *)
Lemma two_groups_sound (r : regex) (p : char -> bool) (lo : nat) (hi : option nat)
    (g : bool) (s s' : mstate) :
  rmatch (cat [Grp 1 r; Grp 2 (Rep p lo hi g); Eol]) s (fun x => Some x) = Some s' ->
  exists w1 w2 tail,
    rest s = w1 ++ w2 ++ tail
    /\ (tail = [] \/ exists c, tail = [c] /\ is_line_feed c = true)
    /\ cap 1 (caps s') = Some w1 /\ cap 2 (caps s') = Some w2.
Proof.
  unfold cat. simpl fold_right. intros H.
  change (rmatch (Grp 1 r) s
            (fun s1 => rmatch (Grp 2 (Rep p lo hi g)) s1
               (fun s2 => rmatch (Cat Eol (Lit [])) s2 (fun x => Some x))) = Some s') in H.
  apply grp_sound in H as [s1 [w1 [E1 [P1 H]]]].
  apply grp_rep_sound in H as [w2 [rs2 [E2 H]]].
  simpl in E2, H.
  exists w1, w2, rs2. rewrite E1, E2.
  split; [reflexivity|].
  destruct rs2 as [|c [|d t]]; try discriminate.
  - injection H as <-. simpl. auto.
  - destruct (is_line_feed c) eqn:L; [|discriminate].
    injection H as <-. simpl. split; [right; exists c; auto | auto].
Qed.

End ReFacts.

Lemma no_line_feed_app (a b : str) : no_line_feed (a ++ b) -> no_line_feed a /\ no_line_feed b.
Proof. unfold no_line_feed. apply Forall_app. Qed.

Lemma no_line_feed_tail (w1 w2 tail : str) :
  no_line_feed (w1 ++ w2 ++ tail) ->
  tail = [] \/ (exists c, tail = [c] /\ Re.is_line_feed c = true) ->
  tail = [].
Proof.
  intros N [->|[c [-> L]]]; [reflexivity|].
  apply no_line_feed_app in N as [_ N]. apply no_line_feed_app in N as [_ N].
  inversion N as [|? ? F _]; subst. congruence.
Qed.

(** What [pattern.match] gives for an inflection pattern. *)
Lemma inflections_rec_partition (alternatives : list str) (target : str) (m : Re.rematch) :
  no_line_feed target ->
  Re.match_ (inflections_rec alternatives) target = Some m ->
  Re.group m 1 ++ Re.group m 2 = target.
Proof.
  intros N. unfold Re.match_, inflections_rec.
  destruct (Re.rmatch _ _ _) as [s'|] eqn:E; [|discriminate].
  intros [= <-].
  apply ReFacts.two_groups_sound in E as [w1 [w2 [tail [E [T [C1 C2]]]]]].
  simpl in E. unfold Re.group. simpl. rewrite C1, C2.
  rewrite E in N. rewrite (@no_line_feed_tail _ _ _ N T) in E.
  now rewrite app_nil_r in E.
Qed.

Lemma get_map {V W : Type} (g : V -> W) (d : list (str * V)) (k : str) :
  PyStr.get (map (fun kv => (fst kv, g (snd kv))) d) k = option_map g (PyStr.get d k).
Proof.
  induction d as [|[k' v] d IH]; simpl; [reflexivity|].
  destruct (PyStr.eqb k k'); [reflexivity | exact IH].
Qed.

Section Okurigana.

Variable host : Host.

(** The pattern built for a kanji of [IRREGULAR_VERB_INFLECTIONS]. *)
Lemma irregular_rec_get (kanji : str) :
  PyStr.get (IRREGULAR_VERB_INFLECTIONS_REC host) kanji
  = option_map
      (fun endings =>
         Re.cat [ Re.Bol;
                  Re.Grp 1 (Re.alt (map Re.Lit (set_iter host endings)));
                  Re.Grp 2 (Re.Rep Re.dot 0 None true);
                  Re.Eol ])
      (PyStr.get IRREGULAR_VERB_INFLECTIONS kanji).
Proof.
  unfold IRREGULAR_VERB_INFLECTIONS_REC.
  exact (get_map
           (fun endings =>
              Re.cat [ Re.Bol;
                       Re.Grp 1 (Re.alt (map Re.Lit (set_iter host endings)));
                       Re.Grp 2 (Re.Rep Re.dot 0 None true);
                       Re.Eol ])
           IRREGULAR_VERB_INFLECTIONS kanji).
Qed.

Lemma irregular_rec_partition (kanji target : str) (rec : Re.regex) (m : Re.rematch) :
  no_line_feed target ->
  PyStr.get (IRREGULAR_VERB_INFLECTIONS_REC host) kanji = Some rec ->
  Re.match_ rec target = Some m ->
  Re.group m 1 ++ Re.group m 2 = target.
Proof.
  intros N G. rewrite irregular_rec_get in G.
  destruct (PyStr.get IRREGULAR_VERB_INFLECTIONS kanji) as [endings|]; [|discriminate].
  injection G as <-. unfold Re.match_.
  destruct (Re.rmatch _ _ _) as [s'|] eqn:E; [|discriminate].
  intros [= <-].
  change (Re.rmatch
            (Re.cat [Re.Grp 1 (Re.alt (map Re.Lit (set_iter host endings)));
                     Re.Grp 2 (Re.Rep Re.dot 0 None true); Re.Eol])
            (Re.MState 0 target []) (fun x => Some x) = Some s') in E.
  apply ReFacts.two_groups_sound in E as [w1 [w2 [tail [E [T [C1 C2]]]]]].
  simpl in E. unfold Re.group. simpl. rewrite C1, C2.
  rewrite E in N. rewrite (@no_line_feed_tail _ _ _ N T) in E.
  now rewrite app_nil_r in E.
Qed.

Lemma verb_inflections_stage_partition (kanji start target okurigana : str) :
  no_line_feed target ->
  start ++ target = okurigana ->
  fst (verb_inflections_stage host kanji start target okurigana)
  ++ snd (verb_inflections_stage host kanji start target okurigana) = okurigana.
Proof.
  intros N S. unfold verb_inflections_stage.
  destruct (PyStr.get (IRREGULAR_VERB_INFLECTIONS_REC host) kanji) as [rec|] eqn:G.
  - destruct (Re.match_ rec target) as [m|] eqn:M.
    + simpl. rewrite <- app_assoc, (@irregular_rec_partition kanji target rec m N G M). exact S.
    + destruct (Re.match_ (VERB_INFLECTIONS_REC host) target) as [m|] eqn:V;
        [|reflexivity].
      simpl. rewrite <- app_assoc, (@inflections_rec_partition _ target m N V). exact S.
  - destruct (Re.match_ (VERB_INFLECTIONS_REC host) target) as [m|] eqn:V;
      [|reflexivity].
    simpl. rewrite <- app_assoc, (@inflections_rec_partition _ target m N V). exact S.
Qed.

Lemma adjective_inflections_stage_partition (start target okurigana : str) :
  no_line_feed target ->
  start ++ target = okurigana ->
  fst (adjective_inflections_stage host start target okurigana)
  ++ snd (adjective_inflections_stage host start target okurigana) = okurigana.
Proof.
  intros N S. unfold adjective_inflections_stage.
  destruct (Re.match_ (ADJECTIVE_INFLECTIONS_REC host) target) as [m|] eqn:V;
    [|reflexivity].
  simpl. rewrite <- app_assoc, (@inflections_rec_partition _ target m N V). exact S.
Qed.

Lemma check_okurigana_partition (kunyomi_okurigana : str) (word_data : WordData.t)
    (highlight_args : HighlightArgs.t) :
  no_line_feed (WordData.okurigana word_data) ->
  fst (check_okurigana_for_kunyomi_inflection host kunyomi_okurigana word_data
         highlight_args)
  ++ snd (check_okurigana_for_kunyomi_inflection host kunyomi_okurigana word_data
            highlight_args)
  = WordData.okurigana word_data.
Proof.
  intros N. unfold check_okurigana_for_kunyomi_inflection.
  destruct (negb _); [reflexivity|].
  destruct kunyomi_okurigana as [|k0 k_rest]; [reflexivity|].
  destruct (WordData.okurigana word_data) as [|o0 o_rest] eqn:O; [reflexivity|].
  assert (N' : no_line_feed o_rest) by (now inversion N).
  destruct (PyStr.eqb _ _); [apply app_nil_r|].
  destruct (PyStr.mem _ NOT_FIRST_KANA); [reflexivity|].
  destruct (match PyStr.get VERB_NOUN_OKURIGANA (k0 :: k_rest) with
            | Some noun_form => PyStr.eqb (o0 :: o_rest) noun_form
            | None => false end); [apply app_nil_r|].
  destruct (PyStr.get READING_FIRST_KANA_TO_POSSIBLE_INFLECTED_FIRST_KANA _)
    as [possible_second_kana|].
  - destruct (PyStr.eqb [o0] _); [reflexivity|].
    destruct (_ && _); [apply firstn_skipn|].
    destruct (PyStr.mem [o0] possible_second_kana); simpl fst; simpl snd;
      now apply verb_inflections_stage_partition.
  - destruct (PyStr.endswith _ _); [|reflexivity].
    destruct (PyStr.mem [o0] _); simpl fst; simpl snd;
      now apply adjective_inflections_stage_partition.
Qed.

Lemma okurigana_loop_partition (word_data : WordData.t) (highlight_args : HighlightArgs.t)
    (kunyomi_readings : list str) :
  no_line_feed (WordData.okurigana word_data) ->
  forall okurigana_to_highlight rest_kana,
    okurigana_to_highlight ++ rest_kana = WordData.okurigana word_data ->
    fst (okurigana_loop host kunyomi_readings word_data highlight_args
           okurigana_to_highlight rest_kana)
    ++ snd (okurigana_loop host kunyomi_readings word_data highlight_args
              okurigana_to_highlight rest_kana)
    = WordData.okurigana word_data.
Proof.
  intros N. induction kunyomi_readings as [|next readings IH]; intros hl rest_kana E.
  - destruct hl; exact E.
  - destruct hl as [|h hl]; [|exact E]. simpl.
    destruct next as [|c next]; [exact E|].
    destruct (PyStr.split period (c :: next)) as [|a [|b [|d l]]]; try (now apply IH).
    apply IH. now apply check_okurigana_partition.
Qed.

End Okurigana.

(** The trailing kana of a parsed unit are hiragana, so free of line feeds. *)
Lemma hiragana_no_line_feed (s : str) :
  Forall (fun c => hiragana_class c = true) s -> no_line_feed s.
Proof.
  apply Forall_impl. intros c H. unfold hiragana_class, in_range in H.
  apply andb_true_iff in H as [H _]. apply N.leb_le in H.
  unfold Re.is_line_feed. apply N.eqb_neq. lia.
Qed.

(** C9.  Whatever branch the okurigana matcher takes, the two strings it
    returns are a split of the trailing kana of the unit: the highlighted
    part followed by the rest is the trailing kana, nothing dropped,
    repeated or changed.  The same holds for the pair the loop over the
    kunyomi entries in [process_readings] ends with.  The trailing kana of a
    parsed unit are the hiragana after the bracket, which is the
    hypothesis. *)
Theorem okurigana_split_is_exact (host : Host) (kunyomi_okurigana : str)
    (word_data : WordData.t) (highlight_args : HighlightArgs.t)
    (kunyomi_readings : list str) :
  Forall (fun c => hiragana_class c = true) (WordData.okurigana word_data) ->
  (let r := check_okurigana_for_kunyomi_inflection host kunyomi_okurigana word_data
              highlight_args in
   fst r ++ snd r = WordData.okurigana word_data)
  /\ (let r := okurigana_loop host kunyomi_readings word_data highlight_args []
                 (WordData.okurigana word_data) in
      fst r ++ snd r = WordData.okurigana word_data).
Proof.
  intros H. apply hiragana_no_line_feed in H. split; cbv zeta.
  - now apply check_okurigana_partition.
  - now apply okurigana_loop_partition.
Qed.

(** 去 in 消え去[きえさ]った with the kunyomi さ.る: the trailing kana った are
    split into った and nothing. *)
Lemma okurigana_split_is_exact_witness :
  let word_data := WordData.mk (Some 0) (Some 1) (u "去") (u "さ") (u "った") (Some WHOLE) in
  let highlight_args :=
    HighlightArgs.mk (u "去[さ]った") (u "キョ(漢)、コ(呉)") (u "さ.る、ゆ.く、のぞ.く") (u "去") in
  check_okurigana_for_kunyomi_inflection host_as_written (u "る") word_data highlight_args
  = (u "った", [])
  /\ (let r := check_okurigana_for_kunyomi_inflection host_as_written (u "る") word_data
                 highlight_args in
      fst r ++ snd r = u "った").
Proof.
  cbv zeta. split; [vm_compute; reflexivity|].
  apply (proj1 (@okurigana_split_is_exact host_as_written (u "る")
                  (WordData.mk (Some 0) (Some 1) (u "去") (u "さ") (u "った") (Some WHOLE))
                  (HighlightArgs.mk (u "去[さ]った") (u "キョ(漢)、コ(呉)")
                     (u "さ.る、ゆ.く、のぞ.く") (u "去"))
                  [] ltac:(vm_compute; repeat constructor))).
Defined.


Module ReOrder.
Import Re.

(** An alternation tries its branches in the order written. *)
Lemma rmatch_alt {A : Type} (rs : list regex) (s : mstate) (k : mstate -> option A) :
  rs <> [] -> rmatch (alt rs) s k = first_some (fun r => rmatch r s k) rs.
Proof.
  induction rs as [|r rs IH]; [congruence|]. intros _.
  destruct rs as [|r' rs].
  - simpl. now destruct (rmatch r s k).
  - change (alt (r :: r' :: rs)) with (Alt r (alt (r' :: rs))).
    simpl rmatch. simpl first_some.
    destruct (rmatch r s k); [reflexivity|]. now apply IH.
Qed.

Lemma first_some_map {A B C : Type} (f : B -> option C) (g : A -> B) (l : list A) :
  first_some f (map g l) = first_some (fun a => f (g a)) l.
Proof.
  induction l as [|a l IH]; simpl; [reflexivity|].
  destruct (f (g a)); [reflexivity | exact IH].
Qed.

Lemma first_some_ext {A B : Type} (f g : A -> option B) (l : list A) :
  (forall a, f a = g a) -> first_some f l = first_some g l.
Proof.
  intros E. induction l as [|a l IH]; simpl; [reflexivity|].
  rewrite E. destruct (g a); [reflexivity | exact IH].
Qed.

Lemma first_some_find {A B : Type} (p : A -> bool) (g : A -> B) (l : list A) :
  first_some (fun a => if p a then Some (g a) else None) l = option_map g (find p l).
Proof.
  induction l as [|a l IH]; simpl; [reflexivity|].
  destruct (p a); [reflexivity | exact IH].
Qed.

(** A lazy run of any characters before [$] goes to the end of a text
    without line feeds; so does a greedy one. *)
Lemma rep_dot_to_end {A : Type} (greedy : bool) (rs : str) :
  forall (cnt ps : nat) (k : nat -> str -> option A),
    Forall (fun c => is_line_feed c = false) rs ->
    (forall ps' c rs', Forall (fun c => is_line_feed c = false) (c :: rs') ->
                       k ps' (c :: rs') = None) ->
    rep_go dot 0 None greedy cnt ps rs k = k (ps + length rs) [].
Proof.
  induction rs as [|c rs IH]; intros cnt ps k N K; simpl.
  - now rewrite Nat.add_0_r.
  - inversion N as [|? ? Hc N']; subst.
    unfold dot at 1. rewrite Hc. simpl.
    rewrite (IH (S cnt) (S ps) k N' K), (K ps c rs N), Nat.add_succ_r.
    change (S ps + length rs) with (S (ps + length rs)).
    destruct greedy; now destruct (k (S (ps + length rs)) []).
Qed.

Lemma rmatch_cat_grp {A : Type} (n : nat) (r x : regex) (s : mstate)
    (k : mstate -> option A) :
  rmatch (Cat (Grp n r) x) s k
  = rmatch r s (fun s1 =>
      rmatch x (MState (pos s1) (rest s1)
                       ((n, firstn (pos s1 - pos s) (rest s)) :: caps s1)) k).
Proof. reflexivity. Qed.

Lemma rmatch_lit {A : Type} (l : str) (s : mstate) (k : mstate -> option A) :
  rmatch (Lit l) s k
  = if PyStr.startswith l (rest s)
    then k (MState (pos s + length l) (skipn (length l) (rest s)) (caps s))
    else None.
Proof.
  simpl. rewrite ReFacts.strip_prefix_startswith.
  now destruct (PyStr.startswith l (rest s)).
Qed.

(** The alternation of literal endings, with or without [^] before the
    first, at the start of the text. *)
Lemma rmatch_alt_lits {A : Type} (l : list str) (s : mstate) (k : mstate -> option A) :
  l <> [] ->
  rmatch (alt (map Lit l)) s k = first_some (fun a => rmatch (Lit a) s k) l.
Proof.
  intros NE. rewrite rmatch_alt, first_some_map; [reflexivity|].
  destruct l; [congruence | discriminate].
Qed.

Lemma rmatch_alt_bol_lits {A : Type} (a : str) (l : list str) (s : mstate)
    (k : mstate -> option A) :
  pos s = 0 ->
  rmatch (alt (Cat Bol (Lit a) :: map Lit l)) s k
  = first_some (fun a => rmatch (Lit a) s k) (a :: l).
Proof.
  intros P. rewrite rmatch_alt by discriminate.
  cbn [first_some]. rewrite first_some_map.
  replace (rmatch (Cat Bol (Lit a)) s k) with (rmatch (Lit a) s k); [reflexivity|].
  cbn [rmatch]. now rewrite P.
Qed.

(** The end of an inflection pattern, on a text without line feeds: group
    2 takes all that is left. *)
Lemma rmatch_rest_group (greedy : bool) (s : mstate) :
  Forall (fun c => is_line_feed c = false) (rest s) ->
  rmatch (cat [Grp 2 (Rep dot 0 None greedy); Eol]) s (fun x => Some x)
  = Some (MState (pos s + length (rest s) + 0) [] ((2, rest s) :: caps s)).
Proof.
  intros N. unfold cat. cbn [fold_right rmatch pos rest caps].
  rewrite rep_dot_to_end.
  - cbn [strip_prefix length].
    replace (pos s + length (rest s) - pos s) with (length (rest s)) by lia.
    now rewrite firstn_all.
  - exact N.
  - intros ps' c rs' Hc. inversion Hc as [|? ? Hl _]; subst.
    destruct rs'; [now rewrite Hl | reflexivity].
Qed.

Lemma inflections_rec_cons (a : str) (l : list str) :
  inflections_rec (a :: l)
  = Cat (Grp 1 (alt (Cat Bol (Lit a) :: map Lit l)))
        (cat [Grp 2 (Rep dot 0 None false); Eol]).
Proof. reflexivity. Qed.

End ReOrder.

(** The groups of a match of a pattern made of group 1 around [R], group 2
    around a run of any characters (lazy or greedy) and [$], on a text
    without line feeds, when [R] tries the literals [alternatives] in order:
    the first of them that the text starts with, and what follows it. *)
Lemma two_groups_first (R : Re.regex) (greedy : bool) (alternatives : list str)
    (target : str) :
  (forall k : Re.mstate -> option Re.mstate,
      Re.rmatch R (Re.MState 0 target []) k
      = first_some (fun a => Re.rmatch (Re.Lit a) (Re.MState 0 target []) k) alternatives) ->
  no_line_feed target ->
  option_map (fun s' => (Re.cap 1 (Re.caps s'), Re.cap 2 (Re.caps s')))
    (Re.rmatch (Re.Cat (Re.Grp 1 R) (Re.cat [Re.Grp 2 (Re.Rep Re.dot 0 None greedy); Re.Eol]))
               (Re.MState 0 target []) (fun x => Some x))
  = option_map (fun ending => (Some ending, Some (skipn (length ending) target)))
               (first_prefix alternatives target).
Proof.
  intros HR N. rewrite ReOrder.rmatch_cat_grp, HR.
  set (final := fun ending : str =>
         Re.MState (length ending + length (skipn (length ending) target) + 0) []
           [(2, skipn (length ending) target); (1, ending)]).
  rewrite (ReOrder.first_some_ext _
             (fun ending => if PyStr.startswith ending target then Some (final ending) else None)).
  - rewrite ReOrder.first_some_find. unfold first_prefix.
    destruct (find (fun ending => PyStr.startswith ending target) alternatives);
      [|reflexivity].
    reflexivity.
  - intros ending. rewrite ReOrder.rmatch_lit. cbn [Re.pos Re.rest Re.caps].
    destruct (PyStr.startswith ending target) eqn:S; [|reflexivity].
    apply PyStrFacts.startswith_prefix in S as [t ->].
    assert (Nt : no_line_feed t) by (apply no_line_feed_app in N; tauto).
    assert (Sk : skipn (length ending) (ending ++ t) = t)
      by (now rewrite skipn_app, skipn_all, Nat.sub_diag).
    rewrite ReOrder.rmatch_rest_group; cbn [Re.pos Re.rest Re.caps].
    + unfold final. rewrite Sk, Nat.sub_0_r.
      replace (0 + length ending) with (length ending + 0) by lia.
      rewrite firstn_app_2. simpl firstn. rewrite app_nil_r.
      do 2 f_equal. lia.
    + now rewrite Sk.
Qed.

Lemma match_groups (r : Re.regex) (target : str) :
  option_map (fun m => (Re.group m 1, Re.group m 2)) (Re.match_ r target)
  = option_map (fun s' => (match Re.cap 1 (Re.caps s') with Some w => w | None => [] end,
                           match Re.cap 2 (Re.caps s') with Some w => w | None => [] end))
               (Re.rmatch r (Re.MState 0 target []) (fun x => Some x)).
Proof.
  unfold Re.match_. now destruct (Re.rmatch r _ _).
Qed.

Lemma groups_of_first (x : option Re.mstate) (alternatives : list str) (target : str) :
  option_map (fun s' => (Re.cap 1 (Re.caps s'), Re.cap 2 (Re.caps s'))) x
  = option_map (fun ending => (Some ending, Some (skipn (length ending) target)))
               (first_prefix alternatives target) ->
  option_map (fun s' => (match Re.cap 1 (Re.caps s') with Some w => w | None => [] end,
                         match Re.cap 2 (Re.caps s') with Some w => w | None => [] end)) x
  = option_map (fun ending => (ending, skipn (length ending) target))
               (first_prefix alternatives target).
Proof.
  destruct x as [s'|], (first_prefix alternatives target) as [e|]; simpl;
    try discriminate; try reflexivity.
  intros [= -> ->]. reflexivity.
Qed.

(** The groups of the match of an inflection pattern: the first ending, in
    the order of the alternation, that the target starts with, and what
    follows it. *)
Lemma inflections_rec_first (alternatives : list str) (target : str) :
  alternatives <> [] ->
  no_line_feed target ->
  option_map (fun m => (Re.group m 1, Re.group m 2))
             (Re.match_ (inflections_rec alternatives) target)
  = option_map (fun ending => (ending, skipn (length ending) target))
               (first_prefix alternatives target).
Proof.
  intros NE N. destruct alternatives as [|a l]; [congruence|].
  rewrite match_groups, ReOrder.inflections_rec_cons.
  apply groups_of_first, two_groups_first; [|exact N].
  intros k. now apply ReOrder.rmatch_alt_bol_lits.
Qed.

Lemma irregular_rec_first (alternatives : list str) (target : str) :
  alternatives <> [] ->
  no_line_feed target ->
  option_map (fun m => (Re.group m 1, Re.group m 2))
    (Re.match_ (Re.cat [ Re.Bol;
                         Re.Grp 1 (Re.alt (map Re.Lit alternatives));
                         Re.Grp 2 (Re.Rep Re.dot 0 None true);
                         Re.Eol ]) target)
  = option_map (fun ending => (ending, skipn (length ending) target))
               (first_prefix alternatives target).
Proof.
  intros NE N. rewrite match_groups.
  change (Re.rmatch (Re.cat [Re.Bol; Re.Grp 1 (Re.alt (map Re.Lit alternatives));
                             Re.Grp 2 (Re.Rep Re.dot 0 None true); Re.Eol])
                    (Re.MState 0 target []) (fun x => Some x))
    with (Re.rmatch (Re.Cat (Re.Grp 1 (Re.alt (map Re.Lit alternatives)))
                            (Re.cat [Re.Grp 2 (Re.Rep Re.dot 0 None true); Re.Eol]))
                    (Re.MState 0 target []) (fun x => Some x)).
  apply groups_of_first, two_groups_first; [|exact N].
  intros k. now apply ReOrder.rmatch_alt_lits.
Qed.

(* ================================================================== *)
(** ** The order of a set *)

Lemma mem_In (x : str) (l : list str) : PyStr.mem x l = true <-> In x l.
Proof.
  unfold PyStr.mem. rewrite existsb_exists. split.
  - intros [y [H E]]. apply PyStrFacts.eqb_eq in E. now subst.
  - intros H. exists x. split; [assumption | apply PyStrFacts.eqb_refl].
Qed.

Lemma dedup_from_spec (l seen : list str) :
  NoDup (dedup_from seen l)
  /\ forall x, In x (dedup_from seen l) <-> (In x l /\ ~ In x seen).
Proof.
  revert seen. induction l as [|y l IH]; intros seen; simpl.
  - split; [constructor | intros x; tauto].
  - destruct (PyStr.mem y seen) eqn:M.
    + apply mem_In in M. destruct (IH seen) as [ND I]. split; [exact ND|].
      intros x. rewrite I. split; [tauto|].
      intros [[<-|H] S]; [contradiction | tauto].
    + assert (NM : ~ In y seen) by (rewrite <- mem_In, M; discriminate).
      destruct (IH (y :: seen)) as [ND I]. split.
      * constructor; [|exact ND]. rewrite I. simpl. tauto.
      * intros x. simpl. rewrite I. simpl. split.
        -- intros [<-|[H S]]; tauto.
        -- intros [[<-|H] S]; [tauto|].
           destruct (PyStr.eqb y x) eqn:E.
           ++ apply PyStrFacts.eqb_eq in E. tauto.
           ++ right. split; [assumption|]. intros [->|H']; [|tauto].
              now rewrite PyStrFacts.eqb_refl in E.
Qed.

Lemma as_written_ok : set_iter_ok host_as_written.
Proof.
  intros l. simpl. unfold as_written. destruct (dedup_from_spec l []) as [ND I].
  split; [exact ND|]. intros x. rewrite I. simpl. tauto.
Qed.

Lemma longest_first_ok : set_iter_ok host_longest_first.
Proof.
  intros l. simpl. unfold longest_first. destruct (as_written_ok l) as [ND I].
  simpl in ND, I. split.
  - eapply Permutation_NoDup; [apply sort_by_len_reverse_perm | exact ND].
  - intros x. rewrite sort_by_len_reverse_In. apply I.
Qed.

Lemma set_iter_nonempty (host : Host) (l : list str) :
  set_iter_ok host -> l <> [] -> set_iter host l <> [].
Proof.
  intros OK NE E. destruct l as [|x l]; [congruence|].
  destruct (OK (x :: l)) as [_ I]. specialize (I x). rewrite E in I.
  simpl in I. tauto.
Qed.

(* ================================================================== *)
(** ** The tables of endings *)

(** At the table stage the ending taken is the first one, in the order in
    which the host iterates the set of endings, that the remaining trailing
    kana start with; the rest follows it.  The table of the irregular verb,
    when the kanji has one, is asked first, and the table of all verb
    endings only if none of its endings fits. *)
Lemma inflection_stage_takes_first_ending (host : Host)
    (kanji_to_highlight start target okurigana : str) :
  set_iter_ok host ->
  no_line_feed target ->
  verb_inflections_stage host kanji_to_highlight start target okurigana
  = match match PyStr.get IRREGULAR_VERB_INFLECTIONS kanji_to_highlight with
          | Some endings => first_prefix (set_iter host endings) target
          | None => None
          end with
    | Some ending => (start ++ ending, skipn (length ending) target)
    | None =>
        match first_prefix (set_iter host VERB_ALL_OKURIGANA) target with
        | Some ending => (start ++ ending, skipn (length ending) target)
        | None => ([], okurigana)
        end
    end
  /\ adjective_inflections_stage host start target okurigana
     = match first_prefix (set_iter host ADJECTIVE_INFLECTIONS) target with
       | Some ending => (start ++ ending, skipn (length ending) target)
       | None => ([], okurigana)
       end.
Proof.
  intros OK N.
  assert (V : forall table, table <> [] ->
            match Re.match_ (inflections_rec (set_iter host table)) target with
            | Some m => (start ++ Re.group m 1, Re.group m 2)
            | None => ([], okurigana)
            end
            = match first_prefix (set_iter host table) target with
              | Some ending => (start ++ ending, skipn (length ending) target)
              | None => ([], okurigana)
              end).
  { intros table NE.
    pose proof (inflections_rec_first (set_iter_nonempty OK NE) N) as F.
    destruct (Re.match_ _ target), (first_prefix _ target); simpl in F;
      try discriminate; [|reflexivity].
    now injection F as -> ->. }
  split.
  - unfold verb_inflections_stage. rewrite irregular_rec_get.
    destruct (PyStr.get IRREGULAR_VERB_INFLECTIONS kanji_to_highlight) as [endings|] eqn:G;
      cbn [option_map].
    + assert (NE : endings <> []).
      { apply get_In in G.
        assert (A : Forall (fun kv : str * list str => snd kv <> [])
                           IRREGULAR_VERB_INFLECTIONS)
          by (repeat constructor; discriminate).
        rewrite Forall_forall in A. exact (A _ G). }
      pose proof (irregular_rec_first (set_iter_nonempty OK NE) N) as F.
      destruct (Re.match_ _ target), (first_prefix (set_iter host endings) target);
        simpl in F; try discriminate.
      * now injection F as -> ->.
      * apply V. discriminate.
    + apply V. discriminate.
  - unfold adjective_inflections_stage. apply V. discriminate.
Qed.

(** 見[み]たら: the verb endings that fit are た and たら; a host that lists た
    first takes た. *)
Lemma inflection_stage_takes_first_ending_witness :
  verb_inflections_stage host_as_written (u "見") [] (u "たら") (u "たら")
  = (u "た", u "ら").
Proof.
  refine (eq_trans
            (proj1 (@inflection_stage_takes_first_ending host_as_written (u "見") []
                      (u "たら") (u "たら") as_written_ok
                      ltac:(repeat constructor)))
            _).
  vm_compute; reflexivity.
Defined.

(** C7.  The endings of a table are joined into the pattern in the order
    in which the set is iterated, and the alternation takes the first of
    them that fits: on every host the table stage splits the trailing kana
    たら of 見[み]たら at the first ending of that order that たら starts
    with.  The table of verb endings holds both た and たら, and the source
    does not fix the order of a set.  So the same call has two results: a
    host that comes to た first returns <b>みた</b>ら, a host that comes to
    the longer endings first returns <b>みたら</b>, and only the second is
    what the longest ending gives. *)
Theorem inflection_ending_depends_on_set_order :
  (forall host, set_iter_ok host ->
     verb_inflections_stage host (u "見") [] (u "たら") (u "たら")
     = match first_prefix (set_iter host VERB_ALL_OKURIGANA) (u "たら") with
       | Some ending => (ending, skipn (length ending) (u "たら"))
       | None => ([], u "たら")
       end)
  /\ PyStr.mem (u "た") VERB_ALL_OKURIGANA = true
  /\ PyStr.mem (u "たら") VERB_ALL_OKURIGANA = true
  /\ set_iter_ok host_as_written
  /\ verb_inflections_stage host_as_written (u "見") [] (u "たら") (u "たら")
     = (u "た", u "ら")
  /\ kana_highlight host_as_written (u "見") (u "ケン(漢)") (u "み.る") (u "見[み]たら")
     = ret (u "<b>みた</b>ら")
  /\ set_iter_ok host_longest_first
  /\ verb_inflections_stage host_longest_first (u "見") [] (u "たら") (u "たら")
     = (u "たら", [])
  /\ kana_highlight host_longest_first (u "見") (u "ケン(漢)") (u "み.る") (u "見[み]たら")
     = ret (u "<b>みたら</b>").
Proof.
  split.
  { intros host OK.
    rewrite (proj1 (@inflection_stage_takes_first_ending host (u "見") [] (u "たら")
                      (u "たら") OK ltac:(repeat constructor; discriminate))).
    reflexivity. }
  split; [vm_compute; reflexivity|].
  split; [vm_compute; reflexivity|].
  split; [exact as_written_ok|].
  split; [vm_compute; reflexivity|].
  split; [vm_compute; reflexivity|].
  split; [exact longest_first_ok|].
  split; vm_compute; reflexivity.
Qed.

(* ================================================================== *)
(** ** The order in which readings are tried *)


Lemma insert_by_len_sorted (x : str) (l : list str) :
  StronglySorted longer_or_equal l -> StronglySorted longer_or_equal (insert_by_len x l).
Proof.
  induction l as [|y l IH]; simpl; intros S.
  - repeat constructor.
  - apply StronglySorted_inv in S as [S F].
    destruct (length x <? length y) eqn:E.
    + apply Nat.ltb_lt in E. constructor; [now apply IH|].
      apply (Permutation_Forall (insert_by_len_perm x l)).
      constructor; [unfold longer_or_equal; lia | exact F].
    + apply Nat.ltb_ge in E. constructor; [now constructor|].
      constructor; [exact E|].
      revert F. apply Forall_impl. unfold longer_or_equal. intros z Hz. lia.
Qed.

Lemma sort_by_len_reverse_sorted (l : list str) :
  StronglySorted longer_or_equal (sort_by_len_reverse l).
Proof.
  induction l as [|x l IH]; simpl; [constructor | now apply insert_by_len_sorted].
Qed.

Lemma sorted_later_not_longer (pre post : list str) (x y : str) :
  StronglySorted longer_or_equal (pre ++ x :: post) -> In y post -> length y <= length x.
Proof.
  induction pre as [|p pre IH]; simpl; intros S I.
  - apply StronglySorted_inv in S as [_ F]. rewrite Forall_forall in F. now apply F.
  - apply StronglySorted_inv in S as [S _]. now apply IH.
Qed.

Section Order.

Variable host : Host.

Lemma onyomi_reading_match_plain (entry target : str) :
  PyStr.contains (clean_onyomi_reading host entry) target = true ->
  onyomi_reading_match host entry target = ret (Some (clean_onyomi_reading host entry)).
Proof. unfold onyomi_reading_match. now intros ->. Qed.

(** The onyomi loop stops at the first entry, in the order it is given,
    one of whose forms occurs in the section. *)
Lemma onyomi_loop_first (target : str) (readings : list str) (entry0 m0 : str) :
  In entry0 readings ->
  onyomi_reading_match host entry0 target = ret (Some m0) ->
  exists pre entry post m,
    readings = pre ++ entry :: post
    /\ onyomi_reading_match host entry target = ret (Some m)
    /\ onyomi_loop host readings target = ret (Some m)
    /\ (entry = entry0 \/ In entry0 post).
Proof.
  intros I M0. induction readings as [|r rs IH]; [contradiction|].
  simpl onyomi_loop.
  destruct (onyomi_reading_match_total host r target) as [[m|] E].
  - exists [], r, rs, m. rewrite E, bind_ret_l. simpl in I.
    repeat split; try reflexivity. destruct I; auto.
  - destruct I as [->|I]; [rewrite E in M0; discriminate|].
    destruct (IH I) as [pre [entry [post [m [R [M [L P]]]]]]].
    exists (r :: pre), entry, post, m. rewrite E, bind_ret_l, R.
    repeat split; try reflexivity; try assumption. now rewrite <- R.
Qed.

Lemma kunyomi_loop_skips (target : str) (pre : list str) (rest : list str) :
  Forall (fun p => kunyomi_reading_match p target = ret KNone) pre ->
  kunyomi_loop (pre ++ rest) target = kunyomi_loop rest target.
Proof.
  induction 1 as [|p pre Hp _ IH]; [reflexivity|].
  simpl. now rewrite Hp, bind_ret_l.
Qed.

End Order.

(** C2, as the code has it.  The onyomi entries are sorted by their length
    before they are tried, so, when their annotations are all of one length
    [d], a reading of the list that occurs in the section is never shadowed
    by a shorter one: the match comes from an entry whose reading is at
    least as long.  The kunyomi entries are tried in list order instead: the
    first entry one of whose forms occurs in the section is the one matched,
    whatever its length. *)
Theorem readings_tried_in_order (host : Host) (furigana target : str)
    (edge : option Edge) (flag : bool) :
  (forall onyomi d entry0,
      (forall entry, In entry (PyStr.split comma onyomi) ->
                     length entry = length (clean_onyomi_reading host entry) + d) ->
      In entry0 (PyStr.split comma onyomi) ->
      PyStr.contains (clean_onyomi_reading host entry0) target = true ->
      exists entry m,
        In entry (PyStr.split comma onyomi)
        /\ length (clean_onyomi_reading host entry0)
           <= length (clean_onyomi_reading host entry)
        /\ reading_form false (clean_onyomi_reading host entry) m
        /\ PyStr.contains m target = true
        /\ check_onyomi_readings host onyomi furigana target edge flag
           = if flag then ret (MainResult.mk [] T_onyomi)
             else (text <- replace_onyomi_match host furigana m edge ;;
                   ret (MainResult.mk text T_onyomi)))
  /\ (forall kunyomi pre kunyomi_reading post m,
        PyStr.split comma kunyomi = pre ++ kunyomi_reading :: post ->
        Forall (fun p => kunyomi_reading_match p target = ret KNone) pre ->
        kunyomi_reading_match kunyomi_reading target = ret (KMatch m) ->
        check_kunyomi_readings host kunyomi furigana target edge flag
        = if flag then ret (MainResult.mk [] T_kunyomi)
          else replace_kunyomi_match host furigana m edge).
Proof.
  split.
  - intros onyomi d entry0 D I C.
    apply (proj2 (sort_by_len_reverse_In _ _)) in I.
    destruct (@onyomi_loop_first host target _ _ _ I (@onyomi_reading_match_plain host _ _ C))
      as [pre [entry [post [m [R [M [L P]]]]]]].
    assert (Ie : In entry (PyStr.split comma onyomi)).
    { apply (proj1 (sort_by_len_reverse_In _ _)). rewrite R. apply in_elt. }
    exists entry, m.
    apply onyomi_reading_match_spec in M as [Cm Fm].
    split; [exact Ie|]. split.
    + destruct P as [->|P]; [lia|].
      pose proof (sort_by_len_reverse_sorted (PyStr.split comma onyomi)) as S.
      rewrite R in S. pose proof (@sorted_later_not_longer _ _ _ _ S P) as Le.
      apply (proj1 (sort_by_len_reverse_In _ _)) in I.
      rewrite (D _ I), (D _ Ie) in Le. lia.
    + split; [exact Fm|]. split; [exact Cm|].
      unfold check_onyomi_readings. rewrite L, bind_ret_l. now destruct flag.
  - intros kunyomi pre reading post m S F M.
    unfold check_kunyomi_readings. rewrite S, (@kunyomi_loop_skips _ _ _ F).
    simpl kunyomi_loop. rewrite M, !bind_ret_l. now destruct flag.
Qed.

(** 由 in 由緒[ゆいしょ]: ユ and ユイ both occur in the section ゆいし, and the
    match comes from ユイ.  靴 in 長靴[ながぐつ]: the only kunyomi entry くつ is
    matched as ぐつ. *)
Lemma readings_tried_in_order_witness :
  (exists entry m,
      In entry (PyStr.split comma (u "ユ(呉)、ユウ(漢)、ユイ(慣)"))
      /\ length (clean_onyomi_reading host_as_written (u "ユ(呉)"))
         <= length (clean_onyomi_reading host_as_written entry)
      /\ reading_form false (clean_onyomi_reading host_as_written entry) m
      /\ PyStr.contains m (u "ゆいし") = true
      /\ check_onyomi_readings host_as_written (u "ユ(呉)、ユウ(漢)、ユイ(慣)")
           (u "ゆいしょ") (u "ゆいし") (Some LEFT) false
         = (text <- replace_onyomi_match host_as_written (u "ゆいしょ") m (Some LEFT) ;;
            ret (MainResult.mk text T_onyomi)))
  /\ check_kunyomi_readings host_as_written (u "くつ") (u "ながぐつ") (u "がぐつ")
       (Some RIGHT) false
     = replace_kunyomi_match host_as_written (u "ながぐつ") (u "ぐつ") (Some RIGHT).
Proof.
  split.
  - apply (proj1 (readings_tried_in_order host_as_written (u "ゆいしょ") (u "ゆいし")
                    (Some LEFT) false)
             (u "ユ(呉)、ユウ(漢)、ユイ(慣)") 3 (u "ユ(呉)")).
    + intros entry I. vm_compute in I.
      destruct I as [<-|[<-|[<-|[]]]]; vm_compute; reflexivity.
    + vm_compute. auto.
    + vm_compute; reflexivity.
  - apply (proj2 (readings_tried_in_order host_as_written (u "ながぐつ") (u "がぐつ")
                    (Some RIGHT) false)
             (u "くつ") [] (u "くつ") [] (u "ぐつ")).
    + vm_compute; reflexivity.
    + constructor.
    + vm_compute; reflexivity.
Defined.

(** C2 as stated fails in the kunyomi pass: with the entries よ and よし, in
    this order, both occurring in the section よし of the gloss よしお, the
    shorter よ is the one matched and highlighted. *)
Lemma kunyomi_shorter_entry_shadows_longer :
  PyStr.split comma (u "よ、よし") = [u "よ"; u "よし"]
  /\ PyStr.contains (u "よ") (u "よし") = true
  /\ PyStr.contains (u "よし") (u "よし") = true
  /\ length (u "よ") < length (u "よし")
  /\ check_kunyomi_readings host_as_written (u "よ、よし") (u "よしお") (u "よし")
       (Some LEFT) false
     = ret (MainResult.mk (u "<b>よ</b>しお") T_kunyomi)
  /\ kana_highlight host_as_written (u "由") (u "ユウ") (u "よ、よし") (u "由緒[よしお]")
     = ret (u "<b>よ</b>しお").
Proof. repeat split; vm_compute; reflexivity || lia. Qed.

(** The onyomi entries are sorted as written, annotation included: カ(呉音)
    is five characters long and is tried before カク. *)
Example onyomi_sorted_by_entry_length :
  sort_by_len_reverse (PyStr.split comma (u "カク、カ(呉音)")) = [u "カ(呉音)"; u "カク"]
  /\ kana_highlight host_as_written (u "各") (u "カク、カ(呉音)") (u "おのおの")
       (u "各国[かくこく]")
     = ret (u "<b>カ</b>くこく").
Proof. split; vm_compute; reflexivity. Qed.

(* ================================================================== *)
(** ** The even split of the mora *)

Ltac decide_tests :=
  repeat match goal with
         | |- context [?a =? ?b] => destruct (Nat.eqb_spec a b); try lia
         | |- context [?a <=? ?b] => destruct (Nat.leb_spec a b); try lia
         | |- context [?a <? ?b] => destruct (Nat.ltb_spec a b); try lia
         end;
  cbn [andb negb].

Lemma firstn_plus {A : Type} (n m : nat) (l : list A) :
  firstn (n + m) l = firstn n l ++ firstn m (skipn n l).
Proof.
  revert l. induction n as [|n IH]; intros [|x l]; simpl; try reflexivity.
  - now rewrite firstn_nil.
  - now rewrite IH.
Qed.

Lemma mora_slice_from_start (mora_list : list str) (y : nat) :
  mora_slice mora_list 0 y = concat (firstn y mora_list).
Proof. unfold mora_slice. now rewrite Nat.sub_0_r. Qed.

Lemma mora_slice_app (mora_list : list str) (x y z : nat) :
  x <= y -> y <= z ->
  mora_slice mora_list x y ++ mora_slice mora_list y z = mora_slice mora_list x z.
Proof.
  intros Hxy Hyz. unfold mora_slice. rewrite <- concat_app. f_equal.
  replace (z - x) with ((y - x) + (z - y)) by lia.
  rewrite firstn_plus. f_equal. rewrite skipn_skipn.
  now replace (y - x + x) with y by lia.
Qed.

Lemma mora_slice_to_end (mora_list : list str) (x : nat) :
  mora_slice mora_list x (length mora_list) = concat (skipn x mora_list).
Proof.
  unfold mora_slice. rewrite firstn_all2; [reflexivity|]. rewrite length_skipn. lia.
Qed.

Lemma mora_slice_nil (mora_list : list str) (x : nat) : mora_slice mora_list x x = [].
Proof. unfold mora_slice. now rewrite Nat.sub_diag. Qed.

(** The inner loop appends the mora of its range, and never indexes past
    the list. *)
Lemma append_mora_range (mora_list : list str) (len start : nat) (acc : str) :
  start + len <= length mora_list ->
  for_each (seq start len)
    (fun mora_index acc =>
       match nth_error mora_list mora_index with
       | Some mora => ret (acc ++ mora)
       | None => raise IndexError
       end) acc
  = ret (acc ++ mora_slice mora_list start (start + len)).
Proof.
  revert start acc. induction len as [|len IH]; intros start acc H; simpl.
  - now rewrite Nat.add_0_r, mora_slice_nil, app_nil_r.
  - destruct (nth_error mora_list start) as [mora|] eqn:E.
    + rewrite bind_ret_l, IH by lia.
      rewrite <- (@mora_slice_app mora_list start (S start) (start + S len)) by lia.
      replace (S start + len) with (start + S len) by lia.
      rewrite <- app_assoc. unfold ret. do 3 f_equal.
      unfold mora_slice. replace (S start - start) with 1 by lia.
      apply nth_error_split in E as [l1 [l2 [E L]]]. f_equal.
      rewrite E, <- L, skipn_app, skipn_all, Nat.sub_diag. simpl.
      now rewrite app_nil_r.
    + apply nth_error_None in E. lia.
Qed.

Lemma share_start_step (mora_count kanji_count i : nat) :
  share_start mora_count kanji_count (S i)
  = share_start mora_count kanji_count i + mora_count / kanji_count
    + (if i <? mora_count mod kanji_count then 1 else 0).
Proof. unfold share_start. decide_tests; lia. Qed.

Lemma share_start_mono (mora_count kanji_count i j : nat) :
  i <= j -> share_start mora_count kanji_count i <= share_start mora_count kanji_count j.
Proof. unfold share_start. intros H. nia. Qed.

Lemma share_start_end (mora_count kanji_count : nat) :
  kanji_count <> 0 -> share_start mora_count kanji_count kanji_count = mora_count.
Proof.
  intros NZ. unfold share_start.
  pose proof (Nat.mod_upper_bound mora_count kanji_count NZ).
  pose proof (Nat.div_mod mora_count kanji_count NZ).
  lia.
Qed.

Section EvenSplit.

Variable mora_list : list str.
Variables kanji_count kanji_pos : nat.
Hypothesis pos_in_word : kanji_pos < kanji_count.

Lemma jukujigun_body_step (i : nat) :
  i < kanji_count ->
  jukujigun_body mora_list (length mora_list / kanji_count) kanji_count kanji_pos i
                 (jukujigun_state mora_list kanji_count kanji_pos i)
  = ret (jukujigun_state mora_list kanji_count kanji_pos (S i)).
Proof.
  intros Hi. unfold jukujigun_body, jukujigun_state.
  cbv zeta. cbn [remainder new_furigana cur_mora_index].
  set (extra := length mora_list mod kanji_count).
  set (start := share_start (length mora_list) kanji_count).
  assert (R : (0 <? extra - min i extra) = (i <? extra)) by (decide_tests; lia).
  rewrite R.
  assert (Max : (if i <? extra then start i + length mora_list / kanji_count + 1
                 else start i + length mora_list / kanji_count) = start (S i)).
  { unfold start. rewrite share_start_step. fold extra. decide_tests; lia. }
  rewrite Max.
  assert (Rem : (if i <? extra then extra - min i extra - 1 else extra - min i extra)
                = extra - min (S i) extra) by (decide_tests; lia).
  rewrite Rem.
  pose proof (@share_start_mono (length mora_list) kanji_count i (S i) ltac:(lia)) as M1.
  pose proof (@share_start_mono (length mora_list) kanji_count (S i) kanji_count
                ltac:(lia)) as M2.
  rewrite share_start_end in M2 by lia. fold start in M1, M2.
  rewrite append_mora_range by lia.
  replace (start i + (start (S i) - start i)) with (start (S i)) by lia.
  rewrite bind_ret_l. unfold ret. do 2 f_equal. f_equal.
  rewrite ?Nat.add_1_r.
  destruct (Nat.lt_trichotomy i kanji_pos) as [Lt|[Eq|Gt]].
  - (* before the kanji *)
    decide_tests; apply mora_slice_app; lia.
  - (* the kanji itself *)
    subst i. decide_tests; rewrite ?mora_slice_nil, <- ?app_assoc, ?app_nil_r; reflexivity.
  - destruct (Nat.eq_dec i (S kanji_pos)) as [Eq|Ne].
    + (* the kanji after it *)
      subst i. decide_tests; rewrite <- !app_assoc, app_nil_l; reflexivity.
    + (* later kanji *)
      pose proof (@share_start_mono (length mora_list) kanji_count (S kanji_pos) i
                    ltac:(lia)) as M3.
      fold start in M3.
      decide_tests; rewrite <- !app_assoc; do 4 f_equal; apply mora_slice_app; lia.
Qed.

(** The whole loop. *)
Lemma jukujigun_loop (m i : nat) :
  i + m = kanji_count ->
  for_each (seq i m)
    (jukujigun_body mora_list (length mora_list / kanji_count) kanji_count kanji_pos)
    (jukujigun_state mora_list kanji_count kanji_pos i)
  = ret (jukujigun_state mora_list kanji_count kanji_pos kanji_count).
Proof.
  revert i. induction m as [|m IH]; intros i H; simpl.
  - now replace i with kanji_count by lia.
  - rewrite jukujigun_body_step, bind_ret_l by lia. apply IH. lia.
Qed.

Lemma jukujigun_final :
  new_furigana (jukujigun_state mora_list kanji_count kanji_pos kanji_count)
  = concat (firstn (share_start (length mora_list) kanji_count kanji_pos) mora_list)
    ++ b_open
    ++ mora_slice mora_list (share_start (length mora_list) kanji_count kanji_pos)
                  (share_start (length mora_list) kanji_count (S kanji_pos))
    ++ b_close
    ++ concat (skipn (share_start (length mora_list) kanji_count (S kanji_pos)) mora_list).
Proof.
  unfold jukujigun_state. cbv zeta. cbn [new_furigana].
  rewrite share_start_end, !mora_slice_to_end, !mora_slice_from_start by lia.
  decide_tests; reflexivity.
Qed.

End EvenSplit.

(** The jukujigun fallback gives every kanji of the word an equal share of
    the mora found in the gloss, one more to the first kanji as long as the
    remainder lasts, and wraps the share of the kanji to highlight in
    markers; the mora before and after it are put out as they are.  The
    division is never by zero and the list is never indexed out of range. *)
Lemma handle_jukujigun_case_ranges (word_data : WordData.t) (kanji_count kanji_pos : nat) :
  WordData.kanji_count word_data = Some kanji_count ->
  WordData.kanji_pos word_data = Some kanji_pos ->
  kanji_pos < kanji_count ->
  let mora_list := Re.findall1 ALL_MORA_REC (WordData.furigana word_data) in
  let first := share_start (length mora_list) kanji_count kanji_pos in
  let last := share_start (length mora_list) kanji_count (S kanji_pos) in
  handle_jukujigun_case word_data
  = ret (MainResult.mk
           (concat (firstn first mora_list) ++ b_open
            ++ mora_slice mora_list first last
            ++ b_close ++ concat (skipn last mora_list))
           T_kunyomi)
  /\ last = first + length mora_list / kanji_count
            + (if kanji_pos <? length mora_list mod kanji_count then 1 else 0).
Proof.
  intros C P L. cbv zeta. split; [|apply share_start_step].
  unfold handle_jukujigun_case. rewrite C, P.
  destruct kanji_count as [|kc]; [lia|].
  pose proof (@jukujigun_loop (Re.findall1 ALL_MORA_REC (WordData.furigana word_data))
                (S kc) kanji_pos L (S kc) 0 eq_refl) as Loop.
  replace (jukujigun_state (Re.findall1 ALL_MORA_REC (WordData.furigana word_data))
             (S kc) kanji_pos 0)
    with (JukuState (length (Re.findall1 ALL_MORA_REC (WordData.furigana word_data))
                     mod S kc) [] 0) in Loop.
  - rewrite Loop, bind_ret_l. now rewrite jukujigun_final.
  - unfold jukujigun_state, share_start. cbv zeta.
    rewrite mora_slice_nil, Nat.sub_0_r. reflexivity.
Qed.

(* ================================================================== *)
(** ** No unit stops the substitution *)

Lemma find_from_bound (k s : str) (i p : nat) :
  PyStr.find_from k s i = Some p ->
  i <= p /\ (p < i + length s \/ (k = [] /\ s = [])).
Proof.
  revert i. induction s as [|c s IH]; intros i; simpl.
  - destruct k; simpl; [|discriminate]. intros [= <-]. auto.
  - destruct (PyStr.startswith k (c :: s)) eqn:S.
    + intros [= <-]. lia.
    + intros H. apply IH in H as [H1 [H2|[-> _]]]; [lia | discriminate].
Qed.

(** What occurs in a string without operators has none. *)
Lemma contains_plain (k s : str) :
  PyStr.contains k s = true -> plain_reading s -> plain_reading k.
Proof.
  unfold PyStr.contains, PyStr.find. intros C P.
  assert (G : forall i, PyStr.find_from k s i <> None -> plain_reading k).
  { clear C. induction s as [|c s IH]; intros i; simpl.
    - destruct k; [constructor | now simpl].
    - destruct (PyStr.startswith k (c :: s)) eqn:Sw.
      + intros _. apply PyStrFacts.startswith_prefix in Sw as [t Ht].
        unfold plain_reading in *. rewrite Ht in P.
        now apply Forall_app in P.
      + apply IH. now inversion P. }
  destruct (PyStr.find_from k s 0) eqn:E; [|discriminate].
  apply (G 0). congruence.
Qed.

Lemma edge_section_plain (e : Edge) (s : str) :
  plain_reading s -> plain_reading (edge_section e s).
Proof.
  unfold plain_reading. intros P.
  assert (T : forall l : str, Forall (fun c => regex_operator c = false) l ->
                              Forall (fun c => regex_operator c = false) (tl l)).
  { intros l H. destruct H; [constructor | assumption]. }
  assert (R : forall l : str, Forall (fun c => regex_operator c = false) l ->
                              Forall (fun c => regex_operator c = false) (removelast l)).
  { intros l H. rewrite Forall_forall in *. intros c Hc. apply H. clear H.
    induction l as [|d l IH]; [contradiction|].
    cbn [removelast] in Hc. destruct l as [|d' l']; [contradiction|].
    destruct Hc as [<-|Hc]; [now left | right; now apply IH]. }
  destruct e; simpl; auto.
Qed.

Section Total.

Variable host : Host.

(** With an edge, a kanji count and a position inside the word,
    [process_readings] returns a result, raises nothing and reports
    nothing, when it is asked for the kind of match only or when the gloss
    holds no regex operator: whatever is matched occurs in the gloss, and
    so the pattern built around it is one of the three written out. *)
Lemma process_readings_total (highlight_args : HighlightArgs.t) (word_data : WordData.t)
    (flag : bool) (e : Edge) (kanji_count kanji_pos : nat) :
  WordData.edge word_data = Some e ->
  WordData.kanji_count word_data = Some kanji_count ->
  WordData.kanji_pos word_data = Some kanji_pos ->
  kanji_pos < kanji_count ->
  flag = true \/ plain_reading (WordData.furigana word_data) ->
  exists r hl rest_kana,
    process_readings host highlight_args word_data flag = ret (inl r, hl, rest_kana).
Proof.
  intros He Hc Hp Lt Pl. unfold process_readings.
  rewrite He, get_target_furigana_section_edge, bind_ret_l.
  assert (Sub : forall m, flag = false ->
                  PyStr.contains m (edge_section e (WordData.furigana word_data)) = true ->
                  plain_reading m).
  { intros m Hf C. destruct Pl as [->|Pl]; [discriminate|].
    apply (@contains_plain _ _ C). now apply edge_section_plain. }
  destruct (check_onyomi_readings_spec host (HighlightArgs.onyomi highlight_args)
              (WordData.furigana word_data)
              (edge_section e (WordData.furigana word_data)) (Some e) flag)
    as [[m [entry [_ [C [_ [_ E]]]]]]|[E _]]; rewrite E.
  - destruct flag.
    + rewrite bind_ret_l. cbn [is_type MainResult.type]. eauto.
    + rewrite (@replace_onyomi_match_plain host _ _ _ (Sub m eq_refl C)), !bind_ret_l.
      cbn [is_type MainResult.type]. eauto.
  - rewrite bind_ret_l. cbn [is_type MainResult.type].
    unfold check_kunyomi_readings.
    destruct (kunyomi_loop_total
                (PyStr.split comma (HighlightArgs.kunyomi highlight_args))
                (edge_section e (WordData.furigana word_data))) as [step K].
    rewrite K, bind_ret_l.
    destruct step as [|km|]; cbv beta iota.
    + rewrite bind_ret_l. cbn [is_type MainResult.type]. eauto.
    + apply kunyomi_loop_spec in K as [C _].
      destruct flag.
      * rewrite bind_ret_l. cbn [is_type MainResult.type]. eauto.
      * rewrite (@replace_kunyomi_match_plain host _ _ _ (Sub km eq_refl C)), bind_ret_l.
        cbn [is_type MainResult.type]. eauto.
    + rewrite bind_ret_l. cbn [is_type MainResult.type]. rewrite Hc, Hp.
      destruct (@handle_jukujigun_case_ranges word_data kanji_count kanji_pos Hc Hp Lt)
        as [J _].
      rewrite J, bind_ret_l. eauto.
Qed.

(** The replacer returns a string for every match whose gloss holds no
    regex operator: it raises nothing and reports nothing. *)
Lemma furigana_replacer_total (highlight_args : HighlightArgs.t) (m : Re.rematch) :
  plain_reading (Re.group m 2) ->
  exists x, furigana_replacer host highlight_args m = ret x.
Proof.
  intros Pl. unfold furigana_replacer.
  destruct (PyStr.startswith sound_prefix (Re.group m 2)); [eauto|].
  destruct (_ || _) eqn:W.
  - unfold handle_whole_kanji_case.
    destruct (@process_readings_total highlight_args
                (WordData.mk (Some 0) (Some 1) (Re.group m 1) (Re.group m 2)
                             (Re.group m 3) (Some WHOLE))
                true WHOLE 1 0 eq_refl eq_refl eq_refl ltac:(lia) (or_introl eq_refl))
      as [r [hl [rest_kana E]]].
    rewrite E, bind_ret_l. cbn [subscript]. rewrite bind_ret_l.
    destruct (is_type (MainResult.type r) T_onyomi); eauto.
  - unfold handle_partial_kanji_case.
    destruct (PyStr.find (HighlightArgs.kanji_to_highlight highlight_args) (Re.group m 1))
      as [kanji_pos|] eqn:F; [|eauto].
    assert (Lt : kanji_pos < length (Re.group m 1)).
    { unfold PyStr.find in F. apply find_from_bound in F as [_ [F|[K G]]]; [lia|].
      rewrite K, G in W. discriminate. }
    match goal with
    | |- context [process_readings host highlight_args ?wd false] =>
        destruct (@process_readings_total highlight_args wd false
                    (if negb (kanji_pos =? 0) && negb (S kanji_pos =? length (Re.group m 1))
                     then MIDDLE else if kanji_pos =? 0 then LEFT else RIGHT)
                    (length (Re.group m 1)) kanji_pos eq_refl eq_refl eq_refl Lt
                    (or_intror Pl))
          as [r [hl [rest_kana E]]]
    end.
    rewrite E, bind_ret_l. cbn [subscript]. rewrite bind_ret_l.
    destruct hl; eauto.
Qed.

End Total.

(* ================================================================== *)
(** ** A kunyomi entry with several periods *)

Lemma split_length (sep : char) (s : str) :
  length (PyStr.split sep s) = S (count_occ N.eq_dec s sep).
Proof.
  induction s as [|c s IH]; simpl; [reflexivity|].
  destruct (N.eq_dec c sep) as [->|NE].
  - rewrite N.eqb_refl. simpl. now rewrite IH.
  - apply N.eqb_neq in NE. rewrite NE.
    destruct (PyStr.split sep s); simpl in *; [discriminate | exact IH].
Qed.

Lemma existsb_count (sep : char) (s : str) :
  0 < count_occ N.eq_dec s sep -> existsb (N.eqb sep) s = true.
Proof.
  intros H. apply count_occ_In in H. apply existsb_exists.
  exists sep. split; [assumption | apply N.eqb_refl].
Qed.

Lemma kunyomi_reading_match_malformed (kunyomi_reading target : str) :
  2 <= count_occ N.eq_dec kunyomi_reading period ->
  kunyomi_reading_match kunyomi_reading target = ret KMalformed.
Proof.
  intros H. unfold kunyomi_reading_match.
  rewrite existsb_count by lia.
  pose proof (split_length period kunyomi_reading) as L.
  destruct (PyStr.split period kunyomi_reading) as [|a [|b [|c l]]]; simpl in L;
    try lia; now rewrite log_silent, !bind_ret_l.
Qed.

(** When the onyomi pass finds nothing and the kunyomi pass, finding
    nothing in the entries before it, comes to an entry with two or more
    periods, [process_readings] ends there: it returns a kunyomi result
    whose text is the gloss as it was, together with whatever the okurigana
    loop makes of the trailing kana, and the list of messages given to
    [show_error_message] is empty.  For a word made of the kanji alone the
    unit is then rendered like any kunyomi match, the gloss and the
    highlighted part of the trailing kana inside one pair of markers. *)
Lemma malformed_kunyomi_entry_ends_resolver (host : Host)
    (highlight_args : HighlightArgs.t)
    (word_data : WordData.t) (flag : bool) (e : Edge) (pre post : list str) (bad : str) :
  WordData.edge word_data = Some e ->
  onyomi_loop host
    (sort_by_len_reverse (PyStr.split comma (HighlightArgs.onyomi highlight_args)))
    (edge_section e (WordData.furigana word_data)) = ret None ->
  PyStr.split comma (HighlightArgs.kunyomi highlight_args) = pre ++ bad :: post ->
  Forall (fun p => kunyomi_reading_match p (edge_section e (WordData.furigana word_data))
                   = ret KNone) pre ->
  2 <= count_occ N.eq_dec bad period ->
  let ol := okurigana_loop host (PyStr.split comma (HighlightArgs.kunyomi highlight_args))
              word_data highlight_args [] (WordData.okurigana word_data) in
  process_readings host highlight_args word_data flag
  = (Ok (inl (MainResult.mk (WordData.furigana word_data) T_kunyomi), fst ol, snd ol), [])
  /\ (word_data = WordData.mk (Some 0) (Some 1) (WordData.word word_data)
                    (WordData.furigana word_data) (WordData.okurigana word_data)
                    (Some WHOLE) ->
      handle_whole_kanji_case host highlight_args (WordData.word word_data)
        (WordData.furigana word_data) (WordData.okurigana word_data)
      = (Ok (b_open ++ WordData.furigana word_data ++ fst ol ++ b_close ++ snd ol), [])).
Proof.
  intros He O S F B. cbv zeta.
  assert (K : kunyomi_loop (PyStr.split comma (HighlightArgs.kunyomi highlight_args))
                (edge_section e (WordData.furigana word_data)) = ret KMalformed).
  { rewrite S, (@kunyomi_loop_skips _ _ _ F). simpl kunyomi_loop.
    now rewrite (@kunyomi_reading_match_malformed _ _ B), bind_ret_l. }
  assert (P : forall flag,
             process_readings host highlight_args word_data flag
             = ret (inl (MainResult.mk (WordData.furigana word_data) T_kunyomi),
                    fst (okurigana_loop host
                           (PyStr.split comma (HighlightArgs.kunyomi highlight_args))
                           word_data highlight_args [] (WordData.okurigana word_data)),
                    snd (okurigana_loop host
                           (PyStr.split comma (HighlightArgs.kunyomi highlight_args))
                           word_data highlight_args [] (WordData.okurigana word_data)))).
  { intros fl. unfold process_readings.
    rewrite He, get_target_furigana_section_edge, bind_ret_l.
    unfold check_onyomi_readings. rewrite O, !bind_ret_l. cbn [is_type MainResult.type].
    unfold check_kunyomi_readings. rewrite K, !bind_ret_l. reflexivity. }
  split; [apply P|].
  intros W. unfold handle_whole_kanji_case. rewrite <- W, (P true), bind_ret_l.
  reflexivity.
Qed.

(** C8.  A kunyomi entry with more than one period is found by the
    resolver, but the diagnostic it writes, headed like the other two error
    messages of the module, is handed to [log], which does nothing, and not
    to [show_error_message] as those two are; and the unit whose word is the
    kanji alone does not come out as its gloss unmodified but inside markers.
    For 見[み]た with the kunyomi list み.る.る the text is returned with
    <b>み</b>た and the list of messages is empty; the unit 見物[みもの]
    after it is rendered as usual.  The path without an edge, next to it in
    the same resolver, does give its message to [show_error_message]. *)
Theorem malformed_kunyomi_entry_unreported :
  count_occ N.eq_dec (u "み.る.る") period = 2
  /\ kunyomi_reading_match (u "み.る.る") (u "み") = (Ok KMalformed, [])
  /\ kana_highlight host_as_written (u "見") (u "ケン(漢)") (u "み.る.る")
       (u "見[み]た 見物[みもの]")
     = (Ok (u "<b>み</b>た みもの"), [])
  /\ (forall msg, log msg = (Ok tt, []))
  /\ get_target_furigana_section (u "み") None
     = (Ok None,
        [u "Error in kana_highlight[]: process_readings() called with no edge specified"]).
Proof.
  split; [vm_compute; reflexivity|].
  split; [vm_compute; reflexivity|].
  split; [vm_compute; reflexivity|].
  split; [intros msg; apply log_silent | vm_compute; reflexivity].
Qed.

(* ================================================================== *)
(** ** The three failures against the module's own word *)

(** C3.  On 視聴者[しちょうしゃ], and already on 町[まち], a unit without the
    kanji, [kana_filter] of the highlighted text and [kana_filter] of the
    text differ by more than markers and script: [bracket_replace] returns
    group 1 of [FURIGANA_RE], the word before the bracket, not the gloss, and
    the word is then removed as kanji, so [kana_filter] of the text is
    empty. *)
Theorem kana_filter_returns_the_word :
  kana_highlight host_as_written (u "視") (u "シ(漢)、ジ(呉)") (u "み.る")
    (u "視聴者[しちょうしゃ]") = ret (u "<b>シ</b>ちょうしゃ")
  /\ kana_filter host_as_written (u "<b>シ</b>ちょうしゃ") = u "<b>シ</b>ちょうしゃ"
  /\ kana_filter host_as_written (u "視聴者[しちょうしゃ]") = []
  /\ kana_highlight host_as_written (u "視") (u "シ(漢)、ジ(呉)") (u "み.る")
       (u "町[まち]") = ret (u "まち")
  /\ kana_filter host_as_written (u "まち") = u "まち"
  /\ kana_filter host_as_written (u "町[まち]") = [].
Proof. repeat split; vm_compute; reflexivity. Qed.

(** C4.  Markers already in the text are not removed: the unit between them
    is highlighted and the old markers stay around the new ones. *)
Theorem old_markers_are_kept :
  kana_highlight host_as_written (u "視") (u "シ(漢)、ジ(呉)") (u "み.る")
    (u "<b>視聴者[しちょうしゃ]</b>")
  = ret (u "<b><b>シ</b>ちょうしゃ</b>").
Proof. vm_compute; reflexivity. Qed.

(** C6.  The mora table has neither ん nor っ, and it has ゔ among its
    two-kana mora, before ゔぇ and ゔぉ.  So the gloss たんぽぽ of 蒲公英 is cut
    into た, ぽ and ぽ and the unit comes out without its ん, where the four
    mora た, ん, ぽ, ぽ dealt to three kanji give たん<b>ぽ</b>ぽ; and the gloss
    ゔぇら is cut into ゔ and ら, the two-kana mora ゔぇ never being tried
    before the single ゔ.  (What the fallback does with the mora it finds is
    in [handle_jukujigun_case_ranges].) *)
Theorem mora_table_splits_and_drops :
  Re.findall1 ALL_MORA_REC (u "たんぽぽ") = [u "た"; u "ぽ"; u "ぽ"]
  /\ kana_highlight host_as_written (u "公") (u "コウ(漢)、ク(呉)") (u "おおやけ")
       (u "蒲公英[たんぽぽ]")
     = ret (u "た<b>ぽ</b>ぽ")
  /\ PyStr.mem (u "ゔぇ") ALL_MORA = true
  /\ Re.findall1 ALL_MORA_REC (u "ゔぇら") = [u "ゔ"; u "ら"]
  /\ kana_highlight host_as_written (u "大")
       (u "ダイ(呉)、タイ(漢)、タ(漢)、ダ(呉)") (u "おお、おお.きい、おお.いに")
       (u "大人[ゔぇら]")
     = ret (u "<b>ゔ</b>ら").
Proof. repeat split; vm_compute; reflexivity. Qed.

(* ================================================================== *)
(** * The patterns, the units and the replacer *)

(* ------------------------------------------------------------------ *)
(** ** Scanning with the patterns *)

Module ReScan.
Import Re.

Lemma rep_go_ext {A : Type} (p : char -> bool) (lo : nat) (hi : option nat) (g : bool)
    (rs : str) :
  forall (cnt ps : nat) (k1 k2 : nat -> str -> option A),
    (forall ps' rs', k1 ps' rs' = k2 ps' rs') ->
    rep_go p lo hi g cnt ps rs k1 = rep_go p lo hi g cnt ps rs k2.
Proof.
  induction rs as [|c rs IH]; intros cnt ps k1 k2 E; simpl.
  - now rewrite E.
  - rewrite (IH (S cnt) (S ps) k1 k2 E), E. reflexivity.
Qed.

Lemma rmatch_ext {A : Type} (r : regex) :
  forall (s : mstate) (k1 k2 : mstate -> option A),
    (forall s', k1 s' = k2 s') -> rmatch r s k1 = rmatch r s k2.
Proof.
  induction r as [l|p|p lo hi g| | |r1 IH1 r2 IH2|r1 IH1 r2 IH2|n r IH|n];
    intros s k1 k2 E; simpl.
  - destruct (strip_prefix l (rest s)); [apply E | reflexivity].
  - destruct (rest s) as [|c rs']; [reflexivity|]. destruct (p c); [apply E | reflexivity].
  - apply rep_go_ext. intros ps' rs'. apply E.
  - destruct (pos s =? 0); [apply E | reflexivity].
  - destruct (rest s) as [|c [|d t]]; [apply E | | reflexivity].
    destruct (is_line_feed c); [apply E | reflexivity].
  - apply IH1. intros s1. now apply IH2.
  - rewrite (IH1 s k1 k2 E), (IH2 s k1 k2 E). reflexivity.
  - apply IH. intros s1. apply E.
  - destruct (cap n (caps s)) as [l|]; [|reflexivity].
    destruct (strip_prefix l (rest s)); [apply E | reflexivity].
Qed.

(** Where [find] finds something, the text goes on with it. *)
Lemma find_from_spec (k s : str) :
  forall i p, PyStr.find_from k s i = Some p ->
              i <= p /\ PyStr.startswith k (skipn (p - i) s) = true.
Proof.
  induction s as [|c s IH]; intros i p; simpl.
  - destruct k; simpl; [|discriminate]. intros [= <-]. split; [lia|reflexivity].
  - destruct (PyStr.startswith k (c :: s)) eqn:Sw.
    + intros [= <-]. rewrite Nat.sub_diag. simpl. auto.
    + intros H. apply IH in H as [L H]. split; [lia|].
      replace (p - i) with (S (p - S i)) by lia. exact H.
Qed.

(** A lazy run of any characters stops at the first place from which the
    text goes on with [k]. *)
Lemma rep_lazy_first {A : Type} (k : str) (F : nat -> str -> A) (rs : str) :
  forall cnt ps,
    no_line_feed rs ->
    rep_go dot 0 None false cnt ps rs
      (fun ps' rs' => if PyStr.startswith k rs' then Some (F ps' rs') else None)
    = option_map (fun p => F p (skipn (p - ps) rs)) (PyStr.find_from k rs ps).
Proof.
  induction rs as [|c rs IH]; intros cnt ps N; simpl.
  - destruct (PyStr.startswith k []); simpl; [now rewrite Nat.sub_diag | reflexivity].
  - inversion N as [|? ? Hc N']; subst.
    unfold dot at 1. rewrite Hc. simpl.
    destruct (PyStr.startswith k (c :: rs)) eqn:Sw.
    + simpl. now rewrite Nat.sub_diag.
    + rewrite (IH (S cnt) (S ps) N').
      destruct (PyStr.find_from k rs (S ps)) as [p|] eqn:E; [|reflexivity].
      simpl. apply find_from_spec in E as [L _].
      replace (p - ps) with (S (p - S ps)) by lia. reflexivity.
Qed.

(** No run of characters finds what does not occur. *)
Lemma rep_absent {A : Type} (p : char -> bool) (lo : nat) (hi : option nat) (g : bool)
    (k : str) (F : nat -> str -> option A) (rs : str) :
  forall cnt ps i,
    PyStr.find_from k rs i = None ->
    rep_go p lo hi g cnt ps rs
      (fun ps' rs' => if PyStr.startswith k rs' then F ps' rs' else None)
    = None.
Proof.
  induction rs as [|c rs IH]; intros cnt ps i; simpl.
  - destruct (PyStr.startswith k []); [discriminate|]. intros _.
    now destruct (lo <=? cnt).
  - destruct (PyStr.startswith k (c :: rs)) eqn:Sw; [discriminate|]. intros H.
    rewrite (IH (S cnt) (S ps) (S i) H).
    destruct (p c && below hi cnt), g, (lo <=? cnt); reflexivity.
Qed.

(** A greedy run of any characters stops at the last place from which the
    text goes on with [k]. *)
Lemma rep_greedy_last {A : Type} (k : str) (F : nat -> str -> A) (pre post : str) :
  forall cnt ps,
    k <> [] ->
    no_line_feed pre ->
    PyStr.contains k (tl (k ++ post)) = false ->
    rep_go dot 0 None true cnt ps (pre ++ k ++ post)
      (fun ps' rs' => if PyStr.startswith k rs' then Some (F ps' rs') else None)
    = Some (F (ps + length pre) (k ++ post)).
Proof.
  intros cnt ps NE N Last. revert cnt ps.
  assert (Abs : forall cnt ps,
             rep_go dot 0 None true cnt ps (tl (k ++ post))
               (fun ps' rs' => if PyStr.startswith k rs' then Some (F ps' rs') else None)
             = None).
  { intros cnt ps. apply rep_absent with (i := 0).
    unfold PyStr.contains, PyStr.find in Last.
    now destruct (PyStr.find_from k (tl (k ++ post)) 0). }
  induction pre as [|c pre IH]; intros cnt ps.
  - destruct k as [|c k]; [congruence|]. simpl app. simpl tl in Abs.
    cbn [rep_go]. rewrite Abs.
    change (PyStr.startswith (c :: k) (c :: k ++ post))
      with (PyStr.startswith (c :: k) ((c :: k) ++ post)).
    rewrite PyStrFacts.startswith_app. simpl. rewrite Nat.add_0_r.
    now destruct (dot c && true).
  - inversion N as [|? ? Hc N']; subst. simpl app. cbn [rep_go].
    unfold dot at 1. rewrite Hc. simpl negb. cbn [andb below].
    rewrite (IH N' (S cnt) (S ps)). simpl. now rewrite Nat.add_succ_r.
Qed.

(** A greedy run of the characters of a class takes all of them when what
    follows can go on from there. *)
Lemma rep_greedy_all {A : Type} (p : char -> bool) (lo : nat) (w rs : str)
    (k : nat -> str -> option A) (a : A) :
  forall cnt ps,
    Forall (fun c => p c = true) w ->
    match rs with c :: _ => p c = false | [] => True end ->
    lo <= cnt + length w ->
    k (ps + length w) rs = Some a ->
    rep_go p lo None true cnt ps (w ++ rs) k = Some a.
Proof.
  induction w as [|c w IH]; intros cnt ps Hw Hrs L K; simpl in *.
  - rewrite Nat.add_0_r in *.
    assert (E : (lo <=? cnt) = true) by (apply Nat.leb_le; lia).
    destruct rs as [|d rs]; simpl; rewrite E; [exact K|].
    rewrite Hrs. simpl. exact K.
  - inversion Hw as [|? ? Hc Hw']; subst. rewrite Hc. simpl.
    rewrite (IH (S cnt) (S ps) Hw' Hrs); [reflexivity | lia |].
    now rewrite Nat.add_succ_r in K.
Qed.

(** What a run of a class has taken belongs to the class and is long
    enough. *)
Lemma rep_go_class {A : Type} (p : char -> bool) (lo : nat) (hi : option nat)
    (greedy : bool) (rs : str) :
  forall (cnt ps : nat) (k : nat -> str -> option A) (a : A),
    rep_go p lo hi greedy cnt ps rs k = Some a ->
    exists w rs', rs = w ++ rs' /\ Forall (fun c => p c = true) w
                  /\ lo <= cnt + length w /\ k (ps + length w) rs' = Some a.
Proof.
  induction rs as [|c rs IH]; intros cnt ps k a; simpl.
  - destruct (lo <=? cnt) eqn:L; [|discriminate]. intros H.
    apply Nat.leb_le in L.
    exists [], []. simpl. rewrite !Nat.add_0_r.
    split; [reflexivity|]. split; [constructor|]. split; [lia | assumption].
  - assert (Stop : (if lo <=? cnt then k ps (c :: rs) else None) = Some a ->
                   exists w rs', c :: rs = w ++ rs' /\ Forall (fun c => p c = true) w
                                 /\ lo <= cnt + length w /\ k (ps + length w) rs' = Some a).
    { destruct (lo <=? cnt) eqn:L; [|discriminate]. intros H.
      apply Nat.leb_le in L.
      exists [], (c :: rs). simpl. rewrite !Nat.add_0_r.
      split; [reflexivity|]. split; [constructor|]. split; [lia | assumption]. }
    destruct (p c && below hi cnt) eqn:PC; [|exact Stop].
    apply andb_true_iff in PC as [PC _].
    assert (More : rep_go p lo hi greedy (S cnt) (S ps) rs k = Some a ->
                   exists w rs', c :: rs = w ++ rs' /\ Forall (fun c => p c = true) w
                                 /\ lo <= cnt + length w /\ k (ps + length w) rs' = Some a).
    { intros H. apply IH in H as [w [rs' [-> [Fw [L H]]]]].
      exists (c :: w), rs'. simpl. rewrite !Nat.add_succ_r.
      split; [reflexivity|]. split; [now constructor|]. split; [lia | exact H]. }
    destruct greedy.
    + destruct (rep_go p lo hi true (S cnt) (S ps) rs k) as [a'|] eqn:E.
      * intros [= <-]. now apply More.
      * exact Stop.
    + destruct (if lo <=? cnt then k ps (c :: rs) else None) as [a'|] eqn:E.
      * intros [= <-]. now apply Stop.
      * exact More.
Qed.

(** The end of a pattern: a group around a run of any characters, then
    [$], on a text without line feeds. *)
Lemma rmatch_tail_group {A : Type} (n : nat) (greedy : bool) (s : mstate)
    (K : mstate -> option A) :
  no_line_feed (rest s) ->
  rmatch (cat [Grp n (Rep dot 0 None greedy); Eol]) s K
  = K (MState (pos s + length (rest s) + 0) [] ((n, rest s) :: caps s)).
Proof.
  intros N. unfold cat. cbn [fold_right rmatch pos rest caps].
  rewrite ReOrder.rep_dot_to_end.
  - cbn [strip_prefix length].
    replace (pos s + length (rest s) - pos s) with (length (rest s)) by lia.
    now rewrite firstn_all.
  - exact N.
  - intros ps' c rs' Hc. inversion Hc as [|? ? Hl _]; subst.
    destruct rs'; [now rewrite Hl | reflexivity].
Qed.

(** Nothing is found where no place of the text lets the pattern match. *)
Lemma search_none (r : regex) (rs : str) :
  forall ma p,
    (forall ma' p' rs', (exists w, rs = w ++ rs') ->
        rmatch r (MState p' rs' [])
          (fun s' => if ma' && (pos s' =? p') then None else Some s') = None) ->
    search r ma p rs = None.
Proof.
  induction rs as [|c rs IH]; intros ma p H; simpl.
  - rewrite (H ma p []); [reflexivity | now exists []].
  - rewrite (H ma p (c :: rs)); [|now exists []].
    apply IH. intros ma' p' rs' [w ->]. apply H. now exists (c :: w).
Qed.

Lemma segments_none (fuel : nat) (r : regex) (ma : bool) (p : nat) (rs : str) :
  search r ma p rs = None -> segments fuel r ma p rs = [Text rs].
Proof. intros H. destruct fuel; simpl; [reflexivity | now rewrite H]. Qed.

(** After an empty match at the end of the text nothing more is found. *)
Lemma rmatch_must_advance (r : regex) (p : nat) (cs : list (nat * str)) :
  rmatch r (MState p [] cs) (fun s' => if true && (pos s' =? p) then None else Some s')
  = None.
Proof.
  destruct (rmatch r _ _) as [a|] eqn:E; [|reflexivity].
  apply ReFacts.rmatch_sound in E as [s' [w [E [P H]]]]. simpl in E, P.
  destruct w; [|discriminate]. simpl in P. rewrite Nat.add_0_r in P.
  rewrite P, Nat.eqb_refl in H. discriminate.
Qed.

(** One match that takes the whole text. *)
Lemma finditer_whole (r : regex) (s : str) (s' : mstate) :
  rmatch r (MState 0 s []) (fun x => Some x) = Some s' ->
  rest s' = [] ->
  search r (pos s' =? 0) (pos s') [] = None ->
  finditer r s
  = [Text []; Match (ReMatch 0 (pos s') (firstn (pos s') s) (caps s')); Text []].
Proof.
  intros M R Next. unfold finditer.
  cbn [segments].
  assert (S0 : search r false 0 s = Some (0, s')).
  { destruct s; simpl; simpl in M; now rewrite M. }
  rewrite S0. rewrite R. rewrite segments_none by apply Next.
  simpl. now rewrite Nat.sub_0_r.
Qed.

(** A lazy run stops as soon as what follows can go on: here after the
    characters [pre], none of which lets it go on. *)
Lemma rep_lazy_hit {A : Type} (p : char -> bool) (lo : nat) (K : nat -> str -> option A)
    (pre rs' : str) (a : A) :
  forall cnt ps,
    Forall (fun c => p c = true) pre ->
    (forall ps' c t, In c pre -> K ps' (c :: t) = None) ->
    lo <= cnt + length pre ->
    K (ps + length pre) rs' = Some a ->
    rep_go p lo None false cnt ps (pre ++ rs') K = Some a.
Proof.
  induction pre as [|c pre IH]; intros cnt ps Hp Hk L Ka; simpl in *.
  - rewrite Nat.add_0_r in *.
    assert (E : (lo <=? cnt) = true) by (apply Nat.leb_le; lia).
    destruct rs' as [|d rs']; simpl; rewrite E; [exact Ka|].
    rewrite Ka. now destruct (p d && true).
  - inversion Hp as [|? ? Hc Hp']; subst. rewrite Hc. simpl.
    rewrite (Hk ps c (pre ++ rs')) by now left.
    replace (if lo <=? cnt then None else None) with (@None A) by now destruct (lo <=? cnt).
    apply IH; auto; [lia|]. now rewrite Nat.add_succ_r in Ka.
Qed.

(** A group around a run of a class, followed by more of the pattern. *)
Lemma rmatch_cat_grp_rep {A : Type} (n : nat) (p : char -> bool) (lo : nat)
    (hi : option nat) (g : bool) (x : regex) (s : mstate) (k : mstate -> option A) :
  rmatch (Cat (Grp n (Rep p lo hi g)) x) s k
  = rep_go p lo hi g 0 (pos s) (rest s)
      (fun ps rs =>
         rmatch x (MState ps rs ((n, firstn (ps - pos s) (rest s)) :: caps s)) k).
Proof. reflexivity. Qed.

Lemma cat_grp_rep_class {A : Type} (n : nat) (p : char -> bool) (lo : nat)
    (hi : option nat) (g : bool) (x : regex) (s : mstate) (k : mstate -> option A)
    (a : A) :
  rmatch (Cat (Grp n (Rep p lo hi g)) x) s k = Some a ->
  exists w rs', rest s = w ++ rs' /\ Forall (fun c => p c = true) w /\ lo <= length w
                /\ rmatch x (MState (pos s + length w) rs' ((n, w) :: caps s)) k = Some a.
Proof.
  rewrite rmatch_cat_grp_rep. intros H.
  apply rep_go_class in H as [w [rs' [E [Fw [L H]]]]].
  exists w, rs'. rewrite E, ReFacts.firstn_consumed in H. auto.
Qed.

Lemma cat_lit_inv {A : Type} (l : str) (x : regex) (s : mstate) (k : mstate -> option A)
    (a : A) :
  rmatch (Cat (Lit l) x) s k = Some a -> exists t, rest s = l ++ t.
Proof.
  simpl. destruct (strip_prefix l (rest s)) as [t|] eqn:E; [|discriminate].
  intros _. exists t. now apply ReFacts.strip_prefix_app.
Qed.

Lemma rep_go_ext_suffix {A : Type} (p : char -> bool) (lo : nat) (hi : option nat)
    (g : bool) (rs : str) :
  forall (cnt ps : nat) (k1 k2 : nat -> str -> option A),
    (forall ps' w rs', rs = w ++ rs' -> k1 ps' rs' = k2 ps' rs') ->
    rep_go p lo hi g cnt ps rs k1 = rep_go p lo hi g cnt ps rs k2.
Proof.
  induction rs as [|c rs IH]; intros cnt ps k1 k2 E; simpl.
  - now rewrite (E ps [] []).
  - rewrite (IH (S cnt) (S ps) k1 k2), (E ps [] (c :: rs)); [reflexivity..|].
    intros ps' w rs' ->. now apply (E ps' (c :: w)).
Qed.

(** The end of the three patterns built around a reading: the reading as
    group 2, the rest of the text as group 3. *)
Lemma rmatch_reading_tail (g : bool) (k : str) (ps : nat) (rs : str)
    (cs : list (nat * str)) :
  no_line_feed rs ->
  rmatch (cat [Grp 2 (Lit k); Grp 3 (Rep dot 0 None g); Eol]) (MState ps rs cs)
         (fun x => Some x)
  = if PyStr.startswith k rs
    then Some (MState (ps + length k + length (skipn (length k) rs) + 0) []
                      ((3, skipn (length k) rs) :: (2, k) :: cs))
    else None.
Proof.
  intros N.
  change (cat [Grp 2 (Lit k); Grp 3 (Rep dot 0 None g); Eol])
    with (Cat (Grp 2 (Lit k)) (cat [Grp 3 (Rep dot 0 None g); Eol])).
  rewrite ReOrder.rmatch_cat_grp, ReOrder.rmatch_lit. cbn [pos rest caps].
  destruct (PyStr.startswith k rs) eqn:Sw; [|reflexivity].
  apply PyStrFacts.startswith_prefix in Sw as [t ->].
  rewrite rmatch_tail_group; cbn [pos rest caps].
  - now rewrite ReFacts.firstn_consumed.
  - rewrite skipn_app, skipn_all, Nat.sub_diag. simpl.
    apply no_line_feed_app in N. tauto.
Qed.

End ReScan.

Lemma no_line_feed_suffix (w rs : str) : no_line_feed (w ++ rs) -> no_line_feed rs.
Proof. intros N. apply no_line_feed_app in N. tauto. Qed.

(** The match of the pattern of the left edge, and of the middle: the lazy
    first group ends before the first occurrence of the reading. *)
Lemma match_from_left (g : bool) (k furigana : str) (i : nat) :
  no_line_feed furigana ->
  PyStr.find k furigana = Some i ->
  exists st en g0,
    Re.finditer
      (Re.cat [ Re.Bol; Re.Grp 1 (Re.Rep Re.dot 0 None false); Re.Grp 2 (Re.Lit k);
                Re.Grp 3 (Re.Rep Re.dot 0 None g); Re.Eol ]) furigana
    = [ Re.Text [];
        Re.Match (Re.ReMatch st en g0
                    [(3, skipn (i + length k) furigana); (2, k); (1, firstn i furigana)]);
        Re.Text [] ].
Proof.
  intros N F.
  set (r := Re.cat [ Re.Bol; Re.Grp 1 (Re.Rep Re.dot 0 None false); Re.Grp 2 (Re.Lit k);
                     Re.Grp 3 (Re.Rep Re.dot 0 None g); Re.Eol ]).
  assert (M : Re.rmatch r (Re.MState 0 furigana []) (fun x => Some x)
              = Some (Re.MState (i + length k + length (skipn (length k) (skipn i furigana)) + 0)
                        []
                        [(3, skipn (i + length k) furigana); (2, k); (1, firstn i furigana)])).
  { change (Re.rmatch r (Re.MState 0 furigana []) (fun x => Some x))
      with (Re.rep_go Re.dot 0 None false 0 0 furigana
              (fun ps rs =>
                 Re.rmatch (Re.cat [Re.Grp 2 (Re.Lit k); Re.Grp 3 (Re.Rep Re.dot 0 None g);
                                    Re.Eol])
                           (Re.MState ps rs [(1, firstn (ps - 0) furigana)])
                           (fun x => Some x))).
    rewrite (@ReScan.rep_go_ext_suffix Re.mstate Re.dot 0 None false furigana 0 0 _
               (fun ps rs =>
                  if PyStr.startswith k rs
                  then Some (Re.MState (ps + length k + length (skipn (length k) rs) + 0) []
                               [(3, skipn (length k) rs); (2, k);
                                (1, firstn (ps - 0) furigana)])
                  else None)).
    - rewrite ReScan.rep_lazy_first by exact N.
      unfold PyStr.find in F. rewrite F. simpl option_map.
      now rewrite !Nat.sub_0_r, skipn_skipn, (Nat.add_comm (length k) i).
    - intros ps' w rs' E. apply ReScan.rmatch_reading_tail.
      rewrite E in N. now apply no_line_feed_suffix in N. }
  pose proof (@ReScan.finditer_whole r furigana _ M eq_refl) as E.
  eexists _, _, _. apply E. clear E.
  cbn [Re.pos]. set (p := _ + 0). destruct (p =? 0) eqn:Z; cbn [Re.search].
  - apply Nat.eqb_eq in Z. rewrite Z. now rewrite ReScan.rmatch_must_advance.
  - subst r. unfold Re.cat. cbn [fold_right Re.rmatch Re.pos]. now rewrite Z.
Qed.

(** The match of the pattern of the right edge: the greedy first group ends
    before the last occurrence of the reading. *)
Lemma match_from_right (k pre post : str) :
  k <> [] ->
  no_line_feed (pre ++ k ++ post) ->
  PyStr.contains k (tl (k ++ post)) = false ->
  exists st en g0,
    Re.finditer
      (Re.cat [ Re.Grp 1 (Re.Rep Re.dot 0 None true); Re.Grp 2 (Re.Lit k);
                Re.Grp 3 (Re.Rep Re.dot 0 None false); Re.Eol ]) (pre ++ k ++ post)
    = [ Re.Text [];
        Re.Match (Re.ReMatch st en g0 [(3, post); (2, k); (1, pre)]);
        Re.Text [] ].
Proof.
  intros NE N Last.
  set (furigana := pre ++ k ++ post) in *.
  set (r := Re.cat [ Re.Grp 1 (Re.Rep Re.dot 0 None true); Re.Grp 2 (Re.Lit k);
                     Re.Grp 3 (Re.Rep Re.dot 0 None false); Re.Eol ]).
  assert (M : Re.rmatch r (Re.MState 0 furigana []) (fun x => Some x)
              = Some (Re.MState (0 + length pre + length k
                                 + length (skipn (length k) (k ++ post)) + 0)
                        [] [(3, post); (2, k); (1, pre)])).
  { change (Re.rmatch r (Re.MState 0 furigana []) (fun x => Some x))
      with (Re.rep_go Re.dot 0 None true 0 0 furigana
              (fun ps rs =>
                 Re.rmatch (Re.cat [Re.Grp 2 (Re.Lit k);
                                    Re.Grp 3 (Re.Rep Re.dot 0 None false); Re.Eol])
                           (Re.MState ps rs [(1, firstn (ps - 0) furigana)])
                           (fun x => Some x))).
    rewrite (@ReScan.rep_go_ext_suffix Re.mstate Re.dot 0 None true furigana 0 0 _
               (fun ps rs =>
                  if PyStr.startswith k rs
                  then Some (Re.MState (ps + length k + length (skipn (length k) rs) + 0) []
                               [(3, skipn (length k) rs); (2, k);
                                (1, firstn (ps - 0) furigana)])
                  else None)).
    - unfold furigana at 1.
      rewrite ReScan.rep_greedy_last; try assumption.
      + rewrite Nat.sub_0_r. simpl (0 + _). unfold furigana.
        rewrite firstn_app, firstn_all, Nat.sub_diag. simpl firstn. rewrite app_nil_r.
        now rewrite skipn_app, skipn_all, Nat.sub_diag.
      + apply no_line_feed_app in N. tauto.
    - intros ps' w rs' E. apply ReScan.rmatch_reading_tail.
      rewrite E in N. now apply no_line_feed_suffix in N. }
  pose proof (@ReScan.finditer_whole r furigana _ M eq_refl) as E.
  eexists _, _, _. apply E. clear E.
  cbn [Re.pos]. destruct k as [|c k]; [congruence|].
  destruct (_ =? 0); reflexivity.
Qed.

Section Emphasis.

Variable host : Host.

(** X1.  Away from the right edge the reading is emphasised where it first
    occurs in the gloss: what stands before it and after it is put out as it
    is, and the onyomi pass puts the reading out in katakana.  The reading is
    put into the pattern as it is, so this is for a reading without pattern
    operators and a gloss of one line; nothing is raised then. *)
Theorem reading_emphasised_at_first_occurrence (furigana k : str) (edge : option Edge)
    (i : nat) :
  no_line_feed furigana ->
  plain_reading k ->
  is_edge RIGHT edge = false ->
  PyStr.find k furigana = Some i ->
  replace_kunyomi_match host furigana k edge
  = ret (MainResult.mk (firstn i furigana ++ b_open ++ k ++ b_close
                        ++ skipn (i + length k) furigana) T_kunyomi)
  /\ replace_onyomi_match host furigana k edge
     = ret (firstn i furigana ++ b_open ++ to_katakana host k ++ b_close
            ++ skipn (i + length k) furigana).
Proof.
  intros N P R F.
  rewrite (@replace_kunyomi_match_plain host _ _ _ P),
    (@replace_onyomi_match_plain host _ _ _ P).
  unfold edge_pattern. rewrite R.
  unfold pattern_from_left, pattern_from_middle, Re.sub.
  destruct (is_edge LEFT edge).
  - destruct (@match_from_left true k furigana i N F) as [st [en [g0 ->]]].
    split; simpl; now rewrite !app_nil_r.
  - destruct (@match_from_left false k furigana i N F) as [st [en [g0 ->]]].
    split; simpl; now rewrite !app_nil_r.
Qed.

(** X2.  At the right edge the reading is emphasised where it last occurs
    in the gloss: [pre ++ k ++ post] with no later occurrence of [k]
    becomes [pre], the emphasised reading and [post]. *)
Theorem reading_emphasised_at_last_occurrence (k pre post : str) :
  k <> [] ->
  no_line_feed (pre ++ k ++ post) ->
  plain_reading k ->
  PyStr.contains k (tl (k ++ post)) = false ->
  replace_kunyomi_match host (pre ++ k ++ post) k (Some RIGHT)
  = ret (MainResult.mk (pre ++ b_open ++ k ++ b_close ++ post) T_kunyomi)
  /\ replace_onyomi_match host (pre ++ k ++ post) k (Some RIGHT)
     = ret (pre ++ b_open ++ to_katakana host k ++ b_close ++ post).
Proof.
  intros NE N P Last.
  rewrite (@replace_kunyomi_match_plain host _ _ _ P),
    (@replace_onyomi_match_plain host _ _ _ P).
  unfold edge_pattern. cbn [is_edge]. unfold pattern_from_right, Re.sub.
  destruct (@match_from_right k pre post NE N Last) as [st [en [g0 ->]]].
  split; simpl; now rewrite !app_nil_r.
Qed.

End Emphasis.

(* ------------------------------------------------------------------ *)
(** ** The annotation of an onyomi entry *)

Lemma find_from_char (c : char) (a t : str) (ps : nat) :
  ~ In c a -> PyStr.find_from [c] (a ++ c :: t) ps = Some (ps + length a).
Proof.
  revert ps. induction a as [|d a IH]; intros ps NI; simpl.
  - rewrite N.eqb_refl. simpl. now rewrite Nat.add_0_r.
  - destruct (N.eqb_spec c d) as [->|NE]; [simpl in NI; tauto|]. simpl.
    rewrite IH by (simpl in NI; tauto). now rewrite Nat.add_succ_r.
Qed.

(** The search goes over the characters with which no match can start. *)
Lemma search_skip (r : Re.regex) (w rs : str) :
  (forall ma p c t, In c w ->
      Re.rmatch r (Re.MState p (c :: t) [])
        (fun s' => if ma && (Re.pos s' =? p) then None else Some s') = None) ->
  forall ma p,
    Re.search r ma p (w ++ rs)
    = match w with
      | [] => Re.search r ma p rs
      | _ :: _ => Re.search r false (p + length w) rs
      end.
Proof.
  intros H. induction w as [|c w IH]; intros ma p; [reflexivity|].
  cbn [app Re.search]. rewrite (H ma p c (w ++ rs)) by now left.
  rewrite IH by (intros; apply H; now right).
  destruct w; f_equal; simpl; lia.
Qed.

Section Annotation.

Variable host : Host.

Lemma annotation_match (a : str) (p : nat) :
  ~ In 41%N a ->
  no_line_feed a ->
  exists s',
    Re.rmatch (Re.cat [Re.Lit [40%N]; Re.Rep Re.dot 0 None false; Re.Lit [41%N]])
      (Re.MState p (40%N :: a ++ [41%N]) []) (fun x => Some x) = Some s'
    /\ Re.rest s' = [] /\ Re.pos s' <> p.
Proof.
  intros NI N.
  change (Re.rmatch (Re.cat [Re.Lit [40%N]; Re.Rep Re.dot 0 None false; Re.Lit [41%N]])
            (Re.MState p (40%N :: a ++ [41%N]) []) (fun x => Some x))
    with (Re.rep_go Re.dot 0 None false 0 (p + 1) (a ++ [41%N])
            (fun ps rs =>
               Re.rmatch (Re.cat [Re.Lit [41%N]]) (Re.MState ps rs []) (fun x => Some x))).
  rewrite (@ReScan.rep_go_ext Re.mstate Re.dot 0 None false (a ++ [41%N]) 0 (p + 1) _
             (fun ps rs =>
                if PyStr.startswith [41%N] rs
                then Some (Re.MState (ps + 1 + 0) (skipn 1 rs) [])
                else None)).
  - rewrite ReScan.rep_lazy_first.
    + rewrite find_from_char by exact NI. simpl option_map.
      eexists. split; [reflexivity|]. cbn [Re.rest Re.pos].
      replace (p + 1 + length a - (p + 1)) with (length a) by lia.
      rewrite skipn_app, skipn_all, Nat.sub_diag. simpl. split; [reflexivity | lia].
    + unfold no_line_feed in *. apply Forall_app. split; [exact N|].
      now repeat constructor.
  - intros ps' rs'. unfold Re.cat. cbn [fold_right].
    change (Re.rmatch (Re.Cat (Re.Lit [41%N]) (Re.Lit [])) (Re.MState ps' rs' [])
              (fun x => Some x))
      with (Re.rmatch (Re.Lit [41%N]) (Re.MState ps' rs' [])
              (fun s1 => Some (Re.MState (Re.pos s1 + 0) (Re.rest s1) (Re.caps s1)))).
    rewrite ReOrder.rmatch_lit. reflexivity.
Qed.

(** X3.  An entry made of a reading and one parenthesised annotation is read as
    the reading alone. *)
Theorem onyomi_annotation_is_dropped (reading annotation : str) :
  ~ In 40%N reading ->
  ~ In 41%N annotation ->
  no_line_feed annotation ->
  clean_onyomi_reading host (reading ++ [40%N] ++ annotation ++ [41%N])
  = to_hiragana host (PyStr.strip reading).
Proof.
  intros NR NA N. unfold clean_onyomi_reading. do 2 f_equal.
  unfold Re.sub, Re.finditer.
  set (r := Re.cat [Re.Lit [40%N]; Re.Rep Re.dot 0 None false; Re.Lit [41%N]]).
  cbn [Re.segments].
  assert (Skip : forall ma p c t, In c reading ->
             Re.rmatch r (Re.MState p (c :: t) [])
               (fun s' => if ma && (Re.pos s' =? p) then None else Some s') = None).
  { intros ma p c t Hc. unfold r, Re.cat. cbn [fold_right Re.rmatch Re.rest Re.strip_prefix].
    destruct (N.eqb_spec 40 c) as [<-|NE]; [contradiction | reflexivity]. }
  rewrite (search_skip r reading _ Skip).
  simpl app.
  destruct (@annotation_match annotation
              (match reading with [] => 0 | _ :: _ => 0 + length reading end) NA N)
    as [s' [M [R P]]].
  assert (S1 : forall p, p = match reading with [] => 0 | _ :: _ => 0 + length reading end ->
             Re.search r false p (40%N :: annotation ++ [41%N]) = Some (p, s')).
  { intros p ->. cbn [Re.search]. cbn [andb]. fold r in M. now rewrite M. }
  assert (End : forall ma p, Re.segments (2 * S (length (reading ++ 40%N :: annotation ++ [41%N])))
                               r ma p [] = [Re.Text []]).
  { intros ma p. apply ReScan.segments_none. reflexivity. }
  destruct reading as [|c reading].
  - rewrite (S1 0 eq_refl), R, End. simpl. reflexivity.
  - rewrite (S1 _ eq_refl), R, End. simpl.
    rewrite firstn_app, firstn_all, Nat.sub_diag. simpl. now rewrite !app_nil_r.
Qed.

End Annotation.

(* ------------------------------------------------------------------ *)
(** ** Texts with one unit and with none *)

Lemma replace_go_absent (old new s : str) :
  forall i, PyStr.find_from old s i = None -> PyStr.replace_go old new s 0 None = s.
Proof.
  induction s as [|c s IH]; intros i; simpl; [reflexivity|].
  destruct (PyStr.startswith old (c :: s)); [discriminate|].
  intros H. now rewrite (IH _ H).
Qed.

Lemma replace_absent (old new s : str) :
  PyStr.contains old s = false -> PyStr.replace old new s = s.
Proof.
  unfold PyStr.contains, PyStr.find, PyStr.replace.
  destruct (PyStr.find_from old s 0) eqn:E; [discriminate|].
  intros _. now apply replace_go_absent with (i := 0).
Qed.

Lemma find_from_none_suffix (k w rs : str) :
  forall i, (forall v t, w ++ rs = v ++ t -> PyStr.startswith k t = false) ->
            PyStr.find_from k (w ++ rs) i = None.
Proof.
  induction w as [|c w IH]; intros i H.
  - simpl. induction rs as [|c rs IH] in i, H |- *; simpl.
    + now rewrite (H [] []).
    + rewrite (H [] (c :: rs)) by reflexivity. apply IH.
      intros v t E. apply (H (c :: v) t). simpl in *. now rewrite E.
  - simpl. rewrite (H [] (c :: w ++ rs)) by reflexivity. apply IH.
    intros v t E. apply (H (c :: v) t). simpl. now rewrite E.
Qed.

Lemma contains_false_suffix (k s : str) :
  (forall v t, s = v ++ t -> PyStr.startswith k t = false) -> PyStr.contains k s = false.
Proof.
  intros H. unfold PyStr.contains, PyStr.find.
  rewrite <- (app_nil_r s). rewrite find_from_none_suffix; [reflexivity|].
  intros v t E. apply (H v t). now rewrite app_nil_r in E.
Qed.

Lemma sub_segments_text (t : str) (repl : Re.rematch -> M str) :
  sub_segments [Re.Text t] repl = ret t.
Proof. cbn [sub_segments]. rewrite !bind_ret_l. now rewrite app_nil_r. Qed.

Lemma bind_ret_r (c : M str) : (x <- c ;; ret (x ++ [])) = c.
Proof.
  destruct c as [[x|e] out]; simpl; [|reflexivity].
  now rewrite !app_nil_r.
Qed.

Lemma sub_segments_one (m : Re.rematch) (repl : Re.rematch -> M str) :
  sub_segments [Re.Text []; Re.Match m; Re.Text []] repl = repl m.
Proof.
  cbn [sub_segments]. rewrite !bind_ret_l. cbn [app].
  destruct (repl m) as [[x|e] out]; simpl; [|reflexivity].
  now rewrite !app_nil_r.
Qed.

Section Units.

Variable host : Host.

Lemma kanji_not_hiragana (c : char) :
  decimal_is_no_kana host -> kanji_class host c = true -> hiragana_class c = false.
Proof.
  intros D. unfold kanji_class. intros H.
  destruct (isdecimal host c) eqn:E; [now apply D|].
  simpl in H. unfold hiragana_class, in_range in *.
  destruct (N.eqb_spec c 0x3005%N) as [->|_]; [reflexivity|]. simpl in H.
  apply orb_true_iff in H as [H|H]; apply andb_true_iff in H as [H1 H2];
    apply N.leb_le in H1, H2; apply andb_false_iff;
    right; apply N.leb_gt; lia.
Qed.

Lemma not_kanji (c : char) :
  decimal_is_no_kana host ->
  hiragana_class c = true \/ c = 91%N \/ c = 93%N ->
  kanji_class host c = false.
Proof.
  intros D H. unfold kanji_class.
  destruct (isdecimal host c) eqn:E.
  - destruct (D c E) as [H1 [H2 H3]]. destruct H as [H|[H|H]]; congruence.
  - simpl. unfold hiragana_class, in_range in *.
    destruct H as [H|[E1|E1]]; [|subst c; reflexivity..].
    apply andb_true_iff in H as [H1 H2]. apply N.leb_le in H1, H2.
    repeat (apply orb_false_iff; split).
    + apply N.eqb_neq. lia.
    + apply andb_false_iff. left. apply N.leb_gt. lia.
    + apply andb_false_iff. left. apply N.leb_gt. lia.
Qed.

(** No match of either pattern starts where the text has no kanji or the
    text to come has no opening bracket. *)
Lemma main_pattern_needs (p : nat) (rs : str) (K : Re.mstate -> option Re.mstate)
    (a : Re.mstate) :
  Re.rmatch (KANJI_AND_FURIGANA_AND_OKURIGANA_REC host) (Re.MState p rs []) K = Some a ->
  In 91%N rs /\ exists c t, rs = c :: t /\ kanji_class host c = true.
Proof.
  unfold KANJI_AND_FURIGANA_AND_OKURIGANA_REC, Re.cat. cbn [fold_right]. intros H.
  apply ReScan.cat_grp_rep_class in H as [w1 [r1 [E1 [F1 [L1 H]]]]].
  apply ReScan.cat_lit_inv in H as [t E]. simpl in E1, E. subst rs r1. split.
  - apply in_or_app. right. now left.
  - destruct w1 as [|c w1]; [simpl in L1; lia|].
    inversion F1; subst. now exists c, (w1 ++ [91%N] ++ t).
Qed.

Lemma mix_pattern_needs (p : nat) (rs : str) (K : Re.mstate -> option Re.mstate)
    (a : Re.mstate) :
  Re.rmatch (OKURIGANA_MIX_CLEANING_RE host) (Re.MState p rs []) K = Some a ->
  In 91%N rs
  /\ exists w1 d t, rs = w1 ++ d :: t /\ w1 <> [] /\ Forall (fun c => kanji_class host c = true) w1
                    /\ hiragana_class d = true.
Proof.
  unfold OKURIGANA_MIX_CLEANING_RE, Re.cat. cbn [fold_right]. intros H.
  apply ReScan.cat_grp_rep_class in H as [w1 [r1 [E1 [F1 [L1 H]]]]].
  apply ReScan.cat_grp_rep_class in H as [w2 [r2 [E2 [F2 [L2 H]]]]].
  apply ReScan.cat_grp_rep_class in H as [w3 [r3 [E3 [F3 [L3 H]]]]].
  apply ReScan.cat_grp_rep_class in H as [w4 [r4 [E4 [F4 [L4 H]]]]].
  apply ReScan.cat_lit_inv in H as [t E]. simpl in E1, E2, E3, E4, E.
  subst rs r1 r2 r3 r4. split.
  - rewrite !in_app_iff. do 4 right. now left.
  - destruct w2 as [|d w2]; [simpl in L2; lia|].
    inversion F2; subst.
    exists w1, d, (w2 ++ w3 ++ w4 ++ [91%N] ++ t).
    split; [reflexivity|]. split; [|auto].
    destruct w1; [simpl in L1; lia | discriminate].
Qed.

Lemma in_suffix (c : char) (w rs text : str) : text = w ++ rs -> In c rs -> In c text.
Proof. intros -> H. apply in_or_app. now right. Qed.

Lemma forall_suffix (P : char -> Prop) (w rs text : str) :
  text = w ++ rs -> Forall P text -> Forall P rs.
Proof. intros -> H. apply Forall_app in H. tauto. Qed.

(** X4.  A text without an opening square bracket, or without a kanji, holds no
    unit: it is returned as it is. *)
Theorem text_without_units_is_unchanged (kanji_to_highlight onyomi kunyomi text : str) :
  ~ In 91%N text \/ Forall (fun c => kanji_class host c = false) text ->
  kana_highlight host kanji_to_highlight onyomi kunyomi text = ret text.
Proof.
  intros H. unfold kana_highlight.
  assert (Mix : Re.sub (OKURIGANA_MIX_CLEANING_RE host)
                  (okurigana_mix_cleaning_replacer) text = text).
  { unfold Re.sub, Re.finditer. rewrite ReScan.segments_none.
    - simpl. apply app_nil_r.
    - apply ReScan.search_none. intros ma' p' rs' [w E].
      destruct (Re.rmatch _ _ _) as [a|] eqn:M; [|reflexivity].
      apply mix_pattern_needs in M as [B [w1 [d [t [E' [NE [F _]]]]]]].
      destruct H as [H|H].
      + exfalso. apply H. exact (@in_suffix _ _ _ _ E B).
      + apply (@forall_suffix _ _ _ _ E) in H. subst rs'.
        destruct w1 as [|c w1]; [congruence|].
        inversion F; subst. inversion H; subst. congruence. }
  rewrite Mix.
  assert (Sp : PyStr.replace (u "秘蔵[ひぞ]っ") (u "秘蔵[ひぞっ]") text = text).
  { apply replace_absent. apply contains_false_suffix. intros v t E.
    destruct (PyStr.startswith _ t) eqn:Sw; [|reflexivity].
    apply PyStrFacts.startswith_prefix in Sw as [t' ->].
    remember (u "秘蔵[ひぞ]っ") as sp eqn:Esp. vm_compute in Esp. subst sp.
    destruct H as [H|H].
    - exfalso. apply H. rewrite E. apply in_or_app. right. simpl. auto.
    - apply (@forall_suffix _ _ _ _ E) in H. inversion H as [|? ? Hc _]; subst.
      unfold kanji_class in Hc. simpl in Hc. now rewrite orb_true_r in Hc. }
  rewrite Sp.
  unfold Re.finditer. rewrite ReScan.segments_none.
  - apply sub_segments_text.
  - apply ReScan.search_none. intros ma' p' rs' [w E].
    destruct (Re.rmatch _ _ _) as [a|] eqn:M; [|reflexivity].
    apply main_pattern_needs in M as [B [c [t [E' K]]]].
    destruct H as [H|H].
    + exfalso. apply H. exact (@in_suffix _ _ _ _ E B).
    + apply (@forall_suffix _ _ _ _ E) in H. subst rs'. inversion H; subst. congruence.
Qed.


Lemma rmatch_cat {A : Type} (r1 r2 : Re.regex) (s : Re.mstate) (k : Re.mstate -> option A) :
  Re.rmatch (Re.Cat r1 r2) s k = Re.rmatch r1 s (fun s1 => Re.rmatch r2 s1 k).
Proof. reflexivity. Qed.

Lemma firstn_exact (w rs : str) : firstn (length w) (w ++ rs) = w.
Proof. rewrite firstn_app, firstn_all, Nat.sub_diag. simpl. apply app_nil_r. Qed.

(** The match of the main pattern on the text of one unit. *)
Lemma main_pattern_match (w f o : str) :
  isdecimal host 91%N = false ->
  w <> [] -> Forall (fun c => kanji_class host c = true) w ->
  f <> [] -> ~ In 93%N f -> no_line_feed f ->
  Forall (fun c => hiragana_class c = true) o ->
  Re.rmatch (KANJI_AND_FURIGANA_AND_OKURIGANA_REC host)
    (Re.MState 0 (unit_text w f o) []) (fun x => Some x)
  = Some (Re.MState (length (unit_text w f o)) [] [(3, o); (2, f); (1, w)]).
Proof.
  intros D Hw Kw Hf Bf Nf Ho.
  unfold KANJI_AND_FURIGANA_AND_OKURIGANA_REC, Re.cat, unit_text. cbn [fold_right].
  rewrite ReScan.rmatch_cat_grp_rep. cbn [Re.pos Re.rest Re.caps].
  apply ReScan.rep_greedy_all.
  - exact Kw.
  - simpl. unfold kanji_class. rewrite D. reflexivity.
  - destruct w; [congruence | simpl; lia].
  - rewrite rmatch_cat, ReOrder.rmatch_lit. cbn [Re.pos Re.rest Re.caps].
    cbn [PyStr.startswith app N.eqb Pos.eqb andb length skipn].
    rewrite ReScan.rmatch_cat_grp_rep. cbn [Re.pos Re.rest Re.caps].
    apply ReScan.rep_lazy_hit.
    + revert Nf. apply Forall_impl. intros c Hc. unfold Re.dot. now rewrite Hc.
    + intros ps' c t Hc. rewrite rmatch_cat, ReOrder.rmatch_lit.
      cbn [Re.rest PyStr.startswith].
      destruct (N.eqb_spec 93 c) as [<-|NE]; [contradiction | reflexivity].
    + destruct f; [congruence | simpl; lia].
    + rewrite rmatch_cat, ReOrder.rmatch_lit. cbn [Re.pos Re.rest Re.caps].
      cbn [PyStr.startswith app N.eqb Pos.eqb andb length skipn].
      rewrite ReScan.rmatch_cat_grp_rep. cbn [Re.pos Re.rest Re.caps].
      rewrite <- (app_nil_r o) at 1.
      apply ReScan.rep_greedy_all; [exact Ho | exact I | lia |].
      cbn [Re.rmatch Re.rest Re.strip_prefix Re.pos Re.caps length].
      do 2 f_equal.
      * repeat (rewrite length_app; cbn [length]). lia.
      * rewrite !ReFacts.firstn_consumed.
        replace (_ - _) with (length o) by lia. now rewrite firstn_all.
Qed.

(** X5.  A unit is parsed into its word, its gloss and the kana that follow:
    the substitution finds one match, which is the whole text. *)
Theorem unit_is_parsed (word furigana okurigana : str) :
  isdecimal host 91%N = false ->
  word <> [] -> Forall (fun c => kanji_class host c = true) word ->
  furigana <> [] -> ~ In 93%N furigana -> no_line_feed furigana ->
  Forall (fun c => hiragana_class c = true) okurigana ->
  let text := unit_text word furigana okurigana in
  Re.finditer (KANJI_AND_FURIGANA_AND_OKURIGANA_REC host) text
  = [ Re.Text [];
      Re.Match (Re.ReMatch 0 (length text) text
                  [(3, okurigana); (2, furigana); (1, word)]);
      Re.Text [] ].
Proof.
  intros D Hw Kw Hf Bf Nf Ho text.
  pose proof (@main_pattern_match word furigana okurigana D Hw Kw Hf Bf Nf Ho) as M.
  fold text in M.
  rewrite (@ReScan.finditer_whole _ text _ M eq_refl).
  - cbn [Re.pos Re.caps]. now rewrite firstn_all.
  - reflexivity.
Qed.


(** The search goes over a stretch of the text from no place of which the
    pattern matches. *)
Lemma search_app_none (r : Re.regex) (w rs : str) :
  (forall v tw ma p, w = v ++ tw -> tw <> [] ->
      Re.rmatch r (Re.MState p (tw ++ rs) [])
        (fun s' => if ma && (Re.pos s' =? p) then None else Some s') = None) ->
  forall ma p,
    Re.search r ma p (w ++ rs)
    = match w with
      | [] => Re.search r ma p rs
      | _ :: _ => Re.search r false (p + length w) rs
      end.
Proof.
  induction w as [|c w IH]; intros H ma p; [reflexivity|].
  cbn [app Re.search].
  change (c :: w ++ rs) with ((c :: w) ++ rs).
  rewrite (H [] (c :: w) ma p eq_refl) by discriminate.
  rewrite IH.
  - destruct w; f_equal; simpl; lia.
  - intros v tw ma' p' E NE. apply (H (c :: v) tw); [now rewrite E | exact NE].
Qed.

Lemma split_class (P : char -> Prop) (x d : char) (w1 t rest : str) :
  forall tw, Forall P w1 -> ~ P x -> w1 ++ d :: t = tw ++ x :: rest -> In d tw \/ d = x.
Proof.
  induction w1 as [|a w1 IH]; intros tw F NP E.
  - destruct tw as [|c tw]; simpl in E; injection E as -> _; [now right | left; now left].
  - inversion F as [|? ? Pa F']; subst. destruct tw as [|c tw]; simpl in E.
    + injection E as -> _. contradiction.
    + injection E as -> E. destruct (IH tw F' NP E) as [H|H]; [left; now right | now right].
Qed.

(** The cleaning pattern finds nothing in the text of a unit whose word is
    made of kanji only. *)
Lemma mix_pattern_absent (w f o : str) :
  decimal_is_no_kana host ->
  Forall (fun c => kanji_class host c = true) w ->
  Forall (fun c => hiragana_class c = true) f ->
  Forall (fun c => hiragana_class c = true) o ->
  Re.sub (OKURIGANA_MIX_CLEANING_RE host) okurigana_mix_cleaning_replacer (unit_text w f o)
  = unit_text w f o.
Proof.
  intros D Kw Hf Ho.
  assert (NK : Forall (fun c => kanji_class host c = false) ([91%N] ++ f ++ [93%N] ++ o)).
  { repeat (apply Forall_app; split); try (repeat constructor; apply not_kanji; auto; fail).
    - revert Hf. apply Forall_impl. intros c Hc. apply not_kanji; auto.
    - revert Ho. apply Forall_impl. intros c Hc. apply not_kanji; auto. }
  assert (Tail : forall ma p, Re.search (OKURIGANA_MIX_CLEANING_RE host) ma p
                                ([91%N] ++ f ++ [93%N] ++ o) = None).
  { intros ma p. apply ReScan.search_none. intros ma' p' rs' [v E].
    destruct (Re.rmatch _ _ _) as [a|] eqn:M; [|reflexivity].
    apply mix_pattern_needs in M as [_ [w1 [d [t [E' [NE [F _]]]]]]].
    apply (@forall_suffix _ _ _ _ E) in NK. subst rs'.
    destruct w1 as [|c w1]; [congruence|].
    inversion F; subst. inversion NK; subst. congruence. }
  unfold Re.sub, Re.finditer, unit_text. rewrite ReScan.segments_none.
  - simpl. apply app_nil_r.
  - rewrite search_app_none.
    + destruct w; apply Tail.
    + intros v tw ma p E NE.
      destruct (Re.rmatch _ _ _) as [a|] eqn:M; [|reflexivity].
      apply mix_pattern_needs in M as [_ [w1 [d [t [E' [_ [F Hd]]]]]]].
      symmetry in E'. cbn [app] in E'.
      apply (@split_class (fun c => kanji_class host c = true) 91%N d w1 t _ tw F) in E'.
      * destruct E' as [In_d | Ed]; [|subst d; discriminate].
        assert (Kd : kanji_class host d = true).
        { rewrite E in Kw. apply Forall_app in Kw as [_ Kw].
          rewrite Forall_forall in Kw. now apply Kw. }
        apply (@kanji_not_hiragana d D) in Kd. congruence.
      * rewrite not_kanji; auto.
Qed.

(** X6.  On the text of one unit whose word is made of kanji and whose gloss
    is hiragana, and in which the string 秘蔵[ひぞ]っ of the special case
    does not occur, [kana_highlight] is the replacer applied to the three
    parts of the unit: the cleaning of mixed words leaves such a text as it
    is, the special case does not apply, and the substitution finds the one
    match. *)
Theorem single_unit_goes_to_the_replacer
    (kanji_to_highlight onyomi kunyomi word furigana okurigana : str) :
  decimal_is_no_kana host ->
  word <> [] -> Forall (fun c => kanji_class host c = true) word ->
  furigana <> [] -> Forall (fun c => hiragana_class c = true) furigana ->
  Forall (fun c => hiragana_class c = true) okurigana ->
  let text := unit_text word furigana okurigana in
  PyStr.contains (u "秘蔵[ひぞ]っ") text = false ->
  kana_highlight host kanji_to_highlight onyomi kunyomi text
  = furigana_replacer host (HighlightArgs.mk text onyomi kunyomi kanji_to_highlight)
      (Re.ReMatch 0 (length text) text [(3, okurigana); (2, furigana); (1, word)]).
Proof.
  intros D Hw Kw Hf Ff Fo text Sp. unfold kana_highlight. fold text.
  unfold text at 1. rewrite (@mix_pattern_absent word furigana okurigana D Kw Ff Fo). fold text.
  rewrite (@replace_absent _ _ _ Sp).
  assert (Dec : isdecimal host 91%N = false).
  { destruct (isdecimal host 91%N) eqn:E; [|reflexivity].
    destruct (D _ E) as [_ [H _]]. congruence. }
  assert (Br : ~ In 93%N furigana).
  { intros H. rewrite Forall_forall in Ff. apply Ff in H. discriminate. }
  assert (Nf : no_line_feed furigana) by now apply hiragana_no_line_feed.
  pose proof (@main_pattern_match word furigana okurigana Dec Hw Kw Hf Br Nf Fo) as M.
  fold text in M.
  rewrite (@ReScan.finditer_whole _ text _ M eq_refl) by reflexivity.
  cbn [Re.pos Re.caps]. rewrite firstn_all. apply sub_segments_one.
Qed.

End Units.

(* ------------------------------------------------------------------ *)
(** ** Whole words, trailing kana and the fallback *)

Section WholeWord.

Variable host : Host.

Lemma onyomi_loop_hit (readings : list str) (target entry : str) :
  In entry readings ->
  PyStr.contains (clean_onyomi_reading host entry) target = true ->
  exists m, onyomi_loop host readings target = ret (Some m).
Proof.
  intros I C.
  destruct (@onyomi_loop_first host target readings entry _ I
              (@onyomi_reading_match_plain host _ _ C))
    as [pre [e [post [m [_ [_ [L _]]]]]]].
  now exists m.
Qed.

(** X7.  For a word that is the kanji alone, an onyomi entry whose reading occurs
    anywhere in the gloss decides the unit: the whole gloss is put out in
    katakana inside one pair of markers, the trailing kana follow as they
    are, and the kunyomi list is not looked at.  An entry that is empty once
    cleaned occurs in every gloss. *)
Theorem onyomi_anywhere_in_gloss_decides
    (highlight_args : HighlightArgs.t) (word furigana okurigana entry : str) :
  In entry (PyStr.split comma (HighlightArgs.onyomi highlight_args)) ->
  PyStr.contains (clean_onyomi_reading host entry) furigana = true ->
  handle_whole_kanji_case host highlight_args word furigana okurigana
  = ret (b_open ++ to_katakana host furigana ++ b_close ++ okurigana).
Proof.
  intros I C. unfold handle_whole_kanji_case, process_readings.
  cbn [WordData.furigana WordData.edge WordData.okurigana get_target_furigana_section].
  rewrite bind_ret_l. unfold check_onyomi_readings.
  apply (proj2 (sort_by_len_reverse_In _ _)) in I.
  destruct (onyomi_loop_hit _ _ _ I C) as [m ->].
  rewrite !bind_ret_l. cbn [is_type MainResult.type].
  rewrite !bind_ret_l. cbn [subscript]. rewrite bind_ret_l. reflexivity.
Qed.

(** X8.  A unit whose gloss does not start with [sound:], whose word is the
    kanji alone or the kanji and the repeater, and whose trailing kana hold
    no line feed, is emphasised as a whole and nothing is raised: the
    replacer returns the gloss in katakana inside markers with the trailing
    kana after it, or the gloss as it is together with the first part of the
    trailing kana inside markers and the rest after it. *)
Theorem whole_word_unit_is_emphasised (highlight_args : HighlightArgs.t) (m : Re.rematch) :
  let kanji_to_highlight := HighlightArgs.kanji_to_highlight highlight_args in
  let furigana := Re.group m 2 in
  let okurigana := Re.group m 3 in
  PyStr.startswith sound_prefix furigana = false ->
  Re.group m 1 = kanji_to_highlight \/ Re.group m 1 = kanji_to_highlight ++ repeater ->
  no_line_feed okurigana ->
  exists inner rest_kana,
    furigana_replacer host highlight_args m
    = ret (b_open ++ inner ++ b_close ++ rest_kana)
    /\ ((inner = to_katakana host furigana /\ rest_kana = okurigana)
        \/ exists okurigana_to_highlight,
             inner = furigana ++ okurigana_to_highlight
             /\ okurigana_to_highlight ++ rest_kana = okurigana).
Proof.
  intros k furigana okurigana S W N. unfold furigana_replacer.
  fold furigana okurigana k. rewrite S.
  assert (Wb : PyStr.eqb (Re.group m 1) k || PyStr.eqb (Re.group m 1) (k ++ repeater) = true).
  { apply orb_true_iff. destruct W as [W|W]; [left | right]; now apply PyStrFacts.eqb_eq. }
  rewrite Wb. unfold handle_whole_kanji_case.
  set (wd := WordData.mk (Some 0) (Some 1) (Re.group m 1) furigana okurigana (Some WHOLE)).
  destruct (@process_readings_total host highlight_args wd true WHOLE 1 0
              eq_refl eq_refl eq_refl ltac:(lia) (or_introl eq_refl))
    as [r [hl [rest_kana E]]].
  rewrite E, bind_ret_l. cbn [subscript]. rewrite bind_ret_l.
  pose proof (@process_readings_cases host highlight_args wd true WHOLE _ _ eq_refl E) as Cases.
  cbv zeta in Cases. cbn [WordData.furigana WordData.okurigana wd] in Cases.
  pose proof (@okurigana_loop_partition host wd highlight_args
                (PyStr.split comma (HighlightArgs.kunyomi highlight_args)) N [] okurigana
                eq_refl) as Part.
  cbn [WordData.okurigana wd] in Part.
  destruct Cases as [[mm [text [_ [_ [_ [R _]]]]]]
                     | [[mm [r' [_ [_ [_ [Tr [_ [R _]]]]]]]]
                        | [[_ [_ [R _]]] | [_ [_ [r' [R T]]]]]]];
    [| rewrite Tr in R | |]; injection R as -> -> ->; cbn [is_type MainResult.type].
  - eexists _, _. split; [reflexivity|]. now left.
  - eexists (furigana ++ _), _. split; [now rewrite <- app_assoc|].
    right. eexists. split; [reflexivity | exact Part].
  - eexists (furigana ++ _), _. split; [now rewrite <- app_assoc|].
    right. eexists. split; [reflexivity | exact Part].
  - destruct (MainResult.type r') eqn:Ty; [congruence| |]; cbn [is_type];
      (eexists (furigana ++ []), _; split; [now rewrite <- app_assoc|]; right; exists [];
       split; reflexivity).
Qed.

(** Outside the right edge and the whole word the loop over the kunyomi
    entries leaves the trailing kana alone. *)
Lemma okurigana_loop_off_edge (readings : list str) (word_data : WordData.t)
    (highlight_args : HighlightArgs.t) :
  is_edge RIGHT (WordData.edge word_data) || is_edge WHOLE (WordData.edge word_data) = false ->
  okurigana_loop host readings word_data highlight_args [] (WordData.okurigana word_data)
  = ([], WordData.okurigana word_data).
Proof.
  intros E. induction readings as [|next readings IH]; [reflexivity|].
  cbn [okurigana_loop]. destruct next as [|c next]; [reflexivity|].
  destruct (PyStr.split period (c :: next)) as [|a [|b [|d l]]]; try exact IH.
  unfold check_okurigana_for_kunyomi_inflection. rewrite E. cbn [negb fst snd]. exact IH.
Qed.

(** X9.  Trailing kana are emphasised only after a match of the kunyomi pass and
    only for a unit at the right edge or one that is the whole word. *)
Theorem trailing_kana_emphasis_needs_kunyomi
    (highlight_args : HighlightArgs.t) (word_data : WordData.t) (flag : bool) (e : Edge)
    (r : MainResult.t) (okurigana_to_highlight rest_kana : str) (out : list str) :
  WordData.edge word_data = Some e ->
  process_readings host highlight_args word_data flag
  = (Ok (inl r, okurigana_to_highlight, rest_kana), out) ->
  okurigana_to_highlight <> [] ->
  (e = RIGHT \/ e = WHOLE)
  /\ MainResult.type r = T_kunyomi
  /\ check_onyomi_readings host (HighlightArgs.onyomi highlight_args)
       (WordData.furigana word_data) (edge_section e (WordData.furigana word_data))
       (Some e) flag
     = ret (MainResult.mk [] T_none).
Proof.
  intros He H NE.
  pose proof (@process_readings_cases host highlight_args word_data flag e _ _ He H) as Cases.
  cbv zeta in Cases.
  assert (Off : e = LEFT \/ e = MIDDLE ->
                okurigana_loop host (PyStr.split comma (HighlightArgs.kunyomi highlight_args))
                  word_data highlight_args [] (WordData.okurigana word_data)
                = ([], WordData.okurigana word_data)).
  { intros Hl. apply okurigana_loop_off_edge. rewrite He. now destruct Hl as [-> | ->]. }
  assert (On : onyomi_loop host
                 (sort_by_len_reverse (PyStr.split comma (HighlightArgs.onyomi highlight_args)))
                 (edge_section e (WordData.furigana word_data)) = ret None ->
               check_onyomi_readings host (HighlightArgs.onyomi highlight_args)
                 (WordData.furigana word_data) (edge_section e (WordData.furigana word_data))
                 (Some e) flag
               = ret (MainResult.mk [] T_none)).
  { intros L. unfold check_onyomi_readings. now rewrite L, bind_ret_l. }
  destruct Cases as [[mm [text [_ [_ [_ [R _]]]]]]
                     | [[mm [r' [L [_ [_ [_ [Ty [R _]]]]]]]]
                        | [[L [_ [R _]]] | [_ [_ [r' [R T]]]]]]];
    injection R as -> -> ->; try congruence.
  - split; [|split; [exact Ty | now apply On]].
    destruct e; auto; rewrite Off in NE by auto; simpl in NE; congruence.
  - split; [|split; [reflexivity | now apply On]].
    destruct e; auto; rewrite Off in NE by auto; simpl in NE; congruence.
Qed.

(** X10.  A kanji without kunyomi: [kunyomi] is the empty string, whose one entry
    is empty and so occurs in every section.  When the onyomi pass has found
    nothing, a unit at the left edge or in the middle gets an empty pair of
    markers before its unchanged gloss, and the split of the mora among the
    kanji is never tried. *)
Theorem empty_kunyomi_stops_before_the_fallback
    (highlight_args : HighlightArgs.t) (word_data : WordData.t) (e : Edge) :
  WordData.edge word_data = Some e ->
  e = LEFT \/ e = MIDDLE ->
  HighlightArgs.kunyomi highlight_args = [] ->
  no_line_feed (WordData.furigana word_data) ->
  check_onyomi_readings host (HighlightArgs.onyomi highlight_args)
    (WordData.furigana word_data) (edge_section e (WordData.furigana word_data))
    (Some e) false
  = ret (MainResult.mk [] T_none) ->
  process_readings host highlight_args word_data false
  = ret (inl (MainResult.mk (b_open ++ b_close ++ WordData.furigana word_data) T_kunyomi),
         [], WordData.okurigana word_data).
Proof.
  intros He Hl K N On. unfold process_readings.
  rewrite He, get_target_furigana_section_edge, bind_ret_l, On, bind_ret_l.
  cbn [is_type MainResult.type]. rewrite K.
  unfold check_kunyomi_readings. cbn [PyStr.split kunyomi_loop].
  unfold kunyomi_reading_match. cbn [existsb]. rewrite bind_ret_l, contains_nil, !bind_ret_l.
  rewrite (@replace_kunyomi_match_plain host _ [] _ (Forall_nil _)), bind_ret_l.
  cbn [is_type MainResult.type okurigana_loop fst snd].
  unfold ret. do 3 f_equal.
  unfold Re.sub.
  assert (F : PyStr.find [] (WordData.furigana word_data) = Some 0).
  { unfold PyStr.find. now destruct (WordData.furigana word_data). }
  assert (R : is_edge RIGHT (Some e) = false) by now destruct Hl as [-> | ->].
  unfold edge_pattern. rewrite R. unfold pattern_from_left, pattern_from_middle.
  destruct (is_edge LEFT (Some e)).
  - destruct (@match_from_left true [] _ 0 N F) as [st [en [g0 ->]]].
    simpl. now rewrite !app_nil_r.
  - destruct (@match_from_left false [] _ 0 N F) as [st [en [g0 ->]]].
    simpl. now rewrite !app_nil_r.
Qed.

End WholeWord.

(** X11.  The fallback for a word none of whose readings fits.  The mora found in
    the gloss are dealt out to the kanji of the word in equal shares, the
    first kanji getting one more each as long as the remainder lasts; the
    share of the kanji to highlight is put between markers and the mora
    before and after it are put out as they are.  No index leaves the list
    of mora.  A word of no kanji makes the division fail. *)
Theorem fallback_split_is_even (word_data : WordData.t) (kanji_count kanji_pos : nat) :
  WordData.kanji_count word_data = Some kanji_count ->
  WordData.kanji_pos word_data = Some kanji_pos ->
  let mora_list := Re.findall1 ALL_MORA_REC (WordData.furigana word_data) in
  let mora_per_kanji := length mora_list / kanji_count in
  let remainder := length mora_list mod kanji_count in
  let first := kanji_pos * mora_per_kanji + min kanji_pos remainder in
  let share := mora_per_kanji + (if kanji_pos <? remainder then 1 else 0) in
  (kanji_count = 0 -> handle_jukujigun_case word_data = raise ZeroDivisionError)
  /\ (kanji_pos < kanji_count ->
      handle_jukujigun_case word_data
      = ret (MainResult.mk
               (concat (firstn first mora_list) ++ b_open
                ++ concat (firstn share (skipn first mora_list)) ++ b_close
                ++ concat (skipn (first + share) mora_list))
               T_kunyomi)
      /\ concat (firstn first mora_list) ++ concat (firstn share (skipn first mora_list))
         ++ concat (skipn (first + share) mora_list)
         = concat mora_list).
Proof.
  intros C P. cbv zeta. split.
  - intros ->. unfold handle_jukujigun_case. now rewrite C.
  - intros L.
    destruct (@handle_jukujigun_case_ranges word_data kanji_count kanji_pos C P L) as [H Last].
    cbv zeta in H, Last. rewrite H. unfold mora_slice. rewrite Last.
    unfold share_start.
    set (mora_list := Re.findall1 ALL_MORA_REC (WordData.furigana word_data)).
    set (first := kanji_pos * (length mora_list / kanji_count)
                  + min kanji_pos (length mora_list mod kanji_count)).
    set (share := length mora_list / kanji_count
                  + (if kanji_pos <? length mora_list mod kanji_count then 1 else 0)).
    replace (first + length mora_list / kanji_count
             + (if kanji_pos <? length mora_list mod kanji_count then 1 else 0))
      with (first + share) by (unfold share; lia).
    replace (first + share - first) with share by lia.
    split; [reflexivity|].
    rewrite <- !concat_app. f_equal.
    replace (first + share) with (share + first) by lia.
    now rewrite <- skipn_skipn, !firstn_skipn.
Qed.

(* ------------------------------------------------------------------ *)
(** ** Emphases that touch *)

Lemma replace_go_over (old_rest new a s : str) :
  no_marker a ->
  PyStr.replace_go (60%N :: old_rest) new (a ++ s) 0 None
  = a ++ PyStr.replace_go (60%N :: old_rest) new s 0 None.
Proof.
  induction 1 as [|c a Hc _ IH]; [reflexivity|].
  cbn [app PyStr.replace_go PyStr.startswith].
  destruct (N.eqb_spec 60 c) as [<-|_]; [congruence|]. cbn [andb]. now rewrite IH.
Qed.

Lemma replace_go_end (old new a : str) :
  no_marker a -> PyStr.replace (60%N :: old) new a = a.
Proof.
  intros H. unfold PyStr.replace. rewrite <- (app_nil_r a) at 1.
  rewrite replace_go_over by exact H. simpl. apply app_nil_r.
Qed.

Lemma hiragana_no_marker (s : str) :
  Forall (fun c => hiragana_class c = true) s -> no_marker s.
Proof.
  apply Forall_impl. intros c H. unfold hiragana_class, in_range in H.
  apply andb_true_iff in H as [H _]. apply N.leb_le in H. lia.
Qed.

Lemma no_marker_tail (s : str) :
  no_marker s -> PyStr.replace_go (b_close ++ b_open) [] s 0 None = s.
Proof.
  intros H. change (b_close ++ b_open) with (60%N :: [47; 98; 62; 60; 98; 62]%N).
  rewrite <- (app_nil_r s) at 1. rewrite replace_go_over by exact H.
  simpl. apply app_nil_r.
Qed.

Lemma replace_go_open (s : str) :
  PyStr.replace_go (b_close ++ b_open) [] (b_open ++ s) 0 None
  = b_open ++ PyStr.replace_go (b_close ++ b_open) [] s 0 None.
Proof. reflexivity. Qed.

Lemma replace_go_close (s : str) :
  match s with c :: _ => c <> 60%N | [] => True end ->
  PyStr.replace_go (b_close ++ b_open) [] (b_close ++ s) 0 None
  = b_close ++ PyStr.replace_go (b_close ++ b_open) [] s 0 None.
Proof.
  intros H.
  assert (E : PyStr.startswith [60; 98; 62]%N s = false).
  { destruct s as [|c s]; [reflexivity|]. cbn [PyStr.startswith].
    destruct (N.eqb_spec 60 c) as [<-|_]; [congruence | reflexivity]. }
  assert (Step : forall old new c t,
            PyStr.startswith old (c :: t) = false ->
            PyStr.replace_go old new (c :: t) 0 None = c :: PyStr.replace_go old new t 0 None).
  { intros old new c t Hs. cbn [PyStr.replace_go]. now rewrite Hs. }
  change (b_close ++ b_open) with [60; 47; 98; 62; 60; 98; 62]%N.
  change b_close with [60; 47; 98; 62]%N. cbn [app].
  rewrite Step by exact E. now rewrite !Step by reflexivity.
Qed.

Lemma replace_go_close_open (s : str) :
  PyStr.replace_go (b_close ++ b_open) [] (b_close ++ b_open ++ s) 0 None
  = PyStr.replace_go (b_close ++ b_open) [] s 0 None.
Proof. reflexivity. Qed.

Lemma no_marker_head (s : str) :
  no_marker s -> match s with c :: _ => c <> 60%N | [] => True end.
Proof. now destruct 1. Qed.

(** The last step of [handle_partial_kanji_case] on a gloss with one
    emphasis: a closing marker directly before the opening marker of the
    trailing kana is taken out together with it. *)
Lemma merge_markers (pre m post hl rest_kana : str) :
  no_marker pre -> no_marker m -> no_marker post -> no_marker hl -> no_marker rest_kana ->
  PyStr.replace (b_close ++ b_open) []
    ((pre ++ b_open ++ m ++ b_close ++ post) ++ b_open ++ hl ++ b_close ++ rest_kana)
  = match post with
    | [] => pre ++ b_open ++ m ++ hl ++ b_close ++ rest_kana
    | _ :: _ => pre ++ b_open ++ m ++ b_close ++ post ++ b_open ++ hl ++ b_close ++ rest_kana
    end.
Proof.
  intros Hpre Hm Hpost Hhl Hrest. unfold PyStr.replace.
  assert (Over : forall a t, no_marker a ->
            PyStr.replace_go (b_close ++ b_open) [] (a ++ t) 0 None
            = a ++ PyStr.replace_go (b_close ++ b_open) [] t 0 None).
  { intros a t Ha. now apply replace_go_over. }
  assert (Tail : PyStr.replace_go (b_close ++ b_open) [] (hl ++ b_close ++ rest_kana) 0 None
                 = hl ++ b_close ++ rest_kana).
  { rewrite Over by exact Hhl.
    rewrite replace_go_close by now apply no_marker_head.
    now rewrite no_marker_tail. }
  rewrite <- !app_assoc.
  rewrite Over by exact Hpre. rewrite replace_go_open. rewrite Over by exact Hm.
  destruct post as [|c post].
  - cbn [app]. rewrite replace_go_close_open, Tail. reflexivity.
  - rewrite replace_go_close by (inversion Hpost; assumption).
    rewrite Over by exact Hpost. rewrite replace_go_open, Tail. reflexivity.
Qed.

Section Merge.

Variable host : Host.

(** X12.  When the emphasised reading ends the gloss and the trailing kana are
    emphasised too, the two emphases come out as one: the closing marker of
    the first and the opening marker of the second are taken out.  When
    something of the gloss follows the reading, both stay.  The gloss holds
    no pattern operator, so the reading found in it stands for itself in the
    pattern that places the first emphasis. *)
Theorem adjacent_emphasis_is_merged
    (highlight_args : HighlightArgs.t) (word furigana okurigana : str) (kanji_pos : nat)
    (pre m post okurigana_to_highlight rest_kana : str) :
  PyStr.find (HighlightArgs.kanji_to_highlight highlight_args) word = Some kanji_pos ->
  plain_reading furigana ->
  process_readings host highlight_args
    (WordData.mk (Some kanji_pos) (Some (length word)) word furigana okurigana
       (Some (if negb (kanji_pos =? 0) && negb (S kanji_pos =? length word) then MIDDLE
              else if kanji_pos =? 0 then LEFT else RIGHT)))
    false
  = ret (inl (MainResult.mk (pre ++ b_open ++ m ++ b_close ++ post) T_kunyomi),
         okurigana_to_highlight, rest_kana) ->
  okurigana_to_highlight <> [] ->
  no_marker pre -> no_marker m -> no_marker post ->
  no_marker okurigana_to_highlight -> no_marker rest_kana ->
  handle_partial_kanji_case host highlight_args word furigana okurigana
  = ret (match post with
         | [] => pre ++ b_open ++ m ++ okurigana_to_highlight ++ b_close ++ rest_kana
         | _ :: _ => pre ++ b_open ++ m ++ b_close ++ post
                     ++ b_open ++ okurigana_to_highlight ++ b_close ++ rest_kana
         end).
Proof.
  intros F _ P NE Hpre Hm Hpost Hhl Hrest.
  unfold handle_partial_kanji_case. rewrite F. cbv zeta.
  rewrite P, bind_ret_l. cbn [subscript]. rewrite bind_ret_l. cbn [MainResult.text].
  destruct okurigana_to_highlight as [|c hl]; [congruence|].
  now rewrite merge_markers.
Qed.

End Merge.

(* ------------------------------------------------------------------ *)
(** ** Words with kana inside *)

Module ReLazy.
Import Re.

(** A lazy run goes on over a stretch of the text from no place of which
    what follows can go on, and stops where it can. *)
Lemma rep_lazy_at {A : Type} (p : char -> bool) (lo : nat) (K : nat -> str -> option A)
    (pre rs' : str) (a : A) :
  forall cnt ps,
    Forall (fun c => p c = true) pre ->
    (forall v t ps', pre = v ++ t -> t <> [] -> K ps' (t ++ rs') = None) ->
    lo <= cnt + length pre ->
    K (ps + length pre) rs' = Some a ->
    rep_go p lo None false cnt ps (pre ++ rs') K = Some a.
Proof.
  induction pre as [|c pre IH]; intros cnt ps Hp Hk L Ka; simpl in *.
  - rewrite Nat.add_0_r in *.
    assert (E : (lo <=? cnt) = true) by (apply Nat.leb_le; lia).
    destruct rs' as [|d rs']; simpl; rewrite E; [exact Ka|].
    rewrite Ka. now destruct (p d && true).
  - inversion Hp as [|? ? Hc Hp']; subst. rewrite Hc. simpl.
    change (c :: pre ++ rs') with ((c :: pre) ++ rs').
    rewrite (Hk [] (c :: pre) ps eq_refl) by discriminate.
    replace (if lo <=? cnt then None else None) with (@None A) by now destruct (lo <=? cnt).
    apply IH; auto; [|lia|].
    + intros v t ps' E NE. apply (Hk (c :: v) t ps'); [now rewrite E | exact NE].
    + now rewrite Nat.add_succ_r in Ka.
Qed.

Lemma strip_prefix_app_l (a b s : str) :
  strip_prefix (a ++ b) s
  = match strip_prefix a s with Some r => strip_prefix b r | None => None end.
Proof.
  revert s. induction a as [|c a IH]; intros s; simpl; [reflexivity|].
  destruct s as [|d s]; [reflexivity|]. destruct (c =? d)%N; [apply IH | reflexivity].
Qed.

Lemma strip_prefix_self (a s : str) : strip_prefix a (a ++ s) = Some s.
Proof.
  induction a as [|c a IH]; simpl; [reflexivity|]. now rewrite N.eqb_refl.
Qed.

End ReLazy.

(** What does not occur before a place does not start at any place before
    it. *)
Lemma find_from_first (k pre rs : str) :
  forall i, PyStr.find_from k (pre ++ rs) i = Some (i + length pre) ->
            forall v t, pre = v ++ t -> t <> [] -> PyStr.startswith k (t ++ rs) = false.
Proof.
  induction pre as [|c pre IH]; intros i F v t E NE.
  - destruct v; destruct t; simpl in E; congruence.
  - simpl in F. destruct (PyStr.startswith k (c :: pre ++ rs)) eqn:Sw.
    + injection F as F. simpl in F. lia.
    + destruct v as [|d v]; simpl in E.
      * subst t. exact Sw.
      * injection E as -> E. apply (IH (S i)) with (v := v); auto.
        rewrite F. f_equal. simpl. lia.
Qed.

(** A reading without a closing bracket that starts a text ending in one
    starts the text without it. *)
Lemma startswith_before (k x : str) (c : char) :
  ~ In c k -> PyStr.startswith k (x ++ [c]) = PyStr.startswith k x.
Proof.
  revert x. induction k as [|d k IH]; intros x NI; [reflexivity|].
  destruct x as [|e x]; simpl.
  - destruct (N.eqb_spec d c) as [->|_]; [simpl in NI; tauto|reflexivity].
  - rewrite IH by (simpl in NI; tauto). reflexivity.
Qed.

(** The closing bracket comes only at the end. *)
Lemma closing_at_end (h t : str) :
  ~ In 93%N (t ++ h) -> t <> [] ->
  Re.strip_prefix (h ++ [93%N]) (t ++ h ++ [93%N]) = None.
Proof.
  intros NI NE.
  destruct (Re.strip_prefix (h ++ [93%N]) (t ++ h ++ [93%N])) as [r|] eqn:E; [|reflexivity].
  exfalso. apply ReFacts.strip_prefix_app in E.
  assert (L : length (t ++ h ++ [93%N]) = length ((h ++ [93%N]) ++ r)) by now rewrite E.
  rewrite !length_app in L. simpl in L.
  assert (Ht : length t = length r) by lia.
  (* the character at index [length h] of both sides *)
  assert (N1 : nth_error ((h ++ [93%N]) ++ r) (length h) = Some 93%N).
  { rewrite <- app_assoc. rewrite nth_error_app2 by lia. now rewrite Nat.sub_diag. }
  rewrite <- E in N1. rewrite app_assoc in N1.
  rewrite nth_error_app1 in N1.
  - apply nth_error_In in N1. contradiction.
  - rewrite length_app. destruct t; [congruence | simpl; lia].
Qed.

Section Cleaning.

Variable host : Host.

Lemma hiragana_dot (s : str) :
  Forall (fun c => hiragana_class c = true) s -> Forall (fun c => Re.dot c = true) s.
Proof.
  intros H. apply hiragana_no_line_feed in H. revert H. apply Forall_impl.
  intros c Hc. unfold Re.dot. now rewrite Hc.
Qed.

Lemma hiragana_no_bracket (s : str) :
  Forall (fun c => hiragana_class c = true) s -> ~ In 93%N s.
Proof.
  intros H I. rewrite Forall_forall in H. apply H in I. discriminate.
Qed.

(** The match of the cleaning pattern on a word with kana inside it and one
    gloss for all of it. *)
Lemma mix_pattern_match (k1 h1 k2 h2 f1 f2 : str) :
  decimal_is_no_kana host ->
  k1 <> [] -> Forall (fun c => kanji_class host c = true) k1 ->
  h1 <> [] -> Forall (fun c => hiragana_class c = true) h1 ->
  Forall (fun c => kanji_class host c = true) k2 ->
  Forall (fun c => hiragana_class c = true) h2 ->
  (k2 = [] -> h2 = []) ->
  f1 <> [] -> Forall (fun c => hiragana_class c = true) f1 ->
  Forall (fun c => hiragana_class c = true) f2 ->
  PyStr.find h1 (tl (f1 ++ h1 ++ f2 ++ h2)) = Some (length f1 - 1) ->
  exists s',
    Re.rmatch (OKURIGANA_MIX_CLEANING_RE host)
      (Re.MState 0 (k1 ++ h1 ++ k2 ++ h2 ++ [91%N] ++ f1 ++ h1 ++ f2 ++ h2 ++ [93%N]) [])
      (fun x => Some x) = Some s'
    /\ Re.rest s' = []
    /\ Re.caps s' = [(6, f2); (5, f1); (4, h2); (3, k2); (2, h1); (1, k1)].
Proof.
  intros D Nk1 Kk1 Nh1 Hh1 Kk2 Hh2 Shape Nf1 Hf1 Hf2 First.
  destruct f1 as [|c1 f1]; [congruence|].
  inversion Hf1 as [|? ? Hc1 Hf1']; subst.
  pose proof (hiragana_dot Hf1) as Dc1. inversion Dc1 as [|? ? Dc Df1]; subst.
  eexists. split.
  - unfold OKURIGANA_MIX_CLEANING_RE, Re.cat. cbn [fold_right].
    (* group 1: the kanji *)
    rewrite ReScan.rmatch_cat_grp_rep. cbn [Re.pos Re.rest Re.caps].
    apply ReScan.rep_greedy_all; [exact Kk1 | | destruct k1; [congruence | simpl; lia] |].
    { destruct h1 as [|c h1]; [congruence|]. inversion Hh1; subst.
      cbn [app]. apply not_kanji; [exact D | tauto]. }
    (* group 2: the kana after them *)
    rewrite ?ReFacts.firstn_consumed.
    rewrite ReScan.rmatch_cat_grp_rep. cbn [Re.pos Re.rest Re.caps].
    apply ReScan.rep_greedy_all; [exact Hh1 | | destruct h1; [congruence | simpl; lia] |].
    { destruct k2 as [|c k2].
      - rewrite (Shape eq_refl). reflexivity.
      - inversion Kk2; subst. cbn [app]. now apply (@kanji_not_hiragana host c D). }
    (* group 3: more kanji *)
    rewrite ?ReFacts.firstn_consumed.
    rewrite ReScan.rmatch_cat_grp_rep. cbn [Re.pos Re.rest Re.caps].
    apply ReScan.rep_greedy_all; [exact Kk2 | | lia |].
    { destruct h2 as [|c h2]; cbn [app]; [apply not_kanji; [exact D | tauto]|].
      inversion Hh2; subst. apply not_kanji; [exact D | tauto]. }
    (* group 4: more kana *)
    rewrite ?ReFacts.firstn_consumed.
    rewrite ReScan.rmatch_cat_grp_rep. cbn [Re.pos Re.rest Re.caps].
    apply ReScan.rep_greedy_all; [exact Hh2 | reflexivity | lia |].
    (* the opening bracket *)
    rewrite ?ReFacts.firstn_consumed.
    rewrite rmatch_cat, ReOrder.rmatch_lit. cbn [Re.pos Re.rest Re.caps].
    cbn [PyStr.startswith app N.eqb Pos.eqb andb length skipn].
    (* group 5: the gloss of the first kanji, up to the kana *)
    rewrite ReScan.rmatch_cat_grp_rep. cbn [Re.pos Re.rest Re.caps].
    cbn [app Re.rep_go].
    rewrite Dc. cbn [andb Re.below Nat.leb].
    apply ReLazy.rep_lazy_at; [exact Df1 | | simpl; lia |].
    { intros v t ps' E NE.
      rewrite rmatch_cat. cbn [Re.rmatch Re.caps Re.cap Nat.eqb Re.rest].
      simpl in First. rewrite Nat.sub_0_r in First.
      pose proof (@find_from_first h1 f1 (h1 ++ f2 ++ h2) 0 First v t E NE) as Sw.
      rewrite ReFacts.strip_prefix_startswith.
      replace (t ++ h1 ++ f2 ++ h2 ++ [93%N]) with ((t ++ h1 ++ f2 ++ h2) ++ [93%N])
        by now rewrite <- !app_assoc.
      rewrite startswith_before by now apply hiragana_no_bracket.
      now rewrite Sw. }
    (* the kana again *)
    rewrite rmatch_cat. cbn [Re.rmatch Re.caps Re.cap Nat.eqb Re.rest Re.pos].
    rewrite ReLazy.strip_prefix_self.
    (* group 6: the gloss of the second kanji, up to its kana and the bracket *)
    apply ReLazy.rep_lazy_at; [now apply hiragana_dot | | lia |].
    { intros v t ps' E NE. cbv beta.
      pose proof (@closing_at_end h2 t) as Cl.
      rewrite ReLazy.strip_prefix_app_l in Cl.
      destruct (Re.strip_prefix h2 (t ++ h2 ++ [93%N])) as [r|]; [|reflexivity].
      rewrite Cl; [reflexivity | | exact NE].
      apply hiragana_no_bracket. apply Forall_app. split; [|exact Hh2].
      rewrite E in Hf2. apply Forall_app in Hf2. tauto. }
    cbv beta. rewrite ReLazy.strip_prefix_self.
    cbn [Re.strip_prefix N.eqb Pos.eqb]. reflexivity.
  - cbn [Re.rest Re.caps]. split; [reflexivity|].
    f_equal; [|f_equal]; f_equal.
    + apply ReFacts.firstn_consumed.
    + assert (Ix : forall a n, S a + n - a = length (c1 :: f1) -> 
                   firstn (S a + n - a) ((c1 :: f1) ++ h1 ++ f2 ++ h2 ++ [93%N]) = c1 :: f1).
      { intros a n ->. apply firstn_exact. }
      apply Ix. cbn [length]. lia.
Qed.

(** X13.  A word with kana inside it and one gloss over all of it, such as
    消え去[きえさ], is rewritten into units of its own: the first kanji with
    the gloss up to the kana, the kana, and, if anything of the gloss is
    left for it, the second kanji with the rest of the gloss and its kana. *)
Theorem mixed_word_is_split_into_units (k1 h1 k2 h2 f1 f2 : str) :
  decimal_is_no_kana host ->
  k1 <> [] -> Forall (fun c => kanji_class host c = true) k1 ->
  h1 <> [] -> Forall (fun c => hiragana_class c = true) h1 ->
  Forall (fun c => kanji_class host c = true) k2 ->
  Forall (fun c => hiragana_class c = true) h2 ->
  (k2 = [] -> h2 = []) ->
  f1 <> [] -> Forall (fun c => hiragana_class c = true) f1 ->
  Forall (fun c => hiragana_class c = true) f2 ->
  PyStr.find h1 (tl (f1 ++ h1 ++ f2 ++ h2)) = Some (length f1 - 1) ->
  Re.sub (OKURIGANA_MIX_CLEANING_RE host) okurigana_mix_cleaning_replacer
    (unit_text (k1 ++ h1 ++ k2 ++ h2) (f1 ++ h1 ++ f2 ++ h2) [])
  = unit_text k1 f1 h1
    ++ match f2 with
       | [] => []
       | _ :: _ => unit_text k2 f2 h2
       end.
Proof.
  intros D Nk1 Kk1 Nh1 Hh1 Kk2 Hh2 Shape Nf1 Hf1 Hf2 First.
  destruct (@mix_pattern_match k1 h1 k2 h2 f1 f2 D Nk1 Kk1 Nh1 Hh1 Kk2 Hh2 Shape Nf1 Hf1
              Hf2 First) as [s' [M [R C]]].
  assert (E : unit_text (k1 ++ h1 ++ k2 ++ h2) (f1 ++ h1 ++ f2 ++ h2) []
              = k1 ++ h1 ++ k2 ++ h2 ++ [91%N] ++ f1 ++ h1 ++ f2 ++ h2 ++ [93%N]).
  { unfold unit_text. now rewrite <- !app_assoc. }
  rewrite E. unfold unit_text, Re.sub.
  rewrite (@ReScan.finditer_whole _ _ _ M R) by reflexivity.
  cbn [map concat]. unfold okurigana_mix_cleaning_replacer, Re.group.
  cbn [Re.m_caps]. rewrite C. cbn [Re.cap Nat.eqb].
  cbn [app]. rewrite !app_nil_r. destruct f2; rewrite <- ?app_assoc, ?app_nil_r; reflexivity.
Qed.

End Cleaning.

(* ------------------------------------------------------------------ *)
(** ** The dictionary form *)

Lemma split_no_sep (sep : char) (s : str) : ~ In sep s -> PyStr.split sep s = [s].
Proof.
  induction s as [|c s IH]; intros NI; simpl; [reflexivity|].
  destruct (N.eqb_spec c sep) as [->|_]; [simpl in NI; tauto|].
  rewrite IH by (simpl in NI; tauto). reflexivity.
Qed.

Lemma split_once (sep : char) (a b : str) :
  ~ In sep a -> ~ In sep b -> PyStr.split sep (a ++ [sep] ++ b) = [a; b].
Proof.
  intros Na Nb. induction a as [|c a IH]; simpl.
  - rewrite N.eqb_refl. now rewrite split_no_sep.
  - destruct (N.eqb_spec c sep) as [->|_]; [simpl in Na; tauto|].
    simpl in IH. rewrite IH by (simpl in Na; tauto). reflexivity.
Qed.

Lemma contains_self (s : str) : PyStr.contains s s = true.
Proof.
  unfold PyStr.contains. rewrite <- (app_nil_r s) at 2. now rewrite PyStrFacts.find_app.
Qed.

Section Dictionary.

Variable host : Host.

(** X14.  A word that is the kanji alone, glossed with the stem of the first
    kunyomi entry and followed by the okurigana of that entry, as in 見[み]る
    for み.る: when no onyomi occurs in the gloss, gloss and okurigana come
    out together inside one pair of markers. *)
Theorem dictionary_form_is_emphasised_in_full
    (highlight_args : HighlightArgs.t) (word stem okurigana : str) (others : list str) :
  PyStr.split comma (HighlightArgs.kunyomi highlight_args)
  = (stem ++ [period] ++ okurigana) :: others ->
  ~ In period stem -> ~ In period okurigana -> okurigana <> [] ->
  check_onyomi_readings host (HighlightArgs.onyomi highlight_args) stem stem
    (Some WHOLE) true
  = ret (MainResult.mk [] T_none) ->
  handle_whole_kanji_case host highlight_args word stem okurigana
  = ret (b_open ++ stem ++ okurigana ++ b_close).
Proof.
  intros K Ns No NE On. unfold handle_whole_kanji_case, process_readings.
  cbn [WordData.furigana WordData.edge WordData.okurigana get_target_furigana_section].
  rewrite bind_ret_l, On, bind_ret_l. cbn [is_type MainResult.type].
  unfold check_kunyomi_readings. rewrite K. cbn [kunyomi_loop].
  assert (P : existsb (N.eqb period) (stem ++ [period] ++ okurigana) = true).
  { apply existsb_exists. exists period. split; [|apply N.eqb_refl].
    apply in_or_app. right. now left. }
  unfold kunyomi_reading_match. rewrite P, split_once by assumption.
  rewrite !bind_ret_l, contains_self, !bind_ret_l. cbn [is_type MainResult.type].
  rewrite !bind_ret_l. cbn [subscript]. rewrite bind_ret_l.
  cbn [is_type MainResult.type].
  assert (L : okurigana_loop host ((stem ++ [period] ++ okurigana) :: others)
                (WordData.mk (Some 0) (Some 1) word stem okurigana (Some WHOLE))
                highlight_args [] okurigana
              = (okurigana, [])).
  { cbn [okurigana_loop].
    destruct (stem ++ [period] ++ okurigana) as [|c e] eqn:E.
    - destruct stem; discriminate.
    - rewrite <- E, split_once by assumption.
      unfold check_okurigana_for_kunyomi_inflection.
      cbn [WordData.edge WordData.okurigana is_edge orb negb].
      destruct okurigana as [|o0 o]; [congruence|].
      rewrite PyStrFacts.eqb_refl. cbn [fst snd].
      destruct others; reflexivity. }
  rewrite L. cbn [fst snd]. now rewrite app_nil_r.
Qed.

End Dictionary.

(* ------------------------------------------------------------------ *)
(** ** Instances *)

Ltac each_char :=
  try unfold no_line_feed, plain_reading, no_marker;
  match goal with
  | |- Forall _ ?s => let l := eval vm_compute in s in change s with l
  end;
  repeat first [ apply Forall_nil
               | apply Forall_cons; [first [vm_compute; reflexivity | discriminate]|] ].

(** 視聴者[しちょうしゃ] at the left edge: of the two し of the gloss the
    first is the one emphasised. *)
Lemma reading_emphasised_at_first_occurrence_witness :
  replace_kunyomi_match host_as_written (u "しちょうしゃ") (u "し") (Some LEFT)
  = ret (MainResult.mk (u "<b>し</b>ちょうしゃ") T_kunyomi)
  /\ replace_onyomi_match host_as_written (u "しちょうしゃ") (u "し") (Some LEFT)
     = ret (u "<b>シ</b>ちょうしゃ").
Proof.
  pose proof (@reading_emphasised_at_first_occurrence host_as_written
                (u "しちょうしゃ") (u "し") (Some LEFT) 0
                ltac:(each_char)
                ltac:(each_char)
                eq_refl
                ltac:(vm_compute; reflexivity)) as [K O].
  split.
  - refine (eq_trans K _). vm_compute; reflexivity.
  - refine (eq_trans O _). vm_compute; reflexivity.
Defined.

(** 笑止[しょうし] at the right edge: of the two し of the gloss the last is
    the one emphasised. *)
Lemma reading_emphasised_at_last_occurrence_witness :
  replace_kunyomi_match host_as_written (u "しょうし") (u "し") (Some RIGHT)
  = ret (MainResult.mk (u "しょう<b>し</b>") T_kunyomi)
  /\ replace_onyomi_match host_as_written (u "しょうし") (u "し") (Some RIGHT)
     = ret (u "しょう<b>シ</b>").
Proof.
  pose proof (@reading_emphasised_at_last_occurrence host_as_written
                (u "し") (u "しょう") []
                ltac:(discriminate)
                ltac:(each_char)
                ltac:(each_char)
                ltac:(vm_compute; reflexivity)) as [K O].
  split.
  - refine (eq_trans K _). vm_compute; reflexivity.
  - refine (eq_trans O _). vm_compute; reflexivity.
Defined.

(** シ(漢) is read as し. *)
Lemma onyomi_annotation_is_dropped_witness :
  clean_onyomi_reading host_as_written (u "シ(漢)") = u "し".
Proof.
  refine (eq_trans (@onyomi_annotation_is_dropped host_as_written (u "シ") (u "漢")
                      ltac:(vm_compute; intuition discriminate)
                      ltac:(vm_compute; intuition discriminate)
                      ltac:(each_char)) _).
  vm_compute; reflexivity.
Defined.

Lemma text_without_units_is_unchanged_witness :
  kana_highlight host_as_written (u "視") (u "シ(漢)、ジ(呉)") (u "み.る") (u "こんにちは")
  = ret (u "こんにちは").
Proof.
  apply (@text_without_units_is_unchanged host_as_written).
  left. vm_compute. intuition discriminate.
Defined.

Lemma unit_is_parsed_witness :
  Re.finditer (KANJI_AND_FURIGANA_AND_OKURIGANA_REC host_as_written) (u "去[さ]った")
  = [ Re.Text [];
      Re.Match (Re.ReMatch 0 6 (u "去[さ]った") [(3, u "った"); (2, u "さ"); (1, u "去")]);
      Re.Text [] ].
Proof.
  refine (eq_trans (@unit_is_parsed host_as_written (u "去") (u "さ") (u "った")
                      ltac:(vm_compute; reflexivity)
                      ltac:(discriminate)
                      ltac:(each_char)
                      ltac:(discriminate)
                      ltac:(vm_compute; intuition discriminate)
                      ltac:(each_char)
                      ltac:(each_char)) _).
  vm_compute; reflexivity.
Defined.

(** No decimal digit of Unicode is a hiragana or a square bracket. *)
Lemma unicode_Nd_is_no_kana : decimal_is_no_kana host_as_written.
Proof.
  intros c H. cbn [isdecimal host_as_written] in H.
  assert (K : hiragana_class c = true \/ c = 91%N \/ c = 93%N -> unicode_Nd c = false).
  { intros [K|[->| ->]]; [|vm_compute; reflexivity..].
    unfold hiragana_class, in_range in K.
    apply andb_true_iff in K as [K1 K2]. apply N.leb_le in K1, K2.
    unfold unicode_Nd. cbn [existsb].
    repeat match goal with
           | |- context [in_range ?lo ?hi c] =>
               replace (in_range lo hi c) with false
                 by (symmetry; unfold in_range; apply andb_false_iff;
                     ((left; apply N.leb_gt; lia) || (right; apply N.leb_gt; lia)))
           end.
    reflexivity. }
  split; [|split].
  - destruct (hiragana_class c) eqn:E; [|reflexivity]. rewrite K in H by auto. discriminate.
  - intros ->. rewrite K in H by auto. discriminate.
  - intros ->. rewrite K in H by auto. discriminate.
Qed.

Lemma single_unit_goes_to_the_replacer_witness :
  kana_highlight host_as_written (u "去") (u "キョ(漢)、コ(呉)") (u "さ.る、ゆ.く、のぞ.く")
    (u "去[さ]った")
  = furigana_replacer host_as_written
      (HighlightArgs.mk (u "去[さ]った") (u "キョ(漢)、コ(呉)") (u "さ.る、ゆ.く、のぞ.く")
         (u "去"))
      (Re.ReMatch 0 6 (u "去[さ]った") [(3, u "った"); (2, u "さ"); (1, u "去")]).
Proof.
  refine (eq_trans (@single_unit_goes_to_the_replacer host_as_written
                      (u "去") (u "キョ(漢)、コ(呉)") (u "さ.る、ゆ.く、のぞ.く")
                      (u "去") (u "さ") (u "った")
                      unicode_Nd_is_no_kana
                      ltac:(discriminate)
                      ltac:(each_char)
                      ltac:(discriminate)
                      ltac:(each_char)
                      ltac:(each_char)
                      ltac:(vm_compute; reflexivity)) _).
  vm_compute; reflexivity.
Defined.

(** 嘴[くちばし] with the onyomi シ: the し at the end of the gloss makes the
    whole unit an onyomi one. *)
Lemma onyomi_anywhere_in_gloss_decides_witness :
  handle_whole_kanji_case host_as_written
    (HighlightArgs.mk (u "嘴[くちばし]") (u "シ") (u "くちばし、はし") (u "嘴"))
    (u "嘴") (u "くちばし") []
  = ret (u "<b>クチバシ</b>").
Proof.
  refine (eq_trans (@onyomi_anywhere_in_gloss_decides host_as_written
                      (HighlightArgs.mk (u "嘴[くちばし]") (u "シ") (u "くちばし、はし") (u "嘴"))
                      (u "嘴") (u "くちばし") [] (u "シ")
                      ltac:(vm_compute; auto)
                      ltac:(vm_compute; reflexivity)) _).
  vm_compute; reflexivity.
Defined.

Lemma whole_word_unit_is_emphasised_witness :
  exists inner rest_kana,
    furigana_replacer host_as_written
      (HighlightArgs.mk (u "去[さ]った") (u "キョ(漢)、コ(呉)") (u "さ.る、ゆ.く、のぞ.く")
         (u "去"))
      (Re.ReMatch 0 6 (u "去[さ]った") [(3, u "った"); (2, u "さ"); (1, u "去")])
    = ret (b_open ++ inner ++ b_close ++ rest_kana)
    /\ ((inner = to_katakana host_as_written (u "さ") /\ rest_kana = u "った")
        \/ exists okurigana_to_highlight,
             inner = u "さ" ++ okurigana_to_highlight
             /\ okurigana_to_highlight ++ rest_kana = u "った").
Proof.
  apply (@whole_word_unit_is_emphasised host_as_written
           (HighlightArgs.mk (u "去[さ]った") (u "キョ(漢)、コ(呉)") (u "さ.る、ゆ.く、のぞ.く")
              (u "去"))
           (Re.ReMatch 0 6 (u "去[さ]った") [(3, u "った"); (2, u "さ"); (1, u "去")])).
  - vm_compute; reflexivity.
  - left. vm_compute; reflexivity.
  - vm_compute; repeat constructor.
Defined.

Lemma trailing_kana_emphasis_needs_kunyomi_witness :
  let highlight_args :=
    HighlightArgs.mk (u "去[さ]った") (u "キョ(漢)、コ(呉)") (u "さ.る、ゆ.く、のぞ.く") (u "去") in
  let word_data := WordData.mk (Some 0) (Some 1) (u "去") (u "さ") (u "った") (Some WHOLE) in
  process_readings host_as_written highlight_args word_data true
  = (Ok (inl (MainResult.mk [] T_kunyomi), u "った", []), [])
  /\ (WHOLE = RIGHT \/ WHOLE = WHOLE)
  /\ check_onyomi_readings host_as_written (u "キョ(漢)、コ(呉)") (u "さ") (u "さ")
       (Some WHOLE) true
     = ret (MainResult.mk [] T_none).
Proof.
  cbv zeta. split; [vm_compute; reflexivity|].
  pose proof (@trailing_kana_emphasis_needs_kunyomi host_as_written
                (HighlightArgs.mk (u "去[さ]った") (u "キョ(漢)、コ(呉)")
                   (u "さ.る、ゆ.く、のぞ.く") (u "去"))
                (WordData.mk (Some 0) (Some 1) (u "去") (u "さ") (u "った") (Some WHOLE))
                true WHOLE (MainResult.mk [] T_kunyomi) (u "った") [] []
                eq_refl
                ltac:(vm_compute; reflexivity)
                ltac:(vm_compute; discriminate)) as [E [_ O]].
  split; [exact E | exact O].
Defined.

(** 大人[おとな] read with 大 given the onyomi ダイ and タイ and no kunyomi. *)
Lemma empty_kunyomi_stops_before_the_fallback_witness :
  process_readings host_as_written
    (HighlightArgs.mk (u "大人[おとな]") (u "ダイ、タイ") [] (u "大"))
    (WordData.mk (Some 0) (Some 2) (u "大人") (u "おとな") [] (Some LEFT))
    false
  = ret (inl (MainResult.mk (u "<b></b>おとな") T_kunyomi), [], [])
  /\ kana_highlight host_as_written (u "大") (u "ダイ、タイ") [] (u "大人[おとな]")
     = ret (u "<b></b>おとな").
Proof.
  split; [|vm_compute; reflexivity].
  refine (eq_trans (@empty_kunyomi_stops_before_the_fallback host_as_written
                      (HighlightArgs.mk (u "大人[おとな]") (u "ダイ、タイ") [] (u "大"))
                      (WordData.mk (Some 0) (Some 2) (u "大人") (u "おとな") [] (Some LEFT))
                      LEFT eq_refl (or_introl eq_refl) eq_refl
                      ltac:(each_char)
                      ltac:(vm_compute; reflexivity)) _).
  vm_compute; reflexivity.
Defined.

(** 大人[おとな]: three mora for two kanji, so two for the first kanji and one
    for the second. *)
Lemma fallback_split_is_even_witness :
  handle_jukujigun_case
    (WordData.mk (Some 0) (Some 2) (u "大人") (u "おとな") [] (Some LEFT))
  = ret (MainResult.mk (u "<b>おと</b>な") T_kunyomi)
  /\ handle_jukujigun_case
       (WordData.mk (Some 1) (Some 2) (u "大人") (u "おとな") [] (Some RIGHT))
     = ret (MainResult.mk (u "おと<b>な</b>") T_kunyomi).
Proof.
  split.
  - refine (eq_trans (proj1 (proj2 (@fallback_split_is_even
                        (WordData.mk (Some 0) (Some 2) (u "大人") (u "おとな") [] (Some LEFT))
                        2 0 eq_refl eq_refl) ltac:(lia))) _).
    vm_compute; reflexivity.
  - refine (eq_trans (proj1 (proj2 (@fallback_split_is_even
                        (WordData.mk (Some 1) (Some 2) (u "大人") (u "おとな") [] (Some RIGHT))
                        2 1 eq_refl eq_refl) ltac:(lia))) _).
    vm_compute; reflexivity.
Defined.

(** 見送[みおく]る with 送 read おく.る: the reading ends the gloss and the
    trailing る is emphasised with it. *)
Lemma adjacent_emphasis_is_merged_witness :
  handle_partial_kanji_case host_as_written
    (HighlightArgs.mk (u "見送[みおく]る") (u "ソウ") (u "おく.る") (u "送"))
    (u "見送") (u "みおく") (u "る")
  = ret (u "み<b>おくる</b>").
Proof.
  refine (eq_trans (@adjacent_emphasis_is_merged host_as_written
                      (HighlightArgs.mk (u "見送[みおく]る") (u "ソウ") (u "おく.る") (u "送"))
                      (u "見送") (u "みおく") (u "る") 1
                      (u "み") (u "おく") [] (u "る") []
                      ltac:(vm_compute; reflexivity)
                      ltac:(each_char)
                      ltac:(vm_compute; reflexivity)
                      ltac:(vm_compute; discriminate)
                      ltac:(each_char)
                      ltac:(each_char)
                      ltac:(constructor)
                      ltac:(each_char)
                      ltac:(constructor)) _).
  vm_compute; reflexivity.
Defined.

(** 消え去[きえさ] becomes 消[き]え去[さ]. *)
Lemma mixed_word_is_split_into_units_witness :
  Re.sub (OKURIGANA_MIX_CLEANING_RE host_as_written) okurigana_mix_cleaning_replacer
    (u "消え去[きえさ]")
  = u "消[き]え去[さ]".
Proof.
  refine (eq_trans (@mixed_word_is_split_into_units host_as_written
                      (u "消") (u "え") (u "去") [] (u "き") (u "さ")
                      unicode_Nd_is_no_kana
                      ltac:(discriminate)
                      ltac:(each_char)
                      ltac:(discriminate)
                      ltac:(each_char)
                      ltac:(each_char)
                      ltac:(constructor)
                      ltac:(reflexivity)
                      ltac:(discriminate)
                      ltac:(each_char)
                      ltac:(each_char)
                      ltac:(vm_compute; reflexivity)) _).
  vm_compute; reflexivity.
Defined.

Lemma dictionary_form_is_emphasised_in_full_witness :
  handle_whole_kanji_case host_as_written
    (HighlightArgs.mk (u "見[み]る") (u "ケン(漢)") (u "み.る、み.える、み.せる") (u "見"))
    (u "見") (u "み") (u "る")
  = ret (u "<b>みる</b>").
Proof.
  refine (eq_trans (@dictionary_form_is_emphasised_in_full host_as_written
                      (HighlightArgs.mk (u "見[み]る") (u "ケン(漢)")
                         (u "み.る、み.える、み.せる") (u "見"))
                      (u "見") (u "み") (u "る") [u "み.える"; u "み.せる"]
                      ltac:(vm_compute; reflexivity)
                      ltac:(vm_compute; intuition discriminate)
                      ltac:(vm_compute; intuition discriminate)
                      ltac:(discriminate)
                      ltac:(vm_compute; reflexivity)) _).
  vm_compute; reflexivity.
Defined.

(* ================================================================== *)
(** ** The test data of the module *)

(** The calls of [main()], with the results it expects. *)
Module Tests.

Example test_01 :
  kana_highlight host_as_written (u "視") (u "シ(漢)、ジ(呉)")
    (u "み.る")
    (u "視聴者[しちょうしゃ]")
  = ret (u "<b>シ</b>ちょうしゃ").
Proof. vm_compute; reflexivity. Qed.

Example test_02 :
  kana_highlight host_as_written (u "儀") (u "ギ(呉)")
    (u "のり、よ.い")
    (u "行儀[ぎょうぎ]")
  = ret (u "ぎょう<b>ギ</b>").
Proof. vm_compute; reflexivity. Qed.

Example test_03 :
  kana_highlight host_as_written (u "去") (u "キョ(漢)、コ(呉)")
    (u "さ.る、ゆ.く、のぞ.く")
    (u "団子[だんご]が 消え去[きえさ]った。")
  = ret (u "だんごが きえ<b>さった</b>。").
Proof. vm_compute; reflexivity. Qed.

Example test_04 :
  kana_highlight host_as_written (u "隣") (u "リン(呉)")
    (u "とな.る、となり")
    (u "隣り合わせ[となりあわせ]の町[まち]。")
  = ret (u "<b>となり</b>あわせのまち。").
Proof. vm_compute; reflexivity. Qed.

Example test_05 :
  kana_highlight host_as_written (u "国") (u "コク(呉)")
    (u "くに")
    (u "国々[くにぐに]の 関係[かんけい]が 深い[ふかい]。")
  = ret (u "<b>くにぐに</b>の かんけいが ふかい。").
Proof. vm_compute; reflexivity. Qed.

Example test_06 :
  kana_highlight host_as_written (u "時") (u "ジ(呉)、シ(漢)")
    (u "とき")
    (u "時々[ときどき] 雨[あめ]が 降る[ふる]。")
  = ret (u "<b>ときどき</b> あめが ふる。").
Proof. vm_compute; reflexivity. Qed.

Example test_07 :
  kana_highlight host_as_written (u "刻") (u "コク(呉)")
    (u "きざ.む、きざ.み、とき")
    (u "刻々[こっこく]と 変化[へんか]する。")
  = ret (u "<b>コッコク</b>と へんかする。").
Proof. vm_compute; reflexivity. Qed.

Example test_08 :
  kana_highlight host_as_written (u "止") (u "シ(呉)")
    (u "と.まる、と.める、とど.める、とど.め、とど.まる、や.める、や.む、よ.す、さ.す")
    (u "歯止め[はどめ]")
  = ret (u "は<b>どめ</b>").
Proof. vm_compute; reflexivity. Qed.

Example test_09 :
  kana_highlight host_as_written (u "閣") (u "カク(呉)")
    (u "たかどの、たな")
    (u "新[しん] 内閣[ないかく]の 組閣[そかく]が 発表[はっぴょう]された。")
  = ret (u "しん ない<b>カク</b>の そ<b>カク</b>が はっぴょうされた。").
Proof. vm_compute; reflexivity. Qed.

Example test_10 :
  kana_highlight host_as_written (u "国") (u "コク(呉)")
    (u "くに")
    (u "その2 国[こく]は 国交[こっこう]を 断絶[だんぜつ]した。")
  = ret (u "その2 <b>コク</b>は <b>コッ</b>こうを だんぜつした。").
Proof. vm_compute; reflexivity. Qed.

Example test_11 :
  kana_highlight host_as_written (u "靴") (u "カ(漢)、ケ(呉)")
    (u "くつ")
    (u "お 前[まえ]いつも 長靴[ながぐつ]に 傘[かさ]さしてキメーんだよ！！")
  = ret (u "お まえいつも なが<b>ぐつ</b>に かささしてキメーんだよ！！").
Proof. vm_compute; reflexivity. Qed.

Example test_12 :
  kana_highlight host_as_written (u "必") (u "ヒツ(漢)、ヒチ(呉)")
    (u "かなら.ず")
    (u "見敵必殺[けんてきひっさつ]の 指示[しじ]もないのに 戦闘[せんとう]は 不自然[ふしぜん]。")
  = ret (u "けんてき<b>ヒッ</b>さつの しじもないのに せんとうは ふしぜん。").
Proof. vm_compute; reflexivity. Qed.

Example test_13 :
  kana_highlight host_as_written (u "賊") (u "ゾク(呉)、ソク(漢)")
    (u "わるもの、そこ.なう")
    (u "海賊[かいぞく]たちは ７[なな]つの 海[うみ]を 航海[こうかい]した。")
  = ret (u "かい<b>ゾク</b>たちは ななつの うみを こうかいした。").
Proof. vm_compute; reflexivity. Qed.

Example test_14 :
  kana_highlight host_as_written (u "由") (u "ユ(呉)、ユウ(漢)、ユイ(慣)")
    (u "よし、よ.る、なお")
    (u "彼女[かのじょ]は 由緒[ゆいしょ]ある 家柄[いえがら]の 出[で]だ。")
  = ret (u "かのじょは <b>ユイ</b>しょある いえがらの でだ。").
Proof. vm_compute; reflexivity. Qed.

Example test_15 :
  kana_highlight host_as_written (u "剔") (u "テキ(漢)、チャク(呉)")
    (u "えぐ.る、そ.る、のぞ.く")
    (u "剔抉[てっけつ]")
  = ret (u "<b>テッ</b>けつ").
Proof. vm_compute; reflexivity. Qed.

Example test_16 :
  kana_highlight host_as_written (u "一") (u "イチ(漢)、イツ(呉)")
    (u "ひと、ひと.つ、はじ.め")
    (u "一見[いっけん]")
  = ret (u "<b>イッ</b>けん").
Proof. vm_compute; reflexivity. Qed.

Example test_17 :
  kana_highlight host_as_written (u "各") (u "カク(漢)、カ(呉)")
    (u "おのおの")
    (u "各国[かっこく]")
  = ret (u "<b>カッ</b>こく").
Proof. vm_compute; reflexivity. Qed.

Example test_18 :
  kana_highlight host_as_written (u "吉") (u "キチ(漢)、キツ(呉)")
    (u "よし")
    (u "吉兆[きっちょう]")
  = ret (u "<b>キッ</b>ちょう").
Proof. vm_compute; reflexivity. Qed.

Example test_19 :
  kana_highlight host_as_written (u "蔵") (u "ゾウ(漢)、ソウ(呉)")
    (u "くら")
    (u "秘蔵っ子[ひぞっこ]")
  = ret (u "ひ<b>ゾッ</b>こ").
Proof. vm_compute; reflexivity. Qed.

Example test_20 :
  kana_highlight host_as_written (u "尻") (u "コウ(呉)")
    (u "しり")
    (u "尻尾[しっぽ]")
  = ret (u "<b>しっ</b>ぽ").
Proof. vm_compute; reflexivity. Qed.

Example test_21 :
  kana_highlight host_as_written (u "呆") (u "ホウ(漢)、ボウ(慣)、ホ(呉)、タイ(慣)、ガイ(呉)")
    (u "ほけ.る、ぼ.ける、あき.れる、おろか、おろ.か")
    (u "呆気[あっけ]ない")
  = ret (u "<b>あっ</b>けない").
Proof. vm_compute; reflexivity. Qed.

Example test_22 :
  kana_highlight host_as_written (u "甲") (u "コウ(漢)、カン(慣)、キョウ(呉)")
    (u "きのえ、かぶと、よろい、つめ")
    (u "甲冑[かっちゅう]の 試着[しちゃく]をお 願[ねが]いします｡")
  = ret (u "<b>カッ</b>ちゅうの しちゃくをお ねがいします｡").
Proof. vm_compute; reflexivity. Qed.

Example test_23 :
  kana_highlight host_as_written (u "百") (u "ヒャク(呉)、ハク(漢)")
    (u "もも")
    (u "百貨店[ひゃっかてん]")
  = ret (u "<b>ヒャッ</b>かてん").
Proof. vm_compute; reflexivity. Qed.

Example test_24 :
  kana_highlight host_as_written (u "祖") (u "ソ(呉)、ゾ")
    (u "おや、じじ、はじ.め")
    (u "先祖[せんぞ]")
  = ret (u "せん<b>ゾ</b>").
Proof. vm_compute; reflexivity. Qed.

Example test_25 :
  kana_highlight host_as_written (u "来") (u "ライ(呉)、タイ")
    (u "く.る、きた.る、きた.す、き.たす、き.たる、き、こ、こ.し、き.し")
    (u "それは 私[わたし]たちの 日常生活[にちじょうせいかつ]の 仕来[しき]たりの １[ひと]つだ。")
  = ret (u "それは わたしたちの にちじょうせいかつの し<b>きたり</b>の ひとつだ。").
Proof. vm_compute; reflexivity. Qed.

Example test_26 :
  kana_highlight host_as_written (u "大") (u "ダイ(呉)、タイ(漢)、タ(漢)、ダ(呉)")
    (u "おお、おお.きい、おお.いに")
    (u "大人[おとな] 達[たち]は 大[おお]きいですね")
  = ret (u "<b>おと</b>な たちは <b>おおきい</b>ですね").
Proof. vm_compute; reflexivity. Qed.

Example test_27 :
  kana_highlight host_as_written (u "人") (u "ジン(漢)、ニン(呉)")
    (u "ひと")
    (u "大人[おとな] 達[たち]は 人々[ひとびと]の 中[なか]に いる。")
  = ret (u "おと<b>な</b> たちは <b>ひとびと</b>の なかに いる。").
Proof. vm_compute; reflexivity. Qed.

Example test_28 :
  kana_highlight host_as_written (u "今") (u "コン(呉)、キン(漢)")
    (u "いま")
    (u "今日[きょう]は 今[いま]まで 一日[いちにち] 何[なに]も しなかった。")
  = ret (u "<b>きょ</b>うは <b>いま</b>まで いちにち なにも しなかった。").
Proof. vm_compute; reflexivity. Qed.

Example test_29 :
  kana_highlight host_as_written (u "日") (u "ニチ(呉)、ジツ(漢)、ニ")
    (u "ひ、か")
    (u "今日[きょう]は 今[いま]まで 一日[いちにち] 何[なに]も しなかった。")
  = ret (u "きょ<b>う</b>は いままで いち<b>ニチ</b> なにも しなかった。").
Proof. vm_compute; reflexivity. Qed.

Example test_30 :
  kana_highlight host_as_written (u "百") (u "ヒャク(呉)、ハク(漢)")
    (u "もも")
    (u "百人[ひゃくにん]の 百合[ゆり]オタクが 合体[がったい]した。")
  = ret (u "<b>ヒャク</b>にんの <b>ゆ</b>りオタクが がったいした。").
Proof. vm_compute; reflexivity. Qed.

Example test_31 :
  kana_highlight host_as_written (u "合") (u "ガッ(慣)、カッ(慣)、ゴウ(呉)、コウ(漢)")
    (u "あ.う、あ.い、あい、あ.わす、あ.わせる")
    (u "百人[ひゃくにん]の 百合[ゆり]オタクが 合体[がったい]した。")
  = ret (u "ひゃくにんの ゆ<b>り</b>オタクが <b>ガッ</b>たいした。").
Proof. vm_compute; reflexivity. Qed.

Example test_32 :
  kana_highlight host_as_written (u "来") (u "ライ(呉)、タイ")
    (u "く.る、きた.る、きた.す、き.たす、き.たる、き、こ、こ.し、き.し")
    (u "今[いま]に 来[きた]るべし")
  = ret (u "いまに <b>きたる</b>べし").
Proof. vm_compute; reflexivity. Qed.

End Tests.
